(** * api-documenter-hugo: the page-tree builder of [HugoDocumenter]

    A shallow embedding of [HugoDocumenter] (the documenter class that turns
    an API model into a tree of Hugo markdown pages), of the excerpt and
    heritage rendering it performs, and of [CustomDocNodes.configuration].

    Items of the API model are addressed by their position in the model
    tree, which is what an object reference to an [ApiItem] denotes.  The
    page body (a [DocSection]) is a list of document nodes.  Console output
    and the files written are kept in an explicit state that every page
    writer threads through, together with the error a [throw] raises. *)

From Stdlib Require Import ZArith String Ascii List Bool Lia.
From Stdlib Require Import DecimalString DecimalZ.
From stdpp Require Import base option list strings gmap.

Open Scope string_scope.
Open Scope list_scope.

#[local] Set Warnings "-register-all".

(* ================================================================= *)
(** ** Strings as the code uses them *)

(** Template literals print a number in decimal: [`_${n}`]. *)
Definition numberToString (n : Z) : string :=
  NilEmpty.string_of_int (Z.to_int n).

Definition isNewlineChar (c : ascii) : bool :=
  (Ascii.eqb c "010" || Ascii.eqb c "013")%char.

(** [text.replace(/[\r\n]+/g, ' ')]: every maximal run of carriage returns
    and line feeds becomes one space.  [inRun] tells that the previous
    character was part of the run being replaced. *)
Fixpoint replaceNewlineRuns (inRun : bool) (s : string) : string :=
  match s with
  | EmptyString => EmptyString
  | String c rest =>
      if isNewlineChar c
      then (if inRun then replaceNewlineRuns true rest
            else String " " (replaceNewlineRuns true rest))
      else String c (replaceNewlineRuns false rest)
  end.

Definition unwrapText (text : string) : string := replaceNewlineRuns false text.

(** [/\n/.test(s)] *)
Fixpoint containsLineFeed (s : string) : bool :=
  match s with
  | EmptyString => false
  | String c rest => Ascii.eqb c "010" || containsLineFeed rest
  end.

Fixpoint containsNewlineChar (s : string) : bool :=
  match s with
  | EmptyString => false
  | String c rest => isNewlineChar c || containsNewlineChar rest
  end.

(** White space that [String.prototype.trim] removes, among the one-byte
    characters. *)
Definition isWhiteSpace (c : ascii) : bool :=
  let n := nat_of_ascii c in
  (Nat.leb 9 n && Nat.leb n 13) || Nat.eqb n 32.

(** [!s.trim()]: the trimmed string is empty. *)
Fixpoint trimsToEmpty (s : string) : bool :=
  match s with
  | EmptyString => true
  | String c rest => isWhiteSpace c && trimsToEmpty rest
  end.

Fixpoint concatStrings (l : list string) : string :=
  match l with
  | [] => ""
  | s :: rest => s +:+ concatStrings rest
  end.

(* ================================================================= *)
(** ** Helpers whose code lies outside the documenter *)

(** Modelled from the spec: [Utilities.getSafeFilenameForName] (in
    utils/Utilities.ts) is missing.  The spec asks for a conversion that
    replaces the characters illegal in a path segment by a fixed escape,
    total and deterministic; here every character other than a letter, a
    digit, [_], [-] and [.] becomes [_]. *)
Definition isSafeFilenameChar (c : ascii) : bool :=
  let n := nat_of_ascii c in
  (Nat.leb 48 n && Nat.leb n 57) || (Nat.leb 65 n && Nat.leb n 90)
  || (Nat.leb 97 n && Nat.leb n 122)
  || Nat.eqb n 95 || Nat.eqb n 45 || Nat.eqb n 46.

Fixpoint safeFilenameForName (name : string) : string :=
  match name with
  | EmptyString => EmptyString
  | String c rest =>
      String (if isSafeFilenameChar c then c else "_"%char) (safeFilenameForName rest)
  end.

(** Modelled from the spec: [PackageName.getUnscopedName] belongs to
    [@rushstack/node-core-library]; the spec describes it as stripping any
    scope prefix such as a leading [@scope/]. *)
Fixpoint afterFirstSlash (s : string) : option string :=
  match s with
  | EmptyString => None
  | String c rest => if Ascii.eqb c "/" then Some rest else afterFirstSlash rest
  end.

Definition unscopedName (packageName : string) : string :=
  match packageName with
  | String c _ =>
      if Ascii.eqb c "@"
      then match afterFirstSlash packageName with
           | Some rest => rest
           | None => packageName
           end
      else packageName
  | EmptyString => packageName
  end.

(* ================================================================= *)
(** ** The API item model, as the documenter reads it *)

Module ApiItemKind.
Inductive t :=
| CallSignature | Class | Constructor | ConstructSignature | EntryPoint
| Enum | EnumMember | Function | IndexSignature | Interface | Method
| MethodSignature | Model | Namespace | Package | Property
| PropertySignature | TypeAlias | Variable_ | None.

Definition eqb (a b : t) : bool :=
  match a, b with
  | CallSignature, CallSignature | Class, Class | Constructor, Constructor
  | ConstructSignature, ConstructSignature | EntryPoint, EntryPoint
  | Enum, Enum | EnumMember, EnumMember | Function, Function
  | IndexSignature, IndexSignature | Interface, Interface | Method, Method
  | MethodSignature, MethodSignature | Model, Model | Namespace, Namespace
  | Package, Package | Property, Property
  | PropertySignature, PropertySignature | TypeAlias, TypeAlias
  | Variable_, Variable_ | None, None => true
  | _, _ => false
  end.

Definition toString (k : t) : string :=
  match k with
  | CallSignature => "CallSignature" | Class => "Class"
  | Constructor => "Constructor" | ConstructSignature => "ConstructSignature"
  | EntryPoint => "EntryPoint" | Enum => "Enum" | EnumMember => "EnumMember"
  | Function => "Function" | IndexSignature => "IndexSignature"
  | Interface => "Interface" | Method => "Method"
  | MethodSignature => "MethodSignature" | Model => "Model"
  | Namespace => "Namespace" | Package => "Package" | Property => "Property"
  | PropertySignature => "PropertySignature" | TypeAlias => "TypeAlias"
  | Variable_ => "Variable" | None => "None"
  end.
End ApiItemKind.

Module ReleaseTag.
Inductive t := None | Internal | Alpha | Beta | Public.
End ReleaseTag.

Module ExcerptTokenKind.
Inductive t := Content | Reference.
End ExcerptTokenKind.

Module NewlineKind.
Inductive t := CrLf | Lf | OsDefault.
End NewlineKind.

(** A canonical reference is kept as its text; [None] is the absent
    (falsy) reference of a token. *)
Definition DeclarationReference := string.

Record ExcerptToken := {
  tokenKind : ExcerptTokenKind.t;
  text : string;
  canonicalReference : option DeclarationReference;
}.

(** An excerpt is read through its [spannedTokens]; its [text] is their
    concatenation. *)
Definition Excerpt := list ExcerptToken.

Definition excerptText (e : Excerpt) : string := concatStrings (map text e).

(* ================================================================= *)
(** ** Document nodes *)

(** The nodes a page body is made of: the TSDoc nodes the documenter
    creates or copies from comments, and the custom nodes of this
    package.  A table row is a list of cells and a cell holds the nodes of
    its content section. *)
Inductive DocNode :=
| DocPlainText (text : string)
| DocSoftBreak
| DocCodeSpan (code : string)
| DocFencedCode (code language : string)
| DocLinkTag (linkText urlDestination : string)
| DocParagraph (nodes : list DocNode)
| DocEmphasisSpan (bold italic : bool) (nodes : list DocNode)
| DocHeading (title : string)
| DocNoteBox (content : list DocNode)
| DocTable (headerTitles : list string) (rows : list (list (list DocNode))).

Definition DocSection := list DocNode.
Definition DocTableCell := list DocNode.
Definition DocTableRow := list DocTableCell.
(** A [DocNodeContainer] under construction: the children appended so far. *)
Definition DocNodeContainer := list DocNode.

Definition appendNode (container : list DocNode) (node : DocNode) : list DocNode :=
  container ++ [node].

Definition appendNodes (container : list DocNode) (nodes : list DocNode) : list DocNode :=
  container ++ nodes.

(** [DocSection.appendNodeInParagraph]: the node joins the last paragraph
    of the section when the section ends with one, and a new paragraph
    otherwise. *)
Definition appendNodeInParagraph (section : DocSection) (docNode : DocNode) : DocSection :=
  match rev section with
  | DocParagraph nodes :: before => rev before ++ [DocParagraph (nodes ++ [docNode])]
  | _ => section ++ [DocParagraph [docNode]]
  end.

Definition appendNodesInParagraph (section : DocSection) (docNodes : list DocNode) : DocSection :=
  fold_left appendNodeInParagraph docNodes section.

(** The constructor of [DocPlainText] refuses a text with a line feed. *)
Definition plainTextAccepted (text : string) : bool := negb (containsLineFeed text).

(** A block of a comment: its tag in upper case and its content. *)
Record DocBlock := {
  tagNameWithUpperCase : string;
  blockContent : DocSection;
}.

Record DocComment := {
  summarySection : DocSection;
  remarksBlock : option DocBlock;
  deprecatedBlock : option DocBlock;
  returnsBlock : option DocBlock;
  customBlocks : list DocBlock;
}.

Module StandardTags.
Definition decorator : string := "@DECORATOR".
Definition example : string := "@EXAMPLE".
Definition throws : string := "@THROWS".
End StandardTags.

(* ================================================================= *)
(** ** Items and the model tree *)

Record ApiParameter := {
  parameterName : string;
  parameterIsOptional : bool;
  tsdocParamBlock : option DocBlock;
  parameterTypeExcerpt : Excerpt;
}.

(** What the documenter reads from one item.  A flag of a mixin the item
    does not have is [false]; an excerpt it does not have is empty. *)
Record ApiItemData := {
  kind : ApiItemKind.t;
  displayName : string;
  overloadIndex : Z;
  releaseTag : ReleaseTag.t;
  tsdocComment : option DocComment;
  excerptTokens : list ExcerptToken;
  extendsType : option Excerpt;
  implementsTypes : list Excerpt;
  extendsTypes : list Excerpt;
  isOptional : bool;
  isStatic : bool;
  isProtected : bool;
  isReadonly : bool;
  isAbstract : bool;
  isEventProperty : bool;
  parameters : list ApiParameter;
  returnTypeExcerpt : Excerpt;
  propertyTypeExcerpt : Excerpt;
  initializerExcerpt : option Excerpt;
}.

Inductive ApiTree := ApiNode (item : ApiItemData) (children : list ApiTree).

Definition treeItem (t : ApiTree) : ApiItemData := match t with ApiNode d _ => d end.
Definition treeChildren (t : ApiTree) : list ApiTree := match t with ApiNode _ c => c end.

(** An [ApiItem] reference: the member indices leading from the model
    root to the item.  Two references are the same object exactly when
    they are the same path. *)
Definition ApiItem := list nat.

Definition noItemData : ApiItemData := {|
  kind := ApiItemKind.None; displayName := ""; overloadIndex := 0;
  releaseTag := ReleaseTag.None; tsdocComment := None; excerptTokens := [];
  extendsType := None; implementsTypes := []; extendsTypes := [];
  isOptional := false; isStatic := false; isProtected := false;
  isReadonly := false; isAbstract := false; isEventProperty := false;
  parameters := []; returnTypeExcerpt := []; propertyTypeExcerpt := [];
  initializerExcerpt := None |}.

Definition noItem : ApiTree := ApiNode noItemData [].

Fixpoint subtree (t : ApiTree) (path : ApiItem) : ApiTree :=
  match path with
  | [] => t
  | i :: rest => subtree (nth i (treeChildren t) noItem) rest
  end.

(** [apiItem.parent] *)
Definition parent (apiItem : ApiItem) : option ApiItem :=
  match apiItem with
  | [] => None
  | _ => Some (removelast apiItem)
  end.

(** [apiItem.getHierarchy()]: the item and its parents, pushed from the
    item upwards and then reversed. *)
Fixpoint hierarchyUpwards (steps : nat) (current : ApiItem) : list ApiItem :=
  match steps with
  | O => [current]
  | S n => current :: hierarchyUpwards n (removelast current)
  end.

Definition getHierarchy (apiItem : ApiItem) : list ApiItem :=
  rev (hierarchyUpwards (length apiItem) apiItem).

(** The parents of an item, from the root down: its hierarchy without
    the item itself. *)
Definition ancestors (apiItem : ApiItem) : list ApiItem :=
  rev (tl (hierarchyUpwards (length apiItem) apiItem)).

Record IFindApiItemsResult := {
  items : list ApiItem;
  messages : list string;
  maybeIncompleteResult : bool;
}.

Record FrontMatter := {
  title : string;
  menuMainWeight : option Z;
}.

(** Kinds whose class mixes in [ApiParameterListMixin]. *)
Definition ApiParameterListMixin_isBaseClassOf (k : ApiItemKind.t) : bool :=
  match k with
  | ApiItemKind.CallSignature | ApiItemKind.Constructor
  | ApiItemKind.ConstructSignature | ApiItemKind.Function
  | ApiItemKind.IndexSignature | ApiItemKind.Method
  | ApiItemKind.MethodSignature => true
  | _ => false
  end.

(** Kinds whose class mixes in [ApiReturnTypeMixin]. *)
Definition ApiReturnTypeMixin_isBaseClassOf (k : ApiItemKind.t) : bool :=
  match k with
  | ApiItemKind.CallSignature | ApiItemKind.ConstructSignature
  | ApiItemKind.Function | ApiItemKind.IndexSignature | ApiItemKind.Method
  | ApiItemKind.MethodSignature => true
  | _ => false
  end.

(** Kinds whose class extends [ApiDeclaredItem]. *)
Definition isApiDeclaredItem (k : ApiItemKind.t) : bool :=
  match k with
  | ApiItemKind.EntryPoint | ApiItemKind.Model | ApiItemKind.Package
  | ApiItemKind.None => false
  | _ => true
  end.

(** Kinds whose class extends [ApiDocumentedItem]: the declared items and
    the package.  The model and an entry point carry no comment. *)
Definition isApiDocumentedItem (k : ApiItemKind.t) : bool :=
  isApiDeclaredItem k || ApiItemKind.eqb k ApiItemKind.Package.

Definition ApiReleaseTagMixin_isBaseClassOf (k : ApiItemKind.t) : bool :=
  isApiDeclaredItem k.

Definition isApiPropertyItem (k : ApiItemKind.t) : bool :=
  match k with
  | ApiItemKind.Property | ApiItemKind.PropertySignature => true
  | _ => false
  end.

(* ================================================================= *)
(** ** The documenter's environment *)

Record WrittenFile := {
  filename : string;
  pageContent : string;
  convertLineEndings : NewlineKind.t;
  (* what the content was emitted from *)
  writtenItem : ApiItem;
  writtenFrontMatter : FrontMatter;
  writtenBody : DocSection;
}.

(** The plugin feature of a loaded configuration: what
    [onBeforeWritePage] leaves in [eventArgs.pageContent]. *)
Record MarkdownDocumenterFeature := {
  onBeforeWritePage : ApiItem -> string -> string -> string;
}.

Record DocumenterConfig := {
  newlineKind : NewlineKind.t;
  configFile_showInheritedMembers : option bool;
  loadedFeature : option MarkdownDocumenterFeature;
}.

(** Functions of the item model and of this package that the documenter
    calls and whose code is elsewhere. *)
Record Environment := {
  getSafeFilenameForName : string -> string;
  getUnscopedName : string -> string;
  getConciseSignature : ApiItem -> string;
  getScopedNameWithinPackage : ApiItem -> string;
  getExcerptWithModifiers : ApiItem -> string;
  resolveDeclarationReference : DeclarationReference -> option ApiItem;
  findMembersWithInheritance : ApiItem -> IFindApiItemsResult;
  emitWithFrontMatter : DocSection -> FrontMatter -> ApiItem -> string;
  path_join : string -> string -> string;
}.

Record HugoDocumenter := {
  _apiModel : ApiTree;
  _documenterConfig : option DocumenterConfig;
  _outputFolder : string;
}.

Definition _baseUrl : string := "/docs".

(* ================================================================= *)
(** ** Effects: console, files written, errors *)

Record World := {
  console : list string;
  files : list WrittenFile;
}.

Inductive Error :=
| UnsupportedApiItemKind (kindName : string)
| TypeError
| OutOfFuel.

Definition M (A : Type) : Type := World -> (Error + A) * World.

Definition ret {A} (x : A) : M A := fun w => (inr x, w).

Definition throw {A} (e : Error) : M A := fun w => (inl e, w).

Definition bind {A B} (m : M A) (k : A -> M B) : M B :=
  fun w => match m w with
           | (inl e, w') => (inl e, w')
           | (inr x, w') => k x w'
           end.

Declare Scope doc_scope.
Delimit Scope doc_scope with doc.
Notation "'let!' x ':=' m 'in' k" := (bind m (fun x => k))
  (at level 10, x name, m at level 100, k at level 200) : doc_scope.
Open Scope doc_scope.

Definition console_log (line : string) : M unit :=
  fun w => (inr tt, {| console := console w ++ [line]; files := files w |}).

Definition FileSystem_writeFile (file : WrittenFile) : M unit :=
  fun w => (inr tt, {| console := console w; files := files w ++ [file] |}).

Definition FileSystem_ensureEmptyFolder : M unit :=
  fun w => (inr tt, {| console := console w; files := [] |}).

(** [for (const x of l) { ... }] over a loop state. *)
Fixpoint forEach {A S : Type} (l : list A) (s : S) (body : S -> A -> M S) : M S :=
  match l with
  | [] => ret s
  | x :: rest => let! s' := body s x in forEach rest s' body
  end.

(* ================================================================= *)
(** ** [HugoDocumenter] *)

Section Documenter.

Context (env : Environment) (this : HugoDocumenter).

Definition item (apiItem : ApiItem) : ApiItemData :=
  treeItem (subtree (_apiModel this) apiItem).

(** [apiItem.members], and [entryPoints] for a package. *)
Definition members (apiItem : ApiItem) : list ApiItem :=
  map (fun i => apiItem ++ [i])
      (seq 0 (length (treeChildren (subtree (_apiModel this) apiItem)))).

(** The [pluginLoader.markdownDocumenterFeature]: [generateFiles] loads a
    plugin only from a configuration. *)
Definition markdownDocumenterFeature : option MarkdownDocumenterFeature :=
  match _documenterConfig this with
  | Some config => loadedFeature config
  | None => None
  end.

(** *** File names and links *)

(** The [qualifiedName] of the loop of [_getFilenameForApiItem]: the safe
    display name, with a suffix for an overload after the first and a
    prefix for a variable. *)
Definition qualifiedNameOf (hierarchyItem : ApiItem) : string :=
  let h := item hierarchyItem in
  let qualifiedName := getSafeFilenameForName env (displayName h) in
  let qualifiedName :=
    if ApiParameterListMixin_isBaseClassOf (kind h) && (1 <? overloadIndex h)%Z
    then qualifiedName +:+ "_" +:+ numberToString (overloadIndex h - 1)
    else qualifiedName in
  if ApiItemKind.eqb (kind h) ApiItemKind.Variable_
  then "var_" +:+ qualifiedName
  else qualifiedName.

(** The body of the loop of [_getFilenameForApiItem] over the hierarchy. *)
Definition hierarchyStep (apiItem : ApiItem) (baseName : string)
    (hierarchyItem : ApiItem) : string :=
  let h := item hierarchyItem in
  let qualifiedName := qualifiedNameOf hierarchyItem in
  match kind h with
  | ApiItemKind.Model | ApiItemKind.EnumMember => baseName
  | ApiItemKind.EntryPoint =>
      let entrypointName := displayName h in
      if (0 <? String.length entrypointName)%nat
      then baseName +:+ "/"
           +:+ getSafeFilenameForName env (getUnscopedName env entrypointName)
      else baseName +:+ "/_root"
  | ApiItemKind.Package =>
      let baseName :=
        getSafeFilenameForName env (getUnscopedName env (displayName h)) in
      if bool_decide (hierarchyItem = apiItem)
      then baseName +:+ "/_root"
      else baseName
  | _ => baseName +:+ "/" +:+ qualifiedName
  end.

Definition _getFilenameForApiItem (apiItem : ApiItem) : string :=
  if ApiItemKind.eqb (kind (item apiItem)) ApiItemKind.Model
  then "_index.md"
  else fold_left (hierarchyStep apiItem) (getHierarchy apiItem) "" +:+ "/_index.md".

Definition _getLinkFilenameForApiItem (apiItem : ApiItem) : string :=
  _baseUrl +:+ "/" +:+ _getFilenameForApiItem apiItem.

(** *** Excerpts *)

Definition _appendExcerptTokenWithHyperlinks (docNodeContainer : DocNodeContainer)
    (token : ExcerptToken) : DocNodeContainer :=
  let unwrappedTokenText := unwrapText (text token) in
  let nonHyperlinked := appendNode docNodeContainer (DocPlainText unwrappedTokenText) in
  match tokenKind token, canonicalReference token with
  | ExcerptTokenKind.Reference, Some reference =>
      match resolveDeclarationReference env reference with
      | Some resolvedApiItem =>
          appendNode docNodeContainer
            (DocLinkTag unwrappedTokenText (_getLinkFilenameForApiItem resolvedApiItem))
      | None => nonHyperlinked
      end
  | _, _ => nonHyperlinked
  end.

Definition _appendExcerptWithHyperlinks (docNodeContainer : DocNodeContainer)
    (excerpt : Excerpt) : DocNodeContainer :=
  fold_left _appendExcerptTokenWithHyperlinks excerpt docNodeContainer.

Definition _createParagraphForTypeExcerpt (excerpt : Excerpt) : DocNode :=
  DocParagraph
    (if trimsToEmpty (excerptText excerpt)
     then appendNode [] (DocPlainText "(not declared)")
     else _appendExcerptWithHyperlinks [] excerpt).

(** *** Sections of a comment *)

Definition _appendSection (output docSection : DocSection) : DocSection :=
  fold_left appendNode docSection output.

Definition _appendAndMergeSection (output docSection : DocSection) : DocSection :=
  fst (fold_left
         (fun (state : DocSection * bool) node =>
            let '(output, firstNode) := state in
            match firstNode, node with
            | true, DocParagraph childNodes =>
                (appendNodesInParagraph output childNodes, false)
            | _, _ => (appendNode output node, false)
            end)
         docSection (output, true)).

Definition boldText (s : string) : DocNode := DocEmphasisSpan true false [DocPlainText s].
Definition italicText (s : string) : DocNode := DocEmphasisSpan false true [DocPlainText s].

(** The comment of the item, when the item is an [ApiDocumentedItem] and
    has one. *)
Definition documentedComment (apiItem : ApiItem) : option DocComment :=
  if isApiDocumentedItem (kind (item apiItem)) then tsdocComment (item apiItem) else None.

Definition blocksTagged (tag : string) (comment : DocComment) : list DocBlock :=
  List.filter (fun block => String.eqb (tagNameWithUpperCase block) tag)
              (customBlocks comment).

Definition exampleHeading (count : nat) (exampleNumber : Z) : string :=
  if (1 <? count)%nat then "Example " +:+ numberToString exampleNumber else "Example".

Definition _writeRemarksSection (output : DocSection) (apiItem : ApiItem) : DocSection :=
  match documentedComment apiItem with
  | Some tsdocComment =>
      let output :=
        match remarksBlock tsdocComment with
        | Some block =>
            _appendSection (appendNode output (DocHeading "Remarks")) (blockContent block)
        | None => output
        end in
      let exampleBlocks := blocksTagged StandardTags.example tsdocComment in
      fst (fold_left
             (fun (state : DocSection * Z) exampleBlock =>
                let '(output, exampleNumber) := state in
                let heading := exampleHeading (length exampleBlocks) exampleNumber in
                (_appendSection (appendNode output (DocHeading heading))
                                (blockContent exampleBlock),
                 (exampleNumber + 1)%Z))
             exampleBlocks (output, 1%Z))
  | None => output
  end.

Definition _writeThrowsSection (output : DocSection) (apiItem : ApiItem) : DocSection :=
  match documentedComment apiItem with
  | Some tsdocComment =>
      let throwsBlocks := blocksTagged StandardTags.throws tsdocComment in
      if (0 <? length throwsBlocks)%nat
      then fold_left (fun output throwsBlock => _appendSection output (blockContent throwsBlock))
                     throwsBlocks (appendNode output (DocHeading "Exceptions"))
      else output
  | None => output
  end.

(** *** Heritage types *)

(** A paragraph that lists excerpts after a bold label, separated by
    commas: the [needsComma] loops of [_writeHeritageTypes]. *)
Definition heritageList (label : string) (types : list Excerpt) : DocNode :=
  DocParagraph
    (fst (fold_left
            (fun (state : DocNodeContainer * bool) heritageType =>
               let '(paragraph, needsComma) := state in
               let paragraph :=
                 if needsComma then appendNode paragraph (DocPlainText ", ")
                 else paragraph in
               (_appendExcerptWithHyperlinks paragraph heritageType, true))
            types ([boldText label], false))).

(** The filter of the type alias branch: a reference token whose
    canonical reference resolves to an item of the model. *)
Definition isResolvedReference (token : ExcerptToken) : bool :=
  match tokenKind token, canonicalReference token with
  | ExcerptTokenKind.Reference, Some reference =>
      match resolveDeclarationReference env reference with
      | Some _ => true
      | None => false
      end
  | _, _ => false
  end.

(** The loop over [refs] with its [visited] set and [needsComma] flag. *)
Definition referencesStep (state : DocNodeContainer * bool * gset string)
    (ref : ExcerptToken) : DocNodeContainer * bool * gset string :=
  let '(referencesParagraph, needsComma, visited) := state in
  if bool_decide (text ref ∈ visited) then state
  else
    let visited := visited ∪ {[ text ref ]} in
    let referencesParagraph :=
      if needsComma then appendNode referencesParagraph (DocPlainText ", ")
      else referencesParagraph in
    (_appendExcerptTokenWithHyperlinks referencesParagraph ref, true, visited).

Definition _writeHeritageTypes (output : DocSection) (apiItem : ApiItem) : DocSection :=
  let d := item apiItem in
  let output :=
    if ApiItemKind.eqb (kind d) ApiItemKind.Class then
      let output :=
        match extendsType d with
        | Some excerpt =>
            appendNode output
              (DocParagraph (_appendExcerptWithHyperlinks [boldText "Extends: "] excerpt))
        | None => output
        end in
      if (0 <? length (implementsTypes d))%nat
      then appendNode output (heritageList "Implements: " (implementsTypes d))
      else output
    else output in
  let output :=
    if ApiItemKind.eqb (kind d) ApiItemKind.Interface then
      if (0 <? length (extendsTypes d))%nat
      then appendNode output (heritageList "Extends: " (extendsTypes d))
      else output
    else output in
  if ApiItemKind.eqb (kind d) ApiItemKind.TypeAlias then
    let refs := List.filter isResolvedReference (excerptTokens d) in
    if (0 <? length refs)%nat then
      let '(referencesParagraph, _, _) :=
        fold_left referencesStep refs ([boldText "References: "], false, ∅) in
      appendNode output (DocParagraph referencesParagraph)
    else output
  else output.

(** *** Table cells *)

Definition _createTitleCell (apiItem : ApiItem) : DocTableCell :=
  let linkText := getConciseSignature env apiItem in
  let linkText := if isOptional (item apiItem) then linkText +:+ "?" else linkText in
  [DocParagraph [DocLinkTag linkText (_getLinkFilenameForApiItem apiItem)]].

Definition _createDescriptionCell (apiItem : ApiItem) (isInherited : bool) : DocTableCell :=
  let d := item apiItem in
  let section : DocSection := [] in
  let section :=
    if ApiReleaseTagMixin_isBaseClassOf (kind d) then
      match releaseTag d with
      | ReleaseTag.Alpha =>
          appendNodesInParagraph section
            [DocEmphasisSpan true true [DocPlainText "(ALPHA)"]; DocPlainText " "]
      | ReleaseTag.Beta =>
          appendNodesInParagraph section
            [DocEmphasisSpan true true [DocPlainText "(BETA)"]; DocPlainText " "]
      | _ => section
      end
    else section in
  let section :=
    if isOptional d
    then appendNodesInParagraph section [italicText "(Optional)"; DocPlainText " "]
    else section in
  let section :=
    match documentedComment apiItem with
    | Some tsdocComment => _appendAndMergeSection section (summarySection tsdocComment)
    | None => section
    end in
  if isInherited then
    match parent apiItem with
    | Some apiParent =>
        appendNode section
          (DocParagraph
             [DocPlainText "(Inherited from ";
              DocLinkTag (displayName (item apiParent)) (_getLinkFilenameForApiItem apiParent);
              DocPlainText ")"])
    | None => section
    end
  else section.

Definition _createModifiersCell (apiItem : ApiItem) : DocTableCell :=
  let d := item apiItem in
  let section : DocSection := [] in
  let section :=
    if isProtected d then appendNode section (DocParagraph [DocCodeSpan "protected"])
    else section in
  let section :=
    if isStatic d then appendNode section (DocParagraph [DocCodeSpan "static"])
    else section in
  let section :=
    if isAbstract d then appendNode section (DocParagraph [DocCodeSpan "abstract"])
    else section in
  if isReadonly d then appendNode section (DocParagraph [DocCodeSpan "readonly"])
  else section.

Definition _createPropertyTypeCell (apiItem : ApiItem) : DocTableCell :=
  let d := item apiItem in
  if isApiPropertyItem (kind d)
  then appendNode [] (_createParagraphForTypeExcerpt (propertyTypeExcerpt d))
  else [].

Definition _createInitializerCell (apiItem : ApiItem) : DocTableCell :=
  match initializerExcerpt (item apiItem) with
  | Some excerpt => appendNodeInParagraph [] (DocCodeSpan (excerptText excerpt))
  | None => []
  end.

(** *** Tables *)

(** [if (table.rows.length > 0) { heading; table }], the way every table
    but the entry point table reaches the page. *)
Definition appendTable (output : DocSection) (heading : string)
    (headerTitles : list string) (rows : list DocTableRow) : DocSection :=
  if (0 <? length rows)%nat
  then appendNode (appendNode output (DocHeading heading)) (DocTable headerTitles rows)
  else output.

(** [GENERATE PAGE: MODEL].  [writeApiItemPage] is [_writeApiItemPage],
    which the table writers call for the members they list. *)
Definition _writeModelTable (writeApiItemPage : ApiItem -> M unit)
    (output : DocSection) (apiModel : ApiItem) : M DocSection :=
  let! packagesTable :=
    forEach (members apiModel) ([] : list DocTableRow)
      (fun packagesTable apiMember =>
         let row := [_createTitleCell apiMember; _createDescriptionCell apiMember false] in
         match kind (item apiMember) with
         | ApiItemKind.Package =>
             let! _ := writeApiItemPage apiMember in
             ret (packagesTable ++ [row])
         | _ => ret packagesTable
         end) in
  ret (appendTable output "Packages" ["Package"; "Description"] packagesTable).

Record ContainerTables := {
  abstractClassesTable : list DocTableRow;
  classesTable : list DocTableRow;
  enumerationsTable : list DocTableRow;
  functionsTable : list DocTableRow;
  interfacesTable : list DocTableRow;
  namespacesTable : list DocTableRow;
  variablesTable : list DocTableRow;
  typeAliasesTable : list DocTableRow;
}.

Definition emptyContainerTables : ContainerTables :=
  {| abstractClassesTable := []; classesTable := []; enumerationsTable := [];
     functionsTable := []; interfacesTable := []; namespacesTable := [];
     variablesTable := []; typeAliasesTable := [] |}.

(** The row a member adds, by its kind; [None] for a kind the switch
    does not list. *)
Definition addContainerRow (t : ContainerTables) (memberKind : ApiItemKind.t)
    (abstract : bool) (row : DocTableRow) : option ContainerTables :=
  match memberKind with
  | ApiItemKind.Class =>
      Some (if abstract
            then {| abstractClassesTable := abstractClassesTable t ++ [row];
                    classesTable := classesTable t;
                    enumerationsTable := enumerationsTable t;
                    functionsTable := functionsTable t;
                    interfacesTable := interfacesTable t;
                    namespacesTable := namespacesTable t;
                    variablesTable := variablesTable t;
                    typeAliasesTable := typeAliasesTable t |}
            else {| abstractClassesTable := abstractClassesTable t;
                    classesTable := classesTable t ++ [row];
                    enumerationsTable := enumerationsTable t;
                    functionsTable := functionsTable t;
                    interfacesTable := interfacesTable t;
                    namespacesTable := namespacesTable t;
                    variablesTable := variablesTable t;
                    typeAliasesTable := typeAliasesTable t |})
  | ApiItemKind.Enum =>
      Some {| abstractClassesTable := abstractClassesTable t;
              classesTable := classesTable t;
              enumerationsTable := enumerationsTable t ++ [row];
              functionsTable := functionsTable t;
              interfacesTable := interfacesTable t;
              namespacesTable := namespacesTable t;
              variablesTable := variablesTable t;
              typeAliasesTable := typeAliasesTable t |}
  | ApiItemKind.Interface =>
      Some {| abstractClassesTable := abstractClassesTable t;
              classesTable := classesTable t;
              enumerationsTable := enumerationsTable t;
              functionsTable := functionsTable t;
              interfacesTable := interfacesTable t ++ [row];
              namespacesTable := namespacesTable t;
              variablesTable := variablesTable t;
              typeAliasesTable := typeAliasesTable t |}
  | ApiItemKind.Namespace =>
      Some {| abstractClassesTable := abstractClassesTable t;
              classesTable := classesTable t;
              enumerationsTable := enumerationsTable t;
              functionsTable := functionsTable t;
              interfacesTable := interfacesTable t;
              namespacesTable := namespacesTable t ++ [row];
              variablesTable := variablesTable t;
              typeAliasesTable := typeAliasesTable t |}
  | ApiItemKind.Function =>
      Some {| abstractClassesTable := abstractClassesTable t;
              classesTable := classesTable t;
              enumerationsTable := enumerationsTable t;
              functionsTable := functionsTable t ++ [row];
              interfacesTable := interfacesTable t;
              namespacesTable := namespacesTable t;
              variablesTable := variablesTable t;
              typeAliasesTable := typeAliasesTable t |}
  | ApiItemKind.TypeAlias =>
      Some {| abstractClassesTable := abstractClassesTable t;
              classesTable := classesTable t;
              enumerationsTable := enumerationsTable t;
              functionsTable := functionsTable t;
              interfacesTable := interfacesTable t;
              namespacesTable := namespacesTable t;
              variablesTable := variablesTable t;
              typeAliasesTable := typeAliasesTable t ++ [row] |}
  | ApiItemKind.Variable_ =>
      Some {| abstractClassesTable := abstractClassesTable t;
              classesTable := classesTable t;
              enumerationsTable := enumerationsTable t;
              functionsTable := functionsTable t;
              interfacesTable := interfacesTable t;
              namespacesTable := namespacesTable t;
              variablesTable := variablesTable t ++ [row];
              typeAliasesTable := typeAliasesTable t |}
  | _ => None
  end.

(** The tables of a package or namespace, in the order they are appended. *)
Definition appendContainerTables (output : DocSection) (t : ContainerTables) : DocSection :=
  let output := appendTable output "Classes" ["Class"; "Description"] (classesTable t) in
  let output :=
    appendTable output "Abstract Classes" ["Abstract Class"; "Description"]
                (abstractClassesTable t) in
  let output :=
    appendTable output "Enumerations" ["Enumeration"; "Description"] (enumerationsTable t) in
  let output := appendTable output "Functions" ["Function"; "Description"] (functionsTable t) in
  let output :=
    appendTable output "Interfaces" ["Interface"; "Description"] (interfacesTable t) in
  let output :=
    appendTable output "Namespaces" ["Namespace"; "Description"] (namespacesTable t) in
  let output := appendTable output "Variables" ["Variable"; "Description"] (variablesTable t) in
  appendTable output "Type Aliases" ["Type Alias"; "Description"] (typeAliasesTable t).

Definition entrypointLinkText (apiContainer entrypoint : ApiItem) : string :=
  displayName (item apiContainer)
  +:+ (if String.eqb (displayName (item entrypoint)) "" then ""
       else "/" +:+ displayName (item entrypoint)).

(** [GENERATE PAGE: PACKAGE or NAMESPACE] *)
Definition _writePackageOrNamespaceTables (writeApiItemPage : ApiItem -> M unit)
    (output : DocSection) (apiContainer : ApiItem) : M DocSection :=
  let isPackage := ApiItemKind.eqb (kind (item apiContainer)) ApiItemKind.Package in
  let! output :=
    if isPackage then
      let! entrypointsTable :=
        forEach (members apiContainer) ([] : list DocTableRow)
          (fun entrypointsTable entrypoint =>
             let path : DocTableCell :=
               [DocParagraph
                  [DocLinkTag (entrypointLinkText apiContainer entrypoint)
                              (_getLinkFilenameForApiItem entrypoint)]] in
             let! _ := writeApiItemPage entrypoint in
             ret (entrypointsTable ++ [[path]])) in
      ret (if (1 <? length entrypointsTable)%nat
           then appendNode (appendNode output (DocHeading "Entrypoints"))
                           (DocTable ["Path"] entrypointsTable)
           else output)
    else ret output in
  let apiMembers :=
    if isPackage then flat_map members (members apiContainer)
    else members apiContainer in
  let! tables :=
    forEach apiMembers emptyContainerTables
      (fun tables apiMember =>
         let row := [_createTitleCell apiMember; _createDescriptionCell apiMember false] in
         match addContainerRow tables (kind (item apiMember))
                               (isAbstract (item apiMember)) row with
         | Some tables =>
             let! _ := writeApiItemPage apiMember in
             ret tables
         | None => ret tables
         end) in
  ret (appendContainerTables output tables).

Definition incompleteWarningText : string :=
  "(Some inherited members may not be shown because they are not represented in the documentation.)".

(** [Boolean(this._documenterConfig?.configFile.showInheritedMembers)] *)
Definition showInheritedMembers : bool :=
  match _documenterConfig this with
  | Some config =>
      match configFile_showInheritedMembers config with
      | Some b => b
      | None => false
      end
  | None => false
  end.

Definition diagnosticLine (message : string) : string :=
  "Diagnostic message for findMembersWithInheritance: " +:+ message.

Definition _getMembersAndWriteIncompleteWarning (apiClassOrInterface : ApiItem)
    (output : DocSection) : M (list ApiItem * DocSection) :=
  if negb showInheritedMembers then ret (members apiClassOrInterface, output)
  else
    let result := findMembersWithInheritance env apiClassOrInterface in
    let output :=
      if maybeIncompleteResult result
      then appendNode output (DocParagraph [italicText incompleteWarningText])
      else output in
    let! _ :=
      forEach (messages result) tt
        (fun _ message => console_log (diagnosticLine message)) in
    ret (items result, output).

(** [apiMember.parent !== apiClass] *)
Definition isInheritedFrom (apiMember apiClass : ApiItem) : bool :=
  negb (bool_decide (parent apiMember = Some apiClass)).

Record MemberTables := {
  eventsTable : list DocTableRow;
  constructorsTable : list DocTableRow;
  propertiesTable : list DocTableRow;
  methodsTable : list DocTableRow;
}.

Definition emptyMemberTables : MemberTables :=
  {| eventsTable := []; constructorsTable := []; propertiesTable := [];
     methodsTable := [] |}.

Definition propertyRow (apiMember : ApiItem) (isInherited : bool) : DocTableRow :=
  [_createTitleCell apiMember; _createModifiersCell apiMember;
   _createPropertyTypeCell apiMember; _createDescriptionCell apiMember isInherited].

(** The switch over the member kind in [_writeClassTables]. *)
Definition addClassRow (t : MemberTables) (apiMember : ApiItem) (isInherited : bool)
    : option MemberTables :=
  match kind (item apiMember) with
  | ApiItemKind.Constructor =>
      Some {| eventsTable := eventsTable t;
              constructorsTable :=
                constructorsTable t
                ++ [[_createTitleCell apiMember; _createModifiersCell apiMember;
                     _createDescriptionCell apiMember isInherited]];
              propertiesTable := propertiesTable t;
              methodsTable := methodsTable t |}
  | ApiItemKind.Method =>
      Some {| eventsTable := eventsTable t;
              constructorsTable := constructorsTable t;
              propertiesTable := propertiesTable t;
              methodsTable :=
                methodsTable t
                ++ [[_createTitleCell apiMember; _createModifiersCell apiMember;
                     _createDescriptionCell apiMember isInherited]] |}
  | ApiItemKind.Property =>
      Some (if isEventProperty (item apiMember)
            then {| eventsTable := eventsTable t ++ [propertyRow apiMember isInherited];
                    constructorsTable := constructorsTable t;
                    propertiesTable := propertiesTable t;
                    methodsTable := methodsTable t |}
            else {| eventsTable := eventsTable t;
                    constructorsTable := constructorsTable t;
                    propertiesTable := propertiesTable t ++ [propertyRow apiMember isInherited];
                    methodsTable := methodsTable t |})
  | _ => None
  end.

(** The switch over the member kind in [_writeInterfaceTables]. *)
Definition addInterfaceRow (t : MemberTables) (apiMember : ApiItem) (isInherited : bool)
    : option MemberTables :=
  match kind (item apiMember) with
  | ApiItemKind.ConstructSignature | ApiItemKind.MethodSignature =>
      Some {| eventsTable := eventsTable t;
              constructorsTable := constructorsTable t;
              propertiesTable := propertiesTable t;
              methodsTable :=
                methodsTable t
                ++ [[_createTitleCell apiMember;
                     _createDescriptionCell apiMember isInherited]] |}
  | ApiItemKind.PropertySignature =>
      Some (if isEventProperty (item apiMember)
            then {| eventsTable := eventsTable t ++ [propertyRow apiMember isInherited];
                    constructorsTable := constructorsTable t;
                    propertiesTable := propertiesTable t;
                    methodsTable := methodsTable t |}
            else {| eventsTable := eventsTable t;
                    constructorsTable := constructorsTable t;
                    propertiesTable := propertiesTable t ++ [propertyRow apiMember isInherited];
                    methodsTable := methodsTable t |})
  | _ => None
  end.

Definition propertyHeaderTitles : list string :=
  ["Property"; "Modifiers"; "Type"; "Description"].

Definition appendClassTables (output : DocSection) (t : MemberTables) : DocSection :=
  let output := appendTable output "Events" propertyHeaderTitles (eventsTable t) in
  let output :=
    appendTable output "Constructors" ["Constructor"; "Modifiers"; "Description"]
                (constructorsTable t) in
  let output := appendTable output "Properties" propertyHeaderTitles (propertiesTable t) in
  appendTable output "Methods" ["Method"; "Modifiers"; "Description"] (methodsTable t).

Definition appendInterfaceTables (output : DocSection) (t : MemberTables) : DocSection :=
  let output := appendTable output "Events" propertyHeaderTitles (eventsTable t) in
  let output := appendTable output "Properties" propertyHeaderTitles (propertiesTable t) in
  appendTable output "Methods" ["Method"; "Description"] (methodsTable t).

(** The loop over the members that [_writeClassTables] and
    [_writeInterfaceTables] share but for their switch. *)
Definition collectMemberRows (writeApiItemPage : ApiItem -> M unit)
    (addRow : MemberTables -> ApiItem -> bool -> option MemberTables)
    (owner : ApiItem) (apiMembers : list ApiItem) : M MemberTables :=
  forEach apiMembers emptyMemberTables
    (fun tables apiMember =>
       let isInherited := isInheritedFrom apiMember owner in
       match addRow tables apiMember isInherited with
       | Some tables =>
           let! _ := writeApiItemPage apiMember in
           ret tables
       | None => ret tables
       end).

(** [GENERATE PAGE: CLASS] *)
Definition _writeClassTables (writeApiItemPage : ApiItem -> M unit)
    (output : DocSection) (apiClass : ApiItem) : M DocSection :=
  let! found := _getMembersAndWriteIncompleteWarning apiClass output in
  let '(apiMembers, output) := found in
  let! tables := collectMemberRows writeApiItemPage addClassRow apiClass apiMembers in
  ret (appendClassTables output tables).

(** [GENERATE PAGE: INTERFACE] *)
Definition _writeInterfaceTables (writeApiItemPage : ApiItem -> M unit)
    (output : DocSection) (apiInterface : ApiItem) : M DocSection :=
  let! found := _getMembersAndWriteIncompleteWarning apiInterface output in
  let '(apiMembers, output) := found in
  let! tables := collectMemberRows writeApiItemPage addInterfaceRow apiInterface apiMembers in
  ret (appendInterfaceTables output tables).

(** [GENERATE PAGE: ENUM] *)
Definition _writeEnumTables (output : DocSection) (apiEnum : ApiItem) : DocSection :=
  let enumMembersTable : list DocTableRow :=
    fold_left
      (fun enumMembersTable apiEnumMember =>
         enumMembersTable
         ++ [[[DocParagraph [DocPlainText (getConciseSignature env apiEnumMember)]];
              _createInitializerCell apiEnumMember;
              _createDescriptionCell apiEnumMember false]])
      (members apiEnum) [] in
  appendTable output "Enumeration Members" ["Member"; "Value"; "Description"]
              enumMembersTable.

(** [GENERATE PAGE: FUNCTION-LIKE] *)
Definition _writeParameterTables (output : DocSection) (apiParameterListMixin : ApiItem)
    : DocSection :=
  let d := item apiParameterListMixin in
  let parametersTable : list DocTableRow :=
    fold_left
      (fun parametersTable apiParameter =>
         let parameterDescription : DocSection := [] in
         let parameterDescription :=
           if parameterIsOptional apiParameter
           then appendNodesInParagraph parameterDescription
                  [italicText "(Optional)"; DocPlainText " "]
           else parameterDescription in
         let parameterDescription :=
           match tsdocParamBlock apiParameter with
           | Some block => _appendAndMergeSection parameterDescription (blockContent block)
           | None => parameterDescription
           end in
         parametersTable
         ++ [[[DocParagraph [DocPlainText (parameterName apiParameter)]];
              [_createParagraphForTypeExcerpt (parameterTypeExcerpt apiParameter)];
              parameterDescription]])
      (parameters d) [] in
  let output :=
    appendTable output "Parameters" ["Parameter"; "Type"; "Description"] parametersTable in
  if ApiReturnTypeMixin_isBaseClassOf (kind d) then
    let output := appendNode output (DocParagraph []) in
    let output := appendNode output (DocParagraph [boldText "Returns:"]) in
    let output := appendNode output (_createParagraphForTypeExcerpt (returnTypeExcerpt d)) in
    match documentedComment apiParameterListMixin with
    | Some tsdocComment =>
        match returnsBlock tsdocComment with
        | Some block => _appendSection output (blockContent block)
        | None => output
        end
    | None => output
    end
  else output.

(** *** The page of an item *)

Definition alphaWarning : string :=
  "This API is provided as an alpha preview for developers and may change"
  +:+ " based on feedback that we receive.  Do not use this API in a production environment.".

Definition betaWarning : string :=
  "This API is provided as a beta preview for developers and may change"
  +:+ " based on feedback that we receive.  Do not use this API in a production environment.".

Definition _writeAlphaWarning (output : DocSection) : DocSection :=
  appendNode output (DocNoteBox [DocParagraph [DocPlainText alphaWarning]]).

Definition _writeBetaWarning (output : DocSection) : DocSection :=
  appendNode output (DocNoteBox [DocParagraph [DocPlainText betaWarning]]).

(** The first switch of [_writeApiItemPage]: the title of the page.
    [None] is the early return for the root entry point. *)
Definition pageFrontMatter (apiItem : ApiItem) : M (option FrontMatter) :=
  let scopedName := getScopedNameWithinPackage env apiItem in
  let titled (t : string) : M (option FrontMatter) :=
    ret (Some {| title := t; menuMainWeight := None |}) in
  match kind (item apiItem) with
  | ApiItemKind.Class => titled (scopedName +:+ " class")
  | ApiItemKind.EntryPoint =>
      if String.eqb (displayName (item apiItem)) "" then ret None
      else
        match parent apiItem with
        | Some apiPackage =>
            let unscopedPackageName :=
              getUnscopedName env (displayName (item apiPackage)) in
            titled (unscopedPackageName +:+ "/" +:+ displayName (item apiItem)
                    +:+ " entrypoint")
        | None => throw TypeError
        end
  | ApiItemKind.Enum => titled (scopedName +:+ " enum")
  | ApiItemKind.Interface => titled (scopedName +:+ " interface")
  | ApiItemKind.Constructor | ApiItemKind.ConstructSignature => titled scopedName
  | ApiItemKind.Method | ApiItemKind.MethodSignature => titled (scopedName +:+ " method")
  | ApiItemKind.Function => titled (scopedName +:+ " function")
  | ApiItemKind.Model =>
      ret (Some {| title := "API Reference"; menuMainWeight := Some 20%Z |})
  | ApiItemKind.Namespace => titled (scopedName +:+ " namespace")
  | ApiItemKind.Package =>
      let! _ := console_log ("Writing " +:+ displayName (item apiItem) +:+ " package") in
      let unscopedPackageName := getUnscopedName env (displayName (item apiItem)) in
      titled (unscopedPackageName +:+ " package")
  | ApiItemKind.Property | ApiItemKind.PropertySignature =>
      titled (scopedName +:+ " property")
  | ApiItemKind.TypeAlias => titled (scopedName +:+ " type")
  | ApiItemKind.Variable_ => titled (scopedName +:+ " variable")
  | k => throw (UnsupportedApiItemKind (ApiItemKind.toString k))
  end.

(** What the page starts with, up to the decorators: the release
    warning, the deprecation box and the summary, the signature and the
    heritage types, the decorator blocks. *)
Definition pageIntroduction (apiItem : ApiItem) : DocSection :=
  let d := item apiItem in
  let output : DocSection := [] in
  let output :=
    if ApiReleaseTagMixin_isBaseClassOf (kind d) then
      match releaseTag d with
      | ReleaseTag.Alpha => _writeAlphaWarning output
      | ReleaseTag.Beta => _writeBetaWarning output
      | _ => output
      end
    else output in
  let decoratorBlocks :=
    match documentedComment apiItem with
    | Some tsdocComment => blocksTagged StandardTags.decorator tsdocComment
    | None => []
    end in
  let output :=
    match documentedComment apiItem with
    | Some tsdocComment =>
        let output :=
          match deprecatedBlock tsdocComment with
          | Some block =>
              appendNode output
                (DocNoteBox
                   (DocParagraph [DocPlainText "Warning: This API is now obsolete. "]
                    :: blockContent block))
          | None => output
          end in
        _appendSection output (summarySection tsdocComment)
    | None => output
    end in
  let output :=
    if isApiDeclaredItem (kind d) then
      let output :=
        if (0 <? String.length (excerptText (excerptTokens d)))%nat
        then appendNode
               (appendNode output (DocParagraph [boldText "Signature:"]))
               (DocFencedCode (getExcerptWithModifiers env apiItem) "typescript")
        else output in
      _writeHeritageTypes output apiItem
    else output in
  if (0 <? length decoratorBlocks)%nat
  then fold_left (fun output decoratorBlock => appendNodes output (blockContent decoratorBlock))
                 decoratorBlocks
                 (appendNode output (DocParagraph [boldText "Decorators:"]))
  else output.

(** The kinds whose remarks and examples are written before the tables:
    the first of the two switches that follow the decorators. *)
Definition remarksBeforeTables (k : ApiItemKind.t) : bool :=
  match k with
  | ApiItemKind.Class | ApiItemKind.Interface | ApiItemKind.Namespace
  | ApiItemKind.Package => true
  | _ => false
  end.

Definition entryPointText : string :=
  "TODO: Please reference the root entrypoint which contains links to elements from all entrypoints".

(** The second switch: the content that depends on the kind. *)
Definition writeKindSpecific (writeApiItemPage : ApiItem -> M unit)
    (output : DocSection) (apiItem : ApiItem) : M DocSection :=
  match kind (item apiItem) with
  | ApiItemKind.Class => _writeClassTables writeApiItemPage output apiItem
  | ApiItemKind.Enum => ret (_writeEnumTables output apiItem)
  | ApiItemKind.Interface => _writeInterfaceTables writeApiItemPage output apiItem
  | ApiItemKind.Constructor | ApiItemKind.ConstructSignature | ApiItemKind.Method
  | ApiItemKind.MethodSignature | ApiItemKind.Function =>
      ret (_writeThrowsSection (_writeParameterTables output apiItem) apiItem)
  | ApiItemKind.Namespace => _writePackageOrNamespaceTables writeApiItemPage output apiItem
  | ApiItemKind.Model => _writeModelTable writeApiItemPage output apiItem
  | ApiItemKind.EntryPoint =>
      ret (appendNodeInParagraph output (DocPlainText entryPointText))
  | ApiItemKind.Package => _writePackageOrNamespaceTables writeApiItemPage output apiItem
  | ApiItemKind.Property | ApiItemKind.PropertySignature => ret output
  | ApiItemKind.TypeAlias => ret output
  | ApiItemKind.Variable_ => ret output
  | k => throw (UnsupportedApiItemKind (ApiItemKind.toString k))
  end.

(** [_writeApiItemPage] up to the point where the page is emitted: the
    front matter and the body, or [None] when the page is skipped. *)
Definition buildPage (writeApiItemPage : ApiItem -> M unit) (apiItem : ApiItem)
    : M (option (FrontMatter * DocSection)) :=
  let! frontMatter := pageFrontMatter apiItem in
  match frontMatter with
  | None => ret None
  | Some frontMatter =>
      let output := pageIntroduction apiItem in
      let appendRemarks := negb (remarksBeforeTables (kind (item apiItem))) in
      let output :=
        if remarksBeforeTables (kind (item apiItem))
        then _writeRemarksSection output apiItem
        else output in
      let! output := writeKindSpecific writeApiItemPage output apiItem in
      let output :=
        if appendRemarks then _writeRemarksSection output apiItem else output in
      ret (Some (frontMatter, output))
  end.

(** The rest of [_writeApiItemPage]: emit the page, let the plugin
    change it, write the file. *)
Definition writePage (apiItem : ApiItem) (frontMatter : FrontMatter)
    (output : DocSection) : M unit :=
  let filename := path_join env (_outputFolder this) (_getFilenameForApiItem apiItem) in
  let pageContent := emitWithFrontMatter env output frontMatter apiItem in
  let pageContent :=
    match markdownDocumenterFeature with
    | Some feature => onBeforeWritePage feature apiItem filename pageContent
    | None => pageContent
    end in
  FileSystem_writeFile
    {| filename := filename;
       pageContent := pageContent;
       convertLineEndings :=
         match _documenterConfig this with
         | Some config => newlineKind config
         | None => NewlineKind.CrLf
         end;
       writtenItem := apiItem;
       writtenFrontMatter := frontMatter;
       writtenBody := output |}.

(** [fuel] bounds the depth of the pages written from within the tables
    of a page. *)
Fixpoint _writeApiItemPage (fuel : nat) (apiItem : ApiItem) {struct fuel} : M unit :=
  match fuel with
  | O => throw OutOfFuel
  | S fuel' =>
      let! page := buildPage (_writeApiItemPage fuel') apiItem in
      match page with
      | None => ret tt
      | Some (frontMatter, output) => writePage apiItem frontMatter output
      end
  end.

Definition _deleteOldOutputFiles : M unit :=
  let! _ := console_log ("Deleting old output from " +:+ _outputFolder this) in
  FileSystem_ensureEmptyFolder.

Definition generateFiles (fuel : nat) : M unit :=
  let! _ := console_log "" in
  let! _ := _deleteOldOutputFiles in
  _writeApiItemPage fuel [].

End Documenter.

(* ================================================================= *)
(** ** Example models *)

Module Examples.

Definition plainItem (k : ApiItemKind.t) (name : string) : ApiItemData := {|
  kind := k; displayName := name; overloadIndex := 1;
  releaseTag := ReleaseTag.Public; tsdocComment := None; excerptTokens := [];
  extendsType := None; implementsTypes := []; extendsTypes := [];
  isOptional := false; isStatic := false; isProtected := false;
  isReadonly := false; isAbstract := false; isEventProperty := false;
  parameters := []; returnTypeExcerpt := []; propertyTypeExcerpt := [];
  initializerExcerpt := None |}.

(** An item with a declaration excerpt, an overload index and a comment. *)
Definition declaredItem (k : ApiItemKind.t) (name : string) (index : Z)
    (tokens : list ExcerptToken) (comment : option DocComment) : ApiItemData := {|
  kind := k; displayName := name; overloadIndex := index;
  releaseTag := ReleaseTag.Public; tsdocComment := comment; excerptTokens := tokens;
  extendsType := None; implementsTypes := []; extendsTypes := [];
  isOptional := false; isStatic := false; isProtected := false;
  isReadonly := false; isAbstract := false; isEventProperty := false;
  parameters := []; returnTypeExcerpt := []; propertyTypeExcerpt := [];
  initializerExcerpt := None |}.

Definition content (s : string) : ExcerptToken :=
  {| tokenKind := ExcerptTokenKind.Content; text := s; canonicalReference := None |}.

Definition reference (s : string) (target : DeclarationReference) : ExcerptToken :=
  {| tokenKind := ExcerptTokenKind.Reference; text := s;
     canonicalReference := Some target |}.

(** The environment of the examples: the two helpers as modelled above,
    a resolver given by a table, and plain stand-ins for the rest. *)
Definition environment (model : ApiTree)
    (resolver : list (DeclarationReference * ApiItem))
    (inherited : ApiItem -> IFindApiItemsResult) : Environment := {|
  getSafeFilenameForName := safeFilenameForName;
  getUnscopedName := unscopedName;
  getConciseSignature := fun a => displayName (treeItem (subtree model a));
  getScopedNameWithinPackage := fun a => displayName (treeItem (subtree model a));
  getExcerptWithModifiers := fun a => excerptText (excerptTokens (treeItem (subtree model a)));
  resolveDeclarationReference :=
    fun r => snd <$> List.find (fun entry => String.eqb (fst entry) r) resolver;
  findMembersWithInheritance := inherited;
  emitWithFrontMatter := fun _ frontMatter _ => title frontMatter;
  path_join := fun folder file => folder +:+ "/" +:+ file |}.

Definition noInheritance : ApiItem -> IFindApiItemsResult :=
  fun _ => {| items := []; messages := []; maybeIncompleteResult := false |}.

Definition documenter (model : ApiTree) (config : option DocumenterConfig)
    : HugoDocumenter :=
  {| _apiModel := model; _documenterConfig := config; _outputFolder := "out" |}.

Definition emptyWorld : World := {| console := []; files := [] |}.

(** Package [@scope/widgets] with its root entry point and a class
    [Widget] with two constructors, whose display name is [ctor]. *)
Definition widgetsModel (ctor : string) : ApiTree :=
  ApiNode (plainItem ApiItemKind.Model "")
    [ApiNode (plainItem ApiItemKind.Package "@scope/widgets")
       [ApiNode (plainItem ApiItemKind.EntryPoint "")
          [ApiNode (declaredItem ApiItemKind.Class "Widget" 1
                      [content "export declare class Widget"] None)
             [ApiNode (declaredItem ApiItemKind.Constructor ctor 1
                         [content "constructor();"] None) [];
              ApiNode (declaredItem ApiItemKind.Constructor ctor 2
                         [content "constructor(size: number);"] None) []]]]].

Definition theWidget : ApiItem := [0; 0; 0]%nat.
Definition firstConstructor : ApiItem := [0; 0; 0; 0]%nat.
Definition secondConstructor : ApiItem := [0; 0; 0; 1]%nat.

End Examples.

(* ================================================================= *)
(** ** Definitions used to state the results *)

(** The base name that the loop of [_getFilenameForApiItem] has built when
    it reaches the item itself. *)
Definition baseNameOfParents (env : Environment) (this : HugoDocumenter)
    (apiItem : ApiItem) : string :=
  fold_left (hierarchyStep env this apiItem) (ancestors apiItem) "".

(** The kinds for which the loop appends [/qualifiedName]: the default
    branch of its switch. *)
Definition appendsQualifiedName (k : ApiItemKind.t) : bool :=
  match k with
  | ApiItemKind.Model | ApiItemKind.EnumMember | ApiItemKind.EntryPoint
  | ApiItemKind.Package => false
  | _ => true
  end.

Module MoreExamples.
Import Examples.

(** Package [@scope/widgets] with its root entry point and a second
    entry point [sub]. *)
Definition entryPointsModel : ApiTree :=
  ApiNode (plainItem ApiItemKind.Model "")
    [ApiNode (plainItem ApiItemKind.Package "@scope/widgets")
       [ApiNode (plainItem ApiItemKind.EntryPoint "") [];
        ApiNode (plainItem ApiItemKind.EntryPoint "sub") []]].

Definition subEntryPoint : ApiItem := [0; 1]%nat.
End MoreExamples.

Module MergedDeclarations.
Import Examples.

(** A package that exports an interface [Foo] and a function [Foo]: a
    type and a value of the same name, two items of the model. *)
Definition model : ApiTree :=
  ApiNode (plainItem ApiItemKind.Model "")
    [ApiNode (plainItem ApiItemKind.Package "@scope/widgets")
       [ApiNode (plainItem ApiItemKind.EntryPoint "")
          [ApiNode (declaredItem ApiItemKind.Interface "Foo" 1
                      [content "export interface Foo"] None) [];
           ApiNode (declaredItem ApiItemKind.Function "Foo" 1
                      [content "export declare function Foo(): void;"] None) []]]].

Definition fooInterface : ApiItem := [0; 0; 0]%nat.
Definition fooFunction : ApiItem := [0; 0; 1]%nat.

Definition env : Environment := environment model [] noInheritance.
Definition this : HugoDocumenter := documenter model None.

(** The items whose page a run of [generateFiles] writes. *)
Definition pagesWritten : list ApiItem :=
  map writtenItem (files (snd (generateFiles env this 6 emptyWorld))).
End MergedDeclarations.

Fixpoint allNewlineChars (s : string) : bool :=
  match s with
  | EmptyString => true
  | String c rest => isNewlineChar c && allNewlineChars rest
  end.

Definition startsWithNewlineChar (s : string) : bool :=
  match s with
  | EmptyString => false
  | String c _ => isNewlineChar c
  end.

Module UnresolvedReference.
Import Examples.

(** A class whose base type [External] is not part of the model. *)
Definition model : ApiTree :=
  ApiNode (plainItem ApiItemKind.Model "")
    [ApiNode (plainItem ApiItemKind.Package "widgets")
       [ApiNode (plainItem ApiItemKind.EntryPoint "")
          [ApiNode (plainItem ApiItemKind.Class "Widget") []]]].

Definition env : Environment :=
  environment model [("widgets!Widget:class", [0; 0; 0]%nat)] noInheritance.
Definition this : HugoDocumenter := documenter model None.

Definition externalToken : ExcerptToken :=
  reference ("other." +:+ String "010" "External") "other!External:class".
Definition widgetToken : ExcerptToken := reference "Widget" "widgets!Widget:class".
End UnresolvedReference.

(** *** The references of a type alias, as the spec words them *)

(** The tokens of a list whose text has not occurred before, in order:
    each text is kept at its first occurrence. *)
Fixpoint firstOccurrences (seen : gset string) (tokens : list ExcerptToken)
    : list ExcerptToken :=
  match tokens with
  | [] => []
  | token :: rest =>
      if bool_decide (text token ∈ seen) then firstOccurrences seen rest
      else token :: firstOccurrences (seen ∪ {[ text token ]}) rest
  end.

(** The references a type alias page lists: the reference tokens of the
    excerpt that resolve, without repetition. *)
Definition listedReferences (env : Environment) (tokens : list ExcerptToken)
    : list ExcerptToken :=
  firstOccurrences ∅ (List.filter (isResolvedReference env) tokens).

(** Nodes separated by [", "]. *)
Fixpoint commaSeparated (nodes : list DocNode) : list DocNode :=
  match nodes with
  | [] => []
  | [node] => [node]
  | node :: rest => node :: DocPlainText ", " :: commaSeparated rest
  end.

(** The link to the item a reference token resolves to, labelled with the
    text of the token. *)
Definition referenceLink (env : Environment) (this : HugoDocumenter)
    (token : ExcerptToken) : DocNode :=
  DocLinkTag (unwrapText (text token))
    (match canonicalReference token ≫= resolveDeclarationReference env with
     | Some resolvedApiItem => _getLinkFilenameForApiItem env this resolvedApiItem
     | None => ""
     end).

Module References.
Import Examples.

(** [export type Pair = [Widget, Gadget, Widget, External]], where
    [External] is not part of the model. *)
Definition pairTokens : list ExcerptToken :=
  [content "export type Pair = ["; reference "Widget" "widgets!Widget:class";
   content ", "; reference "Gadget" "widgets!Gadget:class";
   content ", "; reference "Widget" "widgets!Widget:class";
   content ", "; reference "External" "other!External:class"; content "]"].

Definition model : ApiTree :=
  ApiNode (plainItem ApiItemKind.Model "")
    [ApiNode (plainItem ApiItemKind.Package "widgets")
       [ApiNode (plainItem ApiItemKind.EntryPoint "")
          [ApiNode (plainItem ApiItemKind.Class "Widget") [];
           ApiNode (plainItem ApiItemKind.Class "Gadget") [];
           ApiNode (declaredItem ApiItemKind.TypeAlias "Pair" 1 pairTokens None) []]]].

Definition pair : ApiItem := [0; 0; 2]%nat.

Definition env : Environment :=
  environment model
    [("widgets!Widget:class", [0; 0; 0]%nat); ("widgets!Gadget:class", [0; 0; 1]%nat)]
    noInheritance.
Definition this : HugoDocumenter := documenter model None.
End References.

(* ================================================================= *)
(** ** [CustomDocNodes.configuration] *)

Module CustomDocNodeKind.
Definition EmphasisSpan : string := "EmphasisSpan".
Definition Heading : string := "Heading".
Definition NoteBox : string := "NoteBox".
Definition Table : string := "Table".
Definition TableCell : string := "TableCell".
Definition TableRow : string := "TableRow".
End CustomDocNodeKind.

Module CustomDocNodes.

Inductive ConfigurationError :=
| AlreadyRegistered (docNodeKind : string)
| NotRegistered (docNodeKind : string).

(** Modelled from the spec: the [DocNodeManager] of a [TSDocConfiguration]
    belongs to [@microsoft/tsdoc].  Section 4.1 of the spec gives its
    contract: a kind is registered once and a second registration under
    the same tag fails; the allowable children of a kind are a set that
    repeated declarations add to. *)
Record TSDocConfiguration := {
  registeredKinds : gset string;
  allowableChildren : gmap string (gset string);
}.

Definition registerDocNode (docNodeKind : string) (c : TSDocConfiguration)
    : ConfigurationError + TSDocConfiguration :=
  if bool_decide (docNodeKind ∈ registeredKinds c) then inl (AlreadyRegistered docNodeKind)
  else inr {| registeredKinds := registeredKinds c ∪ {[ docNodeKind ]};
              allowableChildren := allowableChildren c |}.

Fixpoint registerDocNodes (docNodeKinds : list string) (c : TSDocConfiguration)
    : ConfigurationError + TSDocConfiguration :=
  match docNodeKinds with
  | [] => inr c
  | k :: rest =>
      match registerDocNode k c with
      | inl e => inl e
      | inr c' => registerDocNodes rest c'
      end
  end.

Definition registerAllowableChildren (parentKind : string) (childKinds : list string)
    (c : TSDocConfiguration) : ConfigurationError + TSDocConfiguration :=
  match List.find (fun k => negb (bool_decide (k ∈ registeredKinds c)))
                  (parentKind :: childKinds) with
  | Some k => inl (NotRegistered k)
  | None =>
      inr {| registeredKinds := registeredKinds c;
             allowableChildren :=
               <[ parentKind :=
                    default ∅ (allowableChildren c !! parentKind)
                    ∪ list_to_set childKinds ]> (allowableChildren c) |}
  end.

Definition isAllowedChild (c : TSDocConfiguration) (parentKind childKind : string) : bool :=
  bool_decide (childKind ∈ default ∅ (allowableChildren c !! parentKind)).

(** Modelled from the spec: [new TSDocConfiguration()] has the general
    kinds of the document substrate registered, among them section,
    paragraph, plain text, soft break, link, code span and fenced code,
    with the children the substrate allows for a section and a
    paragraph. *)
Definition newTSDocConfiguration : TSDocConfiguration :=
  {| registeredKinds :=
       list_to_set
         ["Block"; "BlockTag"; "CodeSpan"; "Comment"; "ErrorText"; "EscapedText";
          "FencedCode"; "HtmlEndTag"; "HtmlStartTag"; "InlineTag"; "LinkTag";
          "Paragraph"; "PlainText"; "Section"; "SoftBreak"];
     allowableChildren :=
       {[ "Section" := list_to_set ["FencedCode"; "Paragraph"; "HtmlStartTag"; "HtmlEndTag"];
          "Paragraph" :=
            list_to_set
              ["BlockTag"; "CodeSpan"; "ErrorText"; "EscapedText"; "HtmlStartTag";
               "HtmlEndTag"; "InlineTag"; "LinkTag"; "PlainText"; "SoftBreak"] ]} |}.

(** A call the getter makes on the node manager of a configuration
    object. *)
Inductive Call :=
| RegisterDocNodes (configuration : nat) (packageName : string) (docNodeKinds : list string)
| RegisterAllowableChildren (configuration : nat) (parentKind : string)
    (childKinds : list string).

(** The process: the configuration objects created so far (an object is
    referred to by its position), the static field
    [CustomDocNodes._configuration], and the calls made. *)
Record Process := {
  objects : list TSDocConfiguration;
  _configuration : option nat;
  calls : list Call;
}.

Definition initialProcess : Process :=
  {| objects := []; _configuration := None; calls := [] |}.

Definition customKinds : list string :=
  [CustomDocNodeKind.EmphasisSpan; CustomDocNodeKind.Heading; CustomDocNodeKind.NoteBox;
   CustomDocNodeKind.Table; CustomDocNodeKind.TableCell; CustomDocNodeKind.TableRow].

(** The calls of one initialisation, on the object [configuration]. *)
Definition initialisationCalls (configuration : nat) : list Call :=
  [RegisterDocNodes configuration "@micrososft/api-documenter" customKinds;
   RegisterAllowableChildren configuration CustomDocNodeKind.EmphasisSpan
     ["PlainText"; "SoftBreak"];
   RegisterAllowableChildren configuration "Section"
     [CustomDocNodeKind.Heading; CustomDocNodeKind.NoteBox; CustomDocNodeKind.Table];
   RegisterAllowableChildren configuration "Paragraph" [CustomDocNodeKind.EmphasisSpan]].

(** [static get configuration()] *)
Definition configuration (p : Process) : (ConfigurationError + nat) * Process :=
  match _configuration p with
  | Some existing => (inr existing, p)
  | None =>
      let configuration := length (objects p) in
      let failed (c : TSDocConfiguration) (e : ConfigurationError) (made : list Call) :=
        (inl e, {| objects := objects p ++ [c]; _configuration := None;
                   calls := made |}) in
      let c0 := newTSDocConfiguration in
      match registerDocNodes customKinds c0 with
      | inl e =>
          failed c0 e
            (calls p ++ [RegisterDocNodes configuration "@micrososft/api-documenter"
                                          customKinds])
      | inr c1 =>
          match registerAllowableChildren CustomDocNodeKind.EmphasisSpan
                  ["PlainText"; "SoftBreak"] c1 with
          | inl e => failed c1 e (calls p ++ firstn 2 (initialisationCalls configuration))
          | inr c2 =>
              match registerAllowableChildren "Section"
                      [CustomDocNodeKind.Heading; CustomDocNodeKind.NoteBox;
                       CustomDocNodeKind.Table] c2 with
              | inl e => failed c2 e (calls p ++ firstn 3 (initialisationCalls configuration))
              | inr c3 =>
                  match registerAllowableChildren "Paragraph"
                          [CustomDocNodeKind.EmphasisSpan] c3 with
                  | inl e => failed c3 e (calls p ++ initialisationCalls configuration)
                  | inr c4 =>
                      (inr configuration,
                       {| objects := objects p ++ [c4];
                          _configuration := Some configuration;
                          calls := calls p ++ initialisationCalls configuration |})
                  end
              end
          end
      end
  end.

(** [n] accesses in a row: the results, in order, and the process after
    them. *)
Fixpoint accesses (n : nat) (p : Process) : list (ConfigurationError + nat) * Process :=
  match n with
  | O => ([], p)
  | S n' =>
      let '(result, p') := configuration p in
      let '(results, p'') := accesses n' p' in
      (result :: results, p'')
  end.

(** The configuration after the four registrations of the getter. *)
Definition customConfiguration : TSDocConfiguration :=
  {| registeredKinds := registeredKinds newTSDocConfiguration ∪ list_to_set customKinds;
     allowableChildren :=
       <[ "Paragraph" :=
            default ∅ (allowableChildren newTSDocConfiguration !! "Paragraph")
            ∪ {[ CustomDocNodeKind.EmphasisSpan ]} ]>
       (<[ "Section" :=
             default ∅ (allowableChildren newTSDocConfiguration !! "Section")
             ∪ list_to_set [CustomDocNodeKind.Heading; CustomDocNodeKind.NoteBox;
                            CustomDocNodeKind.Table] ]>
        (<[ CustomDocNodeKind.EmphasisSpan := list_to_set ["PlainText"; "SoftBreak"] ]>
         (allowableChildren newTSDocConfiguration))) |}.

Definition countRegisterDocNodes (made : list Call) : nat :=
  length (List.filter (fun call => match call with
                                   | RegisterDocNodes _ _ _ => true
                                   | _ => false
                                   end) made).

End CustomDocNodes.

(* ================================================================= *)
(** ** The command line action and what holds of every file written *)

(** [HugoAction.onExecute], once [buildApiModel] has given the model and
    the output folder. *)
Definition HugoAction_onExecute (env : Environment) (apiModel : ApiTree)
    (outputFolder : string) (fuel : nat) : M unit :=
  let markdownDocumenter : HugoDocumenter :=
    {| _apiModel := apiModel; _documenterConfig := None;
       _outputFolder := outputFolder |} in
  generateFiles env markdownDocumenter fuel.

(** A computation keeps a property of the world. *)
Definition preserves {A : Type} (P : World -> Prop) (m : M A) : Prop :=
  forall w, P w -> P (snd (m w)).

Definition writtenWithCrLf (w : World) : Prop :=
  Forall (fun file => convertLineEndings file = NewlineKind.CrLf) (files w).

(* ================================================================= *)
(** ** Definitions used to state the results on page bodies *)

(** The result of a writer started on the empty section, seen from a
    section [output] it is to extend. *)
Definition extending (output : DocSection) (r : (Error + DocSection) * World)
    : (Error + DocSection) * World :=
  match r with
  | (inl e, w) => (inl e, w)
  | (inr added, w) => (inr (output ++ added), w)
  end.

(** The kinds the claim on the place of the remarks calls container-like. *)
Definition isContainerLike (k : ApiItemKind.t) : bool :=
  match k with
  | ApiItemKind.Class | ApiItemKind.Interface | ApiItemKind.Namespace
  | ApiItemKind.Package | ApiItemKind.Model => true
  | _ => false
  end.

(** The advisory paragraph of an incomplete inheritance result. *)
Definition incompleteWarning : DocNode := DocParagraph [italicText incompleteWarningText].

Module RemarksOrder.
Import Examples.

Definition remarks (s : string) : DocComment :=
  {| summarySection := [DocParagraph [DocPlainText "Summary."]];
     remarksBlock :=
       Some {| tagNameWithUpperCase := "@REMARKS";
               blockContent := [DocParagraph [DocPlainText s]] |};
     deprecatedBlock := None; returnsBlock := None; customBlocks := [] |}.

(** A class with remarks and one method that has remarks of its own. *)
Definition model : ApiTree :=
  ApiNode (plainItem ApiItemKind.Model "")
    [ApiNode (plainItem ApiItemKind.Package "widgets")
       [ApiNode (plainItem ApiItemKind.EntryPoint "")
          [ApiNode (declaredItem ApiItemKind.Class "Widget" 1
                      [content "export declare class Widget"]
                      (Some (remarks "About widgets.")))
             [ApiNode (declaredItem ApiItemKind.Method "render" 1
                         [content "render(): void;"]
                         (Some (remarks "About rendering."))) []]]]].

Definition widget : ApiItem := [0; 0; 0]%nat.
Definition render : ApiItem := [0; 0; 0; 0]%nat.

Definition env : Environment := environment model [] noInheritance.
Definition this : HugoDocumenter := documenter model None.

(** A page writer for the members that writes nothing. *)
Definition noPages : ApiItem -> M unit := fun _ => ret tt.
End RemarksOrder.

Module InheritedMembers.
Import Examples.

(** A class [Widget] that extends a class of another library. *)
Definition model : ApiTree :=
  ApiNode (plainItem ApiItemKind.Model "")
    [ApiNode (plainItem ApiItemKind.Package "widgets")
       [ApiNode (plainItem ApiItemKind.EntryPoint "")
          [ApiNode (declaredItem ApiItemKind.Class "Widget" 1
                      [content "export declare class Widget extends Base"] None)
             [ApiNode (declaredItem ApiItemKind.Method "render" 1
                         [content "render(): void;"] None) []]]]].

Definition widget : ApiItem := [0; 0; 0]%nat.

(** The inheritance query cannot follow the base class: it gives the own
    members and says that the result may be incomplete. *)
Definition incomplete : ApiItem -> IFindApiItemsResult :=
  fun apiItem =>
    {| items := map (fun i => apiItem ++ [i])
                    (seq 0 (length (treeChildren (subtree model apiItem))));
       messages := ["Unable to analyze references of extends clause for Widget"];
       maybeIncompleteResult := true |}.

Definition env : Environment := environment model [] incomplete.

Definition config : DocumenterConfig :=
  {| newlineKind := NewlineKind.CrLf;
     configFile_showInheritedMembers := Some true;
     loadedFeature := None |}.

Definition this : HugoDocumenter := documenter model (Some config).

Definition noPages : ApiItem -> M unit := fun _ => ret tt.
End InheritedMembers.

(** *** Tables of a page body *)

(** The headings the writers put before a table. *)
Definition tableHeadings : list string :=
  ["Packages"; "Entrypoints"; "Classes"; "Abstract Classes"; "Enumerations";
   "Functions"; "Interfaces"; "Namespaces"; "Variables"; "Type Aliases"; "Events";
   "Constructors"; "Properties"; "Methods"; "Enumeration Members"; "Parameters"].

Definition isTableHeading (t : string) : bool := existsb (String.eqb t) tableHeadings.

(** In a well-formed body every table has at least one row and stands
    right after its heading, and every table heading is followed by its
    table. *)
Fixpoint tablesWellFormed (body : DocSection) : bool :=
  match body with
  | [] => true
  | DocHeading t :: rest =>
      if isTableHeading t then
        match rest with
        | DocTable _ (_ :: _) :: rest' => tablesWellFormed rest'
        | _ => false
        end
      else tablesWellFormed rest
  | DocTable _ _ :: _ => false
  | _ :: rest => tablesWellFormed rest
  end.

(** A node that is neither a table nor the heading of one. *)
Definition notOfTable (node : DocNode) : bool :=
  match node with
  | DocTable _ _ => false
  | DocHeading t => negb (isTableHeading t)
  | _ => true
  end.

(** The nodes the TSDoc parser puts in the sections of a comment: none
    of the custom nodes of this package. *)
Definition standardNode (node : DocNode) : bool :=
  match node with
  | DocHeading _ | DocTable _ _ | DocNoteBox _ | DocEmphasisSpan _ _ _ => false
  | _ => true
  end.

Definition standardBlock (block : DocBlock) : bool := forallb standardNode (blockContent block).

Definition standardOptionalBlock (block : option DocBlock) : bool :=
  match block with
  | Some b => standardBlock b
  | None => true
  end.

Definition standardComment (comment : DocComment) : bool :=
  forallb standardNode (summarySection comment)
  && standardOptionalBlock (remarksBlock comment)
  && standardOptionalBlock (returnsBlock comment)
  && forallb standardBlock (customBlocks comment).

(** The comment of the item, if it has one, is as the parser builds it. *)
Definition commentIsStandard (this : HugoDocumenter) (apiItem : ApiItem) : bool :=
  match documentedComment this apiItem with
  | Some comment => standardComment comment
  | None => true
  end.

Module EmptyTables.
Import Examples.

(** A package with a class that has no members and an enum without
    members. *)
Definition model : ApiTree :=
  ApiNode (plainItem ApiItemKind.Model "")
    [ApiNode (plainItem ApiItemKind.Package "widgets")
       [ApiNode (plainItem ApiItemKind.EntryPoint "")
          [ApiNode (declaredItem ApiItemKind.Class "Widget" 1
                      [content "export declare class Widget"] None) [];
           ApiNode (declaredItem ApiItemKind.Enum "Colour" 1
                      [content "export declare enum Colour"] None) []]]].

Definition package : ApiItem := [0]%nat.
Definition widget : ApiItem := [0; 0; 0]%nat.

Definition env : Environment := environment model [] noInheritance.
Definition this : HugoDocumenter := documenter model None.
Definition noPages : ApiItem -> M unit := fun _ => ret tt.
End EmptyTables.

(* ================================================================= *)
(** ** Definitions used to state further results *)

(** The kinds [_writeApiItemPage] has a title for; it throws for the
    others. *)
Definition supportedKind (k : ApiItemKind.t) : bool :=
  match k with
  | ApiItemKind.CallSignature | ApiItemKind.EnumMember | ApiItemKind.IndexSignature
  | ApiItemKind.None => false
  | _ => true
  end.

(** The entry point a page is not written for: the one with the empty
    import path. *)
Definition isRootEntryPoint (this : HugoDocumenter) (apiItem : ApiItem) : bool :=
  ApiItemKind.eqb (kind (item this apiItem)) ApiItemKind.EntryPoint
  && String.eqb (displayName (item this apiItem)) "".

(** The file [writePage] hands to [FileSystem.writeFile]. *)
Definition pageFile (env : Environment) (this : HugoDocumenter) (apiItem : ApiItem)
    (frontMatter : FrontMatter) (output : DocSection) : WrittenFile :=
  let name := path_join env (_outputFolder this) (_getFilenameForApiItem env this apiItem) in
  let emitted := emitWithFrontMatter env output frontMatter apiItem in
  {| filename := name;
     pageContent :=
       match markdownDocumenterFeature this with
       | Some feature => onBeforeWritePage feature apiItem name emitted
       | None => emitted
       end;
     convertLineEndings :=
       match _documenterConfig this with
       | Some config => newlineKind config
       | None => NewlineKind.CrLf
       end;
     writtenItem := apiItem;
     writtenFrontMatter := frontMatter;
     writtenBody := output |}.

(** What holds of every file a page writer hands over: it is the page
    file of the item it was written for. *)
Definition isPageFile (env : Environment) (this : HugoDocumenter) (file : WrittenFile)
    : Prop :=
  file = pageFile env this (writtenItem file) (writtenFrontMatter file) (writtenBody file).

Module Colours.
Import Examples.

(** An enum with two members. *)
Definition model : ApiTree :=
  ApiNode (plainItem ApiItemKind.Model "")
    [ApiNode (plainItem ApiItemKind.Package "widgets")
       [ApiNode (plainItem ApiItemKind.EntryPoint "")
          [ApiNode (declaredItem ApiItemKind.Enum "Colour" 1
                      [content "export declare enum Colour"] None)
             [ApiNode (declaredItem ApiItemKind.EnumMember "Red" 1
                         [content "Red = 0"] None) [];
              ApiNode (declaredItem ApiItemKind.EnumMember "Green" 1
                         [content "Green = 1"] None) []]]]].

Definition colour : ApiItem := [0; 0; 0]%nat.
Definition red : ApiItem := colour ++ [0%nat].

Definition env : Environment := environment model [] noInheritance.
Definition this : HugoDocumenter := documenter model None.
End Colours.

(** *** Runs that end normally *)

(** A computation ends normally from every world. *)
Definition succeeds {A : Type} (m : M A) : Prop :=
  forall w, exists x w', m w = (inr x, w').

(** The height of a model tree: a tree without members has height 0. *)
Fixpoint treeHeight (t : ApiTree) : nat :=
  match t with
  | ApiNode _ children => list_max (map (fun child => S (treeHeight child)) children)
  end.

(** The kinds whose page writes the pages of members. *)
Definition recursiveKind (k : ApiItemKind.t) : bool :=
  match k with
  | ApiItemKind.Model | ApiItemKind.Package | ApiItemKind.Namespace
  | ApiItemKind.Class | ApiItemKind.Interface => true
  | _ => false
  end.

(** The member kinds a package or namespace page lists. *)
Definition containerMemberKind (k : ApiItemKind.t) : bool :=
  match k with
  | ApiItemKind.Class | ApiItemKind.Enum | ApiItemKind.Interface
  | ApiItemKind.Namespace | ApiItemKind.Function | ApiItemKind.TypeAlias
  | ApiItemKind.Variable_ => true
  | _ => false
  end.

(** The member kinds a class page lists, and those of an interface page. *)
Definition classMemberKind (k : ApiItemKind.t) : bool :=
  match k with
  | ApiItemKind.Constructor | ApiItemKind.Method | ApiItemKind.Property => true
  | _ => false
  end.

Definition interfaceMemberKind (k : ApiItemKind.t) : bool :=
  match k with
  | ApiItemKind.ConstructSignature | ApiItemKind.MethodSignature
  | ApiItemKind.PropertySignature => true
  | _ => false
  end.

(** The items whose page the page of [apiItem] may write. *)
Definition mayWrite (this : HugoDocumenter) (apiItem apiMember : ApiItem) : Prop :=
  match kind (item this apiItem) with
  | ApiItemKind.Model =>
      In apiMember (members this apiItem)
      /\ kind (item this apiMember) = ApiItemKind.Package
  | ApiItemKind.Package =>
      In apiMember (members this apiItem)
      \/ (In apiMember (flat_map (members this) (members this apiItem))
          /\ containerMemberKind (kind (item this apiMember)) = true)
  | ApiItemKind.Namespace =>
      In apiMember (members this apiItem)
      /\ containerMemberKind (kind (item this apiMember)) = true
  | ApiItemKind.Class => classMemberKind (kind (item this apiMember)) = true
  | ApiItemKind.Interface => interfaceMemberKind (kind (item this apiMember)) = true
  | _ => False
  end.

(** The members of a package are entry points, as the item model has
    them. *)
Definition packagesHoldEntryPoints (this : HugoDocumenter) : Prop :=
  forall apiPackage apiMember,
    kind (item this apiPackage) = ApiItemKind.Package ->
    In apiMember (members this apiPackage) ->
    kind (item this apiMember) = ApiItemKind.EntryPoint.

(** The same as a check of the model tree: every member of a package
    node is an entry point node. *)
Fixpoint packagesHoldEntryPointsIn (t : ApiTree) : bool :=
  match t with
  | ApiNode d children =>
      (if ApiItemKind.eqb (kind d) ApiItemKind.Package
       then forallb (fun child =>
                       ApiItemKind.eqb (kind (treeItem child)) ApiItemKind.EntryPoint)
                    children
       else true)
      && forallb packagesHoldEntryPointsIn children
  end.

(** *** The files of a run *)

(** The files of [w] are those of [w0] and files written after them. *)
Definition extendsFiles (w0 w : World) : Prop :=
  exists added, files w = files w0 ++ added.

(** Between [w0] and [w] the page of [apiItem] was written. *)
Definition wrote (env : Environment) (this : HugoDocumenter) (apiItem : ApiItem)
    (w0 w : World) : Prop :=
  exists before frontMatter output after,
    files w = files w0 ++ before ++ pageFile env this apiItem frontMatter output :: after.

(** The members that the tables of a class or interface page go through:
    the result of [_getMembersAndWriteIncompleteWarning]. *)
Definition pageMembers (env : Environment) (this : HugoDocumenter) (apiItem : ApiItem)
    : list ApiItem :=
  if showInheritedMembers this
  then items (findMembersWithInheritance env apiItem)
  else members this apiItem.

(** The members that get a row in a table of the page of [apiItem]: the
    packages of the model, the entry points of a package and the members
    of its entry points that the switch lists, the listed members of a
    namespace, of a class and of an interface. *)
Definition listedMembers (env : Environment) (this : HugoDocumenter) (apiItem : ApiItem)
    : list ApiItem :=
  let ofKind (listed : ApiItemKind.t -> bool) (l : list ApiItem) :=
    List.filter (fun apiMember => listed (kind (item this apiMember))) l in
  match kind (item this apiItem) with
  | ApiItemKind.Model =>
      ofKind (fun k => ApiItemKind.eqb k ApiItemKind.Package) (members this apiItem)
  | ApiItemKind.Package =>
      members this apiItem
      ++ ofKind containerMemberKind (flat_map (members this) (members this apiItem))
  | ApiItemKind.Namespace => ofKind containerMemberKind (members this apiItem)
  | ApiItemKind.Class => ofKind classMemberKind (pageMembers env this apiItem)
  | ApiItemKind.Interface => ofKind interfaceMemberKind (pageMembers env this apiItem)
  | _ => []
  end.

(** Every comment in the tree is as the parser builds it. *)
Fixpoint commentsStandardIn (t : ApiTree) : bool :=
  match t with
  | ApiNode d children =>
      match tsdocComment d with
      | Some comment => standardComment comment
      | None => true
      end
      && forallb commentsStandardIn children
  end.

(** *** Nodes of a type paragraph *)

(** A plain text that the constructor of [DocPlainText] accepts, or a
    link. *)
Definition isTextOrLink (node : DocNode) : bool :=
  match node with
  | DocPlainText text => plainTextAccepted text
  | DocLinkTag _ _ => true
  | _ => false
  end.

Module Documented.
Import Examples.

Definition paragraph (s : string) : DocNode := DocParagraph [DocPlainText s].

Definition block (tag s : string) : DocBlock :=
  {| tagNameWithUpperCase := tag; blockContent := [paragraph s] |}.

(** A comment with a summary, remarks, two examples and, between them,
    an exception. *)
Definition comment : DocComment :=
  {| summarySection := [paragraph "Parses a colour."];
     remarksBlock := Some (block "@REMARKS" "The name is matched exactly.");
     deprecatedBlock := None;
     returnsBlock := None;
     customBlocks :=
       [block StandardTags.example "parse(red)";
        block StandardTags.throws "RangeError for an unknown name";
        block StandardTags.example "parse(green)"] |}.

Definition model : ApiTree :=
  ApiNode (plainItem ApiItemKind.Model "")
    [ApiNode (plainItem ApiItemKind.Package "widgets")
       [ApiNode (plainItem ApiItemKind.EntryPoint "")
          [ApiNode (declaredItem ApiItemKind.Function "parse" 1
                      [content "export declare function parse(name: string): Colour;"]
                      (Some comment)) []]]].

Definition parse : ApiItem := [0; 0; 0]%nat.

Definition env : Environment := environment model [] noInheritance.
Definition this : HugoDocumenter := documenter model None.
End Documented.

(** *** The body of a page, without the pages of the members *)

(** The rows that the loop of [collectMemberRows] leaves in the tables. *)
Definition memberTablesOf
    (addRow : MemberTables -> ApiItem -> bool -> option MemberTables)
    (owner : ApiItem) (apiMembers : list ApiItem) : MemberTables :=
  fold_left
    (fun tables apiMember =>
       match addRow tables apiMember (isInheritedFrom apiMember owner) with
       | Some tables' => tables'
       | None => tables
       end)
    apiMembers emptyMemberTables.

(** The rows that the loop of [_writePackageOrNamespaceTables] leaves in
    the tables. *)
Definition containerTablesOf (env : Environment) (this : HugoDocumenter)
    (apiMembers : list ApiItem) : ContainerTables :=
  fold_left
    (fun tables apiMember =>
       match addContainerRow tables (kind (item this apiMember))
               (isAbstract (item this apiMember))
               [_createTitleCell env this apiMember;
                _createDescriptionCell env this apiMember false] with
       | Some tables' => tables'
       | None => tables
       end)
    apiMembers emptyContainerTables.

(** The row of an entry point in the table of a package. *)
Definition entrypointRow (env : Environment) (this : HugoDocumenter)
    (apiContainer entrypoint : ApiItem) : DocTableRow :=
  [[DocParagraph
      [DocLinkTag (entrypointLinkText this apiContainer entrypoint)
                  (_getLinkFilenameForApiItem env this entrypoint)]]].

(** The output that [_getMembersAndWriteIncompleteWarning] leaves. *)
Definition membersOutput (env : Environment) (this : HugoDocumenter)
    (apiItem : ApiItem) (output : DocSection) : DocSection :=
  if showInheritedMembers this
     && maybeIncompleteResult (findMembersWithInheritance env apiItem)
  then output ++ [incompleteWarning]
  else output.

(** What the kind-specific part of [_writeApiItemPage] appends to the
    output when the page writers it calls return. *)
Definition kindSpecificOutput (env : Environment) (this : HugoDocumenter)
    (output : DocSection) (apiItem : ApiItem) : DocSection :=
  match kind (item this apiItem) with
  | ApiItemKind.Class =>
      appendClassTables (membersOutput env this apiItem output)
        (memberTablesOf (addClassRow env this) apiItem (pageMembers env this apiItem))
  | ApiItemKind.Enum => _writeEnumTables env this output apiItem
  | ApiItemKind.Interface =>
      appendInterfaceTables (membersOutput env this apiItem output)
        (memberTablesOf (addInterfaceRow env this) apiItem (pageMembers env this apiItem))
  | ApiItemKind.Constructor | ApiItemKind.ConstructSignature | ApiItemKind.Method
  | ApiItemKind.MethodSignature | ApiItemKind.Function =>
      _writeThrowsSection this (_writeParameterTables env this output apiItem) apiItem
  | ApiItemKind.Namespace =>
      appendContainerTables output (containerTablesOf env this (members this apiItem))
  | ApiItemKind.Model =>
      appendTable output "Packages" ["Package"; "Description"]
        (map (fun apiMember => [_createTitleCell env this apiMember;
                                _createDescriptionCell env this apiMember false])
             (List.filter
                (fun apiMember =>
                   ApiItemKind.eqb (kind (item this apiMember)) ApiItemKind.Package)
                (members this apiItem)))
  | ApiItemKind.EntryPoint => appendNodeInParagraph output (DocPlainText entryPointText)
  | ApiItemKind.Package =>
      appendContainerTables
        (if (1 <? length (members this apiItem))%nat
         then output
              ++ [DocHeading "Entrypoints";
                  DocTable ["Path"]
                    (map (entrypointRow env this apiItem) (members this apiItem))]
         else output)
        (containerTablesOf env this (flat_map (members this) (members this apiItem)))
  | _ => output
  end.

Module Inheritance.
Import Examples.

(** A class [Base] with a method and a class [Derived] that extends it
    and has no member of its own. *)
Definition model : ApiTree :=
  ApiNode (plainItem ApiItemKind.Model "")
    [ApiNode (plainItem ApiItemKind.Package "widgets")
       [ApiNode (plainItem ApiItemKind.EntryPoint "")
          [ApiNode (declaredItem ApiItemKind.Class "Base" 1
                      [content "export declare class Base"] None)
             [ApiNode (declaredItem ApiItemKind.Method "run" 1
                         [content "run(): void;"] None) []];
           ApiNode (declaredItem ApiItemKind.Class "Derived" 1
                      [content "export declare class Derived extends Base"] None)
             []]]].

Definition base : ApiItem := [0; 0; 0]%nat.
Definition run : ApiItem := [0; 0; 0; 0]%nat.
Definition derived : ApiItem := [0; 0; 1]%nat.

(** The inheritance query: [Derived] has the method of [Base]. *)
Definition inherited : ApiItem -> IFindApiItemsResult :=
  fun apiItem =>
    {| items := if bool_decide (apiItem = derived) then [run]
                else map (fun i => apiItem ++ [i])
                         (seq 0 (length (treeChildren (subtree model apiItem))));
       messages := [];
       maybeIncompleteResult := false |}.

Definition env : Environment := environment model [] inherited.

Definition config : DocumenterConfig :=
  {| newlineKind := NewlineKind.CrLf;
     configFile_showInheritedMembers := Some true;
     loadedFeature := None |}.

Definition this : HugoDocumenter := documenter model (Some config).
End Inheritance.

(** The paragraph of the marks of a description cell: none without
    marks. *)
Definition paragraphOf (nodes : list DocNode) : DocSection :=
  match nodes with
  | [] => []
  | _ => [DocParagraph nodes]
  end.

(** The marks that [_createDescriptionCell] puts before the summary: the
    release stage and [(Optional)]. *)
Definition descriptionMarks (this : HugoDocumenter) (apiItem : ApiItem) : list DocNode :=
  (if ApiReleaseTagMixin_isBaseClassOf (kind (item this apiItem))
   then match releaseTag (item this apiItem) with
        | ReleaseTag.Alpha =>
            [DocEmphasisSpan true true [DocPlainText "(ALPHA)"]; DocPlainText " "]
        | ReleaseTag.Beta =>
            [DocEmphasisSpan true true [DocPlainText "(BETA)"]; DocPlainText " "]
        | _ => []
        end
   else [])
  ++ (if isOptional (item this apiItem)
      then [italicText "(Optional)"; DocPlainText " "]
      else []).

(** The note that ends the description of an inherited member. *)
Definition inheritedNote (env : Environment) (this : HugoDocumenter) (apiItem : ApiItem)
    (isInherited : bool) : DocSection :=
  match isInherited, parent apiItem with
  | true, Some apiParent =>
      [DocParagraph
         [DocPlainText "(Inherited from ";
          DocLinkTag (displayName (item this apiParent))
                     (_getLinkFilenameForApiItem env this apiParent);
          DocPlainText ")"]]
  | _, _ => []
  end.

(** *** The shape of tables *)

(** Every row has as many cells as the table has columns. *)
Definition rowsFit (columns : nat) (rows : list DocTableRow) : bool :=
  forallb (fun row : DocTableRow => Nat.eqb (length row) columns) rows.

Definition tableFits (node : DocNode) : bool :=
  match node with
  | DocTable headerTitles rows => rowsFit (length headerTitles) rows
  | _ => true
  end.

Definition tablesRectangular (body : DocSection) : bool := forallb tableFits body.

(** The rows of the member tables of a class or interface fit their
    headers: four columns for events and properties, and the given
    numbers for constructors and methods. *)
Definition memberTablesFit (constructors methods : nat) (t : MemberTables) : Prop :=
  rowsFit 4 (eventsTable t) = true
  /\ rowsFit constructors (constructorsTable t) = true
  /\ rowsFit 4 (propertiesTable t) = true
  /\ rowsFit methods (methodsTable t) = true.

(** The rows of the member tables of a package or namespace fit their
    two columns. *)
Definition containerTablesFit (t : ContainerTables) : Prop :=
  rowsFit 2 (abstractClassesTable t) = true
  /\ rowsFit 2 (classesTable t) = true
  /\ rowsFit 2 (enumerationsTable t) = true
  /\ rowsFit 2 (functionsTable t) = true
  /\ rowsFit 2 (interfacesTable t) = true
  /\ rowsFit 2 (namespacesTable t) = true
  /\ rowsFit 2 (variablesTable t) = true
  /\ rowsFit 2 (typeAliasesTable t) = true.

(** *** Children that the configuration allows *)

(** The kind of a node, as [DocNode.kind] gives it. *)
Definition docNodeKind (node : DocNode) : string :=
  match node with
  | DocPlainText _ => "PlainText"
  | DocSoftBreak => "SoftBreak"
  | DocCodeSpan _ => "CodeSpan"
  | DocFencedCode _ _ => "FencedCode"
  | DocLinkTag _ _ => "LinkTag"
  | DocParagraph _ => "Paragraph"
  | DocEmphasisSpan _ _ _ => CustomDocNodeKind.EmphasisSpan
  | DocHeading _ => CustomDocNodeKind.Heading
  | DocNoteBox _ => CustomDocNodeKind.NoteBox
  | DocTable _ _ => CustomDocNodeKind.Table
  end.

(** The node is an allowable child of a container of the kind
    [parentKind], and so is every node below it of its own container:
    the children of a paragraph and of an emphasis span, the content
    section of a note box and of every cell of a table. *)
Fixpoint legalChild (c : CustomDocNodes.TSDocConfiguration) (parentKind : string)
    (node : DocNode) {struct node} : bool :=
  CustomDocNodes.isAllowedChild c parentKind (docNodeKind node)
  && match node with
     | DocParagraph nodes => forallb (legalChild c "Paragraph") nodes
     | DocEmphasisSpan _ _ nodes =>
         forallb (legalChild c CustomDocNodeKind.EmphasisSpan) nodes
     | DocNoteBox content => forallb (legalChild c "Section") content
     | DocTable _ rows => forallb (forallb (forallb (legalChild c "Section"))) rows
     | _ => true
     end.

(** The nodes of a section, and the children of a paragraph, under the
    configuration of [CustomDocNodes]. *)
Definition legalSection (nodes : list DocNode) : bool :=
  forallb (legalChild CustomDocNodes.customConfiguration "Section") nodes.

Definition legalParagraph (nodes : list DocNode) : bool :=
  forallb (legalChild CustomDocNodes.customConfiguration "Paragraph") nodes.

Definition legalRow (row : DocTableRow) : bool := forallb legalSection row.

Definition legalBlock (block : option DocBlock) : bool :=
  match block with
  | Some b => legalSection (blockContent b)
  | None => true
  end.

(** The sections of a comment hold allowable children only. *)
Definition commentLegal (comment : DocComment) : bool :=
  legalSection (summarySection comment)
  && legalBlock (remarksBlock comment)
  && legalBlock (deprecatedBlock comment)
  && legalBlock (returnsBlock comment)
  && forallb (fun block => legalSection (blockContent block)) (customBlocks comment).

(** The comment of an item and the blocks of its parameters. *)
Definition itemLegal (d : ApiItemData) : bool :=
  match tsdocComment d with
  | Some comment => commentLegal comment
  | None => true
  end
  && forallb (fun apiParameter => legalBlock (tsdocParamBlock apiParameter)) (parameters d).

Fixpoint commentsLegalIn (t : ApiTree) : bool :=
  match t with
  | ApiNode d children => itemLegal d && forallb commentsLegalIn children
  end.

(** Every row of the tables of a package or namespace has the property
    [r]; the same for the tables of a class or interface. *)
Definition containerTablesAll (r : DocTableRow -> bool) (t : ContainerTables) : Prop :=
  forallb r (abstractClassesTable t) = true
  /\ forallb r (classesTable t) = true
  /\ forallb r (enumerationsTable t) = true
  /\ forallb r (functionsTable t) = true
  /\ forallb r (interfacesTable t) = true
  /\ forallb r (namespacesTable t) = true
  /\ forallb r (variablesTable t) = true
  /\ forallb r (typeAliasesTable t) = true.

Definition memberTablesAll (r : DocTableRow -> bool) (t : MemberTables) : Prop :=
  forallb r (eventsTable t) = true
  /\ forallb r (constructorsTable t) = true
  /\ forallb r (propertiesTable t) = true
  /\ forallb r (methodsTable t) = true.

(* ================================================================= *)
(** * Results *)

(** ** Strings *)

Lemma append_nil_l (b : string) : "" +:+ b = b.
Proof. reflexivity. Qed.

Lemma append_cons (x : ascii) (a b : string) : String x a +:+ b = String x (a +:+ b).
Proof. reflexivity. Qed.

Lemma append_assoc (a b c : string) : (a +:+ b) +:+ c = a +:+ (b +:+ c).
Proof.
  induction a as [|x a IH]; [reflexivity|].
  rewrite !append_cons. now rewrite IH.
Qed.

Lemma append_empty_r (a : string) : a +:+ "" = a.
Proof. induction a as [|x a IH]; [reflexivity|]. rewrite append_cons. now rewrite IH. Qed.

Lemma length_append (a b : string) :
  String.length (a +:+ b) = (String.length a + String.length b)%nat.
Proof.
  induction a as [|x a IH]; [reflexivity|].
  rewrite append_cons. simpl. now rewrite IH.
Qed.

Lemma append_inv_head (a b c : string) : a +:+ b = a +:+ c -> b = c.
Proof. apply (inj (String.app a)). Qed.

Lemma append_inv_tail (a b c : string) : a +:+ c = b +:+ c -> a = b.
Proof.
  revert b. induction a as [|x a IH]; intros [|y b] H;
    rewrite ?append_cons, ?append_nil_l in H.
  - reflexivity.
  - apply (f_equal String.length) in H. simpl in H. rewrite length_append in H. lia.
  - apply (f_equal String.length) in H. simpl in H. rewrite length_append in H. lia.
  - injection H as -> H. f_equal. now apply IH.
Qed.

Lemma string_eqb_empty (s : string) :
  String.eqb s "" = negb (0 <? String.length s)%nat.
Proof. destruct s; reflexivity. Qed.

(** ** File names *)

Section FileNames.

Context (env : Environment) (this : HugoDocumenter).

Lemma getHierarchy_split (apiItem : ApiItem) :
  getHierarchy apiItem = ancestors apiItem ++ [apiItem].
Proof.
  unfold getHierarchy, ancestors.
  destruct (length apiItem); reflexivity.
Qed.

(** The file name of an item that is not the model: the base name of its
    parents extended by the step for the item itself. *)
Lemma filename_by_last_step (apiItem : ApiItem) :
  kind (item this apiItem) <> ApiItemKind.Model ->
  _getFilenameForApiItem env this apiItem
  = hierarchyStep env this apiItem (baseNameOfParents env this apiItem) apiItem
    +:+ "/_index.md".
Proof.
  intros notModel. unfold _getFilenameForApiItem, baseNameOfParents.
  destruct (kind (item this apiItem)) eqn:K; try congruence;
    simpl; rewrite getHierarchy_split, fold_left_app; reflexivity.
Qed.

Lemma filename_of_qualified (apiItem : ApiItem) :
  appendsQualifiedName (kind (item this apiItem)) = true ->
  _getFilenameForApiItem env this apiItem
  = baseNameOfParents env this apiItem +:+ "/" +:+ qualifiedNameOf env this apiItem
    +:+ "/_index.md".
Proof.
  intros Hk. rewrite filename_by_last_step.
  - unfold hierarchyStep.
    destruct (kind (item this apiItem)); try discriminate Hk;
      cbv zeta; rewrite ?append_assoc; reflexivity.
  - intros E. now rewrite E in Hk.
Qed.

Lemma qualifiedName_overload (apiItem : ApiItem) :
  ApiParameterListMixin_isBaseClassOf (kind (item this apiItem)) = true ->
  (1 < overloadIndex (item this apiItem))%Z ->
  qualifiedNameOf env this apiItem
  = getSafeFilenameForName env (displayName (item this apiItem))
    +:+ "_" +:+ numberToString (overloadIndex (item this apiItem) - 1).
Proof.
  intros Hk Hn. unfold qualifiedNameOf. rewrite Hk.
  apply Z.ltb_lt in Hn. rewrite Hn. simpl.
  destruct (kind (item this apiItem)); try discriminate Hk; reflexivity.
Qed.

Lemma qualifiedName_variable (apiItem : ApiItem) :
  kind (item this apiItem) = ApiItemKind.Variable_ ->
  qualifiedNameOf env this apiItem
  = "var_" +:+ getSafeFilenameForName env (displayName (item this apiItem)).
Proof. intros Hk. unfold qualifiedNameOf. now rewrite Hk. Qed.

Lemma entryPoint_step (apiItem entryPoint : ApiItem) (baseName : string) :
  kind (item this entryPoint) = ApiItemKind.EntryPoint ->
  hierarchyStep env this apiItem baseName entryPoint
  = if String.eqb (displayName (item this entryPoint)) ""
    then baseName +:+ "/_root"
    else baseName +:+ "/"
         +:+ getSafeFilenameForName env
               (getUnscopedName env (displayName (item this entryPoint))).
Proof.
  intros Hk. unfold hierarchyStep. rewrite Hk, string_eqb_empty.
  now destruct (0 <? String.length (displayName (item this entryPoint)))%nat.
Qed.

End FileNames.

Section FileNameClaims.

Import Examples MoreExamples.

Lemma parameterList_appendsQualifiedName (k : ApiItemKind.t) :
  ApiParameterListMixin_isBaseClassOf k = true -> appendsQualifiedName k = true.
Proof. destruct k; simpl; intros H; (reflexivity || discriminate H). Qed.

(** C2, amended.  A function-like item whose overload index [n] exceeds 1
    gets the suffix [_<n-1>] on its path segment, and a variable gets the
    prefix [var_].  For package [@scope/widgets] with the empty entry point
    and a class [Widget] with two constructors, the pages are
    [widgets/_root/Widget/_index.md],
    [widgets/_root/Widget/<c>/_index.md] and
    [widgets/_root/Widget/<c>_1/_index.md], where [<c>] is the safe form
    of the display name of the constructors: the root entry point
    contributes the segment [_root]. *)
Theorem C2_overload_suffix_and_variable_prefix :
  (forall env this apiItem,
      ApiParameterListMixin_isBaseClassOf (kind (item this apiItem)) = true ->
      (1 < overloadIndex (item this apiItem))%Z ->
      _getFilenameForApiItem env this apiItem
      = baseNameOfParents env this apiItem +:+ "/"
        +:+ (getSafeFilenameForName env (displayName (item this apiItem))
             +:+ "_" +:+ numberToString (overloadIndex (item this apiItem) - 1))
        +:+ "/_index.md")
  /\ (forall env this apiItem,
      kind (item this apiItem) = ApiItemKind.Variable_ ->
      _getFilenameForApiItem env this apiItem
      = baseNameOfParents env this apiItem +:+ "/"
        +:+ ("var_" +:+ getSafeFilenameForName env (displayName (item this apiItem)))
        +:+ "/_index.md")
  /\ (forall ctor,
      let model := widgetsModel ctor in
      let env := environment model [] noInheritance in
      let this := documenter model None in
      _getFilenameForApiItem env this theWidget = "widgets/_root/Widget/_index.md"
      /\ _getFilenameForApiItem env this firstConstructor
         = "widgets/_root/Widget/" +:+ safeFilenameForName ctor +:+ "/_index.md"
      /\ _getFilenameForApiItem env this secondConstructor
         = "widgets/_root/Widget/" +:+ safeFilenameForName ctor +:+ "_1/_index.md").
Proof.
  split; [|split].
  - intros env this apiItem Hk Hn.
    rewrite filename_of_qualified by now apply parameterList_appendsQualifiedName.
    now rewrite qualifiedName_overload.
  - intros env this apiItem Hk.
    rewrite filename_of_qualified by now rewrite Hk.
    now rewrite qualifiedName_variable.
  - intros ctor model env this. split; [reflexivity|split].
    + rewrite filename_of_qualified by reflexivity.
      change (baseNameOfParents env this firstConstructor) with "widgets/_root/Widget".
      change (qualifiedNameOf env this firstConstructor) with (safeFilenameForName ctor).
      reflexivity.
    + rewrite filename_of_qualified by reflexivity.
      change (baseNameOfParents env this secondConstructor) with "widgets/_root/Widget".
      change (qualifiedNameOf env this secondConstructor)
        with (safeFilenameForName ctor +:+ "_1").
      rewrite append_assoc. reflexivity.
Qed.

(** The suffix rule at the second constructor of [Widget]. *)
Lemma C2_overload_suffix_witness :
  let model := widgetsModel "constructor" in
  let env := environment model [] noInheritance in
  let this := documenter model None in
  ApiParameterListMixin_isBaseClassOf (kind (item this secondConstructor)) = true
  /\ (1 < overloadIndex (item this secondConstructor))%Z
  /\ _getFilenameForApiItem env this secondConstructor
     = baseNameOfParents env this secondConstructor +:+ "/"
       +:+ (getSafeFilenameForName env (displayName (item this secondConstructor))
            +:+ "_" +:+ numberToString (overloadIndex (item this secondConstructor) - 1))
       +:+ "/_index.md".
Proof.
  intros model env this.
  assert (Hk : ApiParameterListMixin_isBaseClassOf (kind (item this secondConstructor)) = true)
    by reflexivity.
  assert (Hn : (1 < overloadIndex (item this secondConstructor))%Z) by reflexivity.
  split; [exact Hk | split; [exact Hn |]].
  exact (proj1 C2_overload_suffix_and_variable_prefix env this secondConstructor Hk Hn).
Defined.

(** The pages of the claim's example are not the ones it lists: each has
    the segment [_root] of the entry point. *)
Lemma C2_widget_pages_counterexample :
  let model := widgetsModel "constructor" in
  let env := environment model [] noInheritance in
  let this := documenter model None in
  _getFilenameForApiItem env this theWidget <> "widgets/Widget/_index.md"
  /\ _getFilenameForApiItem env this firstConstructor
     <> "widgets/Widget/constructor/_index.md"
  /\ _getFilenameForApiItem env this secondConstructor
     <> "widgets/Widget/constructor_1/_index.md".
Proof.
  intros model env this.
  repeat split; apply String.eqb_neq; vm_compute; reflexivity.
Qed.

Example widget_pages_evaluated :
  let model := widgetsModel "constructor" in
  let env := environment model [] noInheritance in
  let this := documenter model None in
  map (_getFilenameForApiItem env this) [theWidget; firstConstructor; secondConstructor]
  = ["widgets/_root/Widget/_index.md";
     "widgets/_root/Widget/constructor/_index.md";
     "widgets/_root/Widget/constructor_1/_index.md"].
Proof. vm_compute. reflexivity. Qed.

(** Whatever the two helpers compute, the page of [Widget] lies under the
    [_root] segment of the entry point. *)
Example widget_page_for_any_helpers :
  forall env ctor,
    let this := documenter (widgetsModel ctor) None in
    _getFilenameForApiItem env this theWidget
    = ((getSafeFilenameForName env (getUnscopedName env "@scope/widgets") +:+ "/_root")
       +:+ "/" +:+ getSafeFilenameForName env "Widget")
      +:+ "/_index.md".
Proof. intros env ctor this. reflexivity. Qed.

(** C3, amended.  In the loop of [_getFilenameForApiItem] an entry point
    with an empty name appends [/_root], and any other entry point appends
    [/] and the safe form of its own unscoped name; the name of the
    package is not part of that segment, it is the base name the package
    has set before.  So the page of an entry point of a package under the
    model root is [<safe unscoped package name>/<segment>/_index.md]. *)
Theorem C3_entry_point_segment :
  forall env this,
    (forall apiItem baseName entryPoint,
        kind (item this entryPoint) = ApiItemKind.EntryPoint ->
        hierarchyStep env this apiItem baseName entryPoint
        = if String.eqb (displayName (item this entryPoint)) ""
          then baseName +:+ "/_root"
          else baseName +:+ "/"
               +:+ getSafeFilenameForName env
                     (getUnscopedName env (displayName (item this entryPoint))))
    /\ (forall i j,
        kind (item this []) = ApiItemKind.Model ->
        kind (item this [i]) = ApiItemKind.Package ->
        kind (item this [i; j]) = ApiItemKind.EntryPoint ->
        _getFilenameForApiItem env this [i; j]
        = (getSafeFilenameForName env (getUnscopedName env (displayName (item this [i])))
           +:+ (if String.eqb (displayName (item this [i; j])) ""
                then "/_root"
                else "/" +:+ getSafeFilenameForName env
                               (getUnscopedName env (displayName (item this [i; j])))))
          +:+ "/_index.md").
Proof.
  intros env this. split.
  - intros apiItem baseName entryPoint Hk. now apply entryPoint_step.
  - intros i j Hm Hp He.
    assert (Hbase : baseNameOfParents env this [i; j]
                    = getSafeFilenameForName env
                        (getUnscopedName env (displayName (item this [i])))).
    { unfold baseNameOfParents, ancestors. simpl. unfold hierarchyStep.
      rewrite Hm, Hp. now rewrite bool_decide_eq_false_2 by discriminate. }
    rewrite filename_by_last_step by (rewrite He; discriminate).
    rewrite entryPoint_step by exact He. rewrite Hbase.
    now destruct (String.eqb (displayName (item this [i; j])) "").
Qed.

Lemma C3_entry_point_segment_witness :
  let env := environment entryPointsModel [] noInheritance in
  let this := documenter entryPointsModel None in
  kind (item this subEntryPoint) = ApiItemKind.EntryPoint
  /\ hierarchyStep env this subEntryPoint "widgets" subEntryPoint = "widgets/sub".
Proof.
  intros env this.
  assert (Hk : kind (item this subEntryPoint) = ApiItemKind.EntryPoint) by reflexivity.
  split; [exact Hk|].
  exact (proj1 (C3_entry_point_segment env this) subEntryPoint "widgets" subEntryPoint Hk).
Defined.

(** For package [@scope/widgets] and its entry point [sub] the claim asks
    for the safe form of [widgets/sub] as the segment of the entry point.
    The loop appends [sub] to the base name [widgets], and the page is
    [widgets/sub/_index.md]: neither the segment nor the path is the safe
    form of [widgets/sub]. *)
Lemma C3_entry_point_counterexample :
  let env := environment entryPointsModel [] noInheritance in
  let this := documenter entryPointsModel None in
  let claimed :=
    getSafeFilenameForName env
      (getUnscopedName env (displayName (item this [0%nat])) +:+ "/"
       +:+ displayName (item this subEntryPoint)) in
  displayName (item this subEntryPoint) <> ""
  /\ hierarchyStep env this subEntryPoint "widgets" subEntryPoint
     <> "widgets" +:+ "/" +:+ claimed
  /\ _getFilenameForApiItem env this subEntryPoint <> claimed +:+ "/_index.md"
  /\ _getFilenameForApiItem env this subEntryPoint = "widgets/sub/_index.md".
Proof.
  intros env this claimed.
  split; [|split; [|split]]; try (apply String.eqb_neq; vm_compute; reflexivity).
  vm_compute. reflexivity.
Qed.

End FileNameClaims.

(** ** Distinct paths for siblings of the same name *)

Lemma numberToString_inj (n m : Z) : numberToString n = numberToString m -> n = m.
Proof.
  unfold numberToString. intros H.
  apply (f_equal NilEmpty.int_of_string) in H.
  rewrite !NilEmpty.isi in H.
  injection H as H. now apply DecimalZ.to_int_inj.
Qed.

Lemma numberToString_not_var (n : Z) : numberToString n <> "var".
Proof.
  unfold numberToString. intros H.
  apply (f_equal NilEmpty.int_of_string) in H.
  rewrite NilEmpty.isi in H. discriminate H.
Qed.

(** A string that commutes with the prefix [var_] ends in a rotation of
    that prefix. *)
Lemma var_prefix_commutes (n : nat) :
  forall s t, (String.length s <= n)%nat -> "var_" +:+ s = s +:+ t ->
    t = "var_" \/ t = "ar_v" \/ t = "r_va" \/ t = "_var".
Proof.
  induction n as [|n IH]; intros s t Hlen H.
  - destruct s; [|simpl in Hlen; lia].
    left. symmetry. exact H.
  - destruct s as [|c1 [|c2 [|c3 [|c4 s]]]];
      repeat rewrite append_cons in H; rewrite ?append_nil_l in H.
    + left. symmetry. exact H.
    + injection H as <- <-. right. left. reflexivity.
    + injection H as <- <- <-. right. right. left. reflexivity.
    + injection H as <- <- <- <-. right. right. right. reflexivity.
    + injection H as <- <- <- <- H.
      apply (IH s t); [simpl in Hlen; lia | exact H].
Qed.

Lemma var_prefix_differs (s : string) (n : Z) :
  "var_" +:+ s <> s /\ "var_" +:+ s <> s +:+ "_" +:+ numberToString n.
Proof.
  split; intros H.
  - apply (f_equal String.length) in H. rewrite length_append in H. simpl in H. lia.
  - apply (var_prefix_commutes (String.length s)) in H; [|lia].
    destruct H as [H|[H|[H|H]]]; rewrite append_cons, append_nil_l in H;
      try discriminate H.
    injection H as H. now apply numberToString_not_var in H.
Qed.

Section Siblings.

Context (env : Environment) (this : HugoDocumenter).

Lemma removelast_shorter (l : ApiItem) : (length (removelast l) <= length l)%nat.
Proof.
  rewrite removelast_firstn_len, length_take. lia.
Qed.

Lemma hierarchyUpwards_length (n : nat) :
  forall current h, In h (hierarchyUpwards n current) -> (length h <= length current)%nat.
Proof.
  induction n as [|n IH]; intros current h; simpl.
  - intros [<-|[]]. lia.
  - intros [<-|Hin]; [lia|].
    apply IH in Hin. pose proof (removelast_shorter current). lia.
Qed.

Lemma ancestors_of_member (parentItem : ApiItem) (i : nat) :
  ancestors (parentItem ++ [i]) = getHierarchy parentItem.
Proof.
  unfold ancestors, getHierarchy.
  rewrite length_app. simpl. rewrite Nat.add_1_r. simpl.
  now rewrite removelast_last.
Qed.

Lemma ancestors_shorter (parentItem : ApiItem) (i : nat) (h : ApiItem) :
  In h (ancestors (parentItem ++ [i])) -> h <> parentItem ++ [i].
Proof.
  rewrite ancestors_of_member. unfold getHierarchy. rewrite <- in_rev.
  intros Hin%hierarchyUpwards_length ->. rewrite length_app in Hin. simpl in Hin. lia.
Qed.

(** The test [hierarchyItem === apiItem] is all that a step reads of the
    item the name is computed for. *)
Lemma hierarchyStep_other (a b h : ApiItem) (baseName : string) :
  h <> a -> h <> b ->
  hierarchyStep env this a baseName h = hierarchyStep env this b baseName h.
Proof.
  intros Ha Hb. unfold hierarchyStep.
  now rewrite !bool_decide_eq_false_2 by assumption.
Qed.

Lemma fold_hierarchyStep_other (a b : ApiItem) (l : list ApiItem) :
  forall baseName,
    (forall h, In h l -> h <> a /\ h <> b) ->
    fold_left (hierarchyStep env this a) l baseName
    = fold_left (hierarchyStep env this b) l baseName.
Proof.
  induction l as [|h l IH]; intros baseName Hl; [reflexivity|].
  simpl. destruct (Hl h (or_introl eq_refl)) as [Ha Hb].
  rewrite (hierarchyStep_other a b h baseName Ha Hb).
  apply IH. intros h' Hin. apply Hl. now right.
Qed.

Lemma siblings_share_base (parentItem : ApiItem) (i j : nat) :
  baseNameOfParents env this (parentItem ++ [i])
  = baseNameOfParents env this (parentItem ++ [j]).
Proof.
  unfold baseNameOfParents. rewrite !ancestors_of_member.
  apply fold_hierarchyStep_other. intros h Hin.
  split; apply ancestors_shorter; now rewrite ancestors_of_member.
Qed.

Lemma qualifiedName_plain (apiItem : ApiItem) :
  kind (item this apiItem) <> ApiItemKind.Variable_ ->
  qualifiedNameOf env this apiItem
  = getSafeFilenameForName env (displayName (item this apiItem))
    \/ qualifiedNameOf env this apiItem
       = getSafeFilenameForName env (displayName (item this apiItem))
         +:+ "_" +:+ numberToString (overloadIndex (item this apiItem) - 1).
Proof.
  intros Hk. unfold qualifiedNameOf.
  destruct (ApiParameterListMixin_isBaseClassOf (kind (item this apiItem))
            && (1 <? overloadIndex (item this apiItem))%Z);
    destruct (kind (item this apiItem)); try congruence; auto.
Qed.

Lemma qualifiedName_function (apiItem : ApiItem) :
  ApiParameterListMixin_isBaseClassOf (kind (item this apiItem)) = true ->
  qualifiedNameOf env this apiItem
  = getSafeFilenameForName env (displayName (item this apiItem))
    +:+ (if (1 <? overloadIndex (item this apiItem))%Z
         then "_" +:+ numberToString (overloadIndex (item this apiItem) - 1)
         else "").
Proof.
  intros Hk. unfold qualifiedNameOf. rewrite Hk. simpl.
  destruct (1 <? overloadIndex (item this apiItem))%Z;
    destruct (kind (item this apiItem)); try discriminate Hk;
    simpl; now rewrite ?append_empty_r.
Qed.

End Siblings.

(** C1, amended.  Two members of one parent that have the same display
    name are written to different paths when both are function-like with
    different overload indices (from 1 on), and when one is a variable
    and the other is an item of another kind that has a path segment of
    its own.  Nothing is said of other pairs of items. *)
Theorem C1_same_named_siblings_distinct_paths :
  forall env this parentItem i j,
    let a := parentItem ++ [i] in
    let b := parentItem ++ [j] in
    displayName (item this a) = displayName (item this b) ->
    (ApiParameterListMixin_isBaseClassOf (kind (item this a)) = true
     /\ ApiParameterListMixin_isBaseClassOf (kind (item this b)) = true
     /\ (1 <= overloadIndex (item this a))%Z
     /\ (1 <= overloadIndex (item this b))%Z
     /\ overloadIndex (item this a) <> overloadIndex (item this b))
    \/ (kind (item this a) = ApiItemKind.Variable_
        /\ kind (item this b) <> ApiItemKind.Variable_
        /\ appendsQualifiedName (kind (item this b)) = true) ->
    _getFilenameForApiItem env this a <> _getFilenameForApiItem env this b.
Proof.
  intros env this parentItem i j a b Hname Hcases Heq.
  assert (Hq : appendsQualifiedName (kind (item this a)) = true
               /\ appendsQualifiedName (kind (item this b)) = true).
  { destruct Hcases as [(Ha & Hb & _)|(Ha & _ & Hb)].
    - split; now apply parameterList_appendsQualifiedName.
    - split; [now rewrite Ha | exact Hb]. }
  destruct Hq as [Hqa Hqb].
  rewrite (filename_of_qualified env this a Hqa) in Heq.
  rewrite (filename_of_qualified env this b Hqb) in Heq.
  unfold a, b in Heq. rewrite (siblings_share_base env this parentItem i j) in Heq.
  fold a b in Heq.
  apply append_inv_head, append_inv_head in Heq.
  apply append_inv_tail in Heq.
  destruct Hcases as [(Ha & Hb & Hia & Hib & Hne)|(Ha & Hnb & _)].
  - rewrite (qualifiedName_function env this a Ha) in Heq.
    rewrite (qualifiedName_function env this b Hb) in Heq.
    rewrite Hname in Heq. apply append_inv_head in Heq.
    destruct (Z.ltb_spec 1 (overloadIndex (item this a)));
      destruct (Z.ltb_spec 1 (overloadIndex (item this b)));
      try discriminate Heq; [|lia].
    rewrite !append_cons, append_nil_l in Heq. injection Heq as Heq.
    apply numberToString_inj in Heq. lia.
  - rewrite (qualifiedName_variable env this a Ha) in Heq.
    rewrite Hname in Heq.
    pose proof (var_prefix_differs
                  (getSafeFilenameForName env (displayName (item this b)))
                  (overloadIndex (item this b) - 1)) as [H1 H2].
    destruct (qualifiedName_plain env this b Hnb) as [Hp|Hp];
      rewrite Hp in Heq; [now apply H1 | now apply H2].
Qed.

(** The two constructors of [Widget] are such siblings. *)
Lemma C1_same_named_siblings_witness :
  let model := Examples.widgetsModel "constructor" in
  let env := Examples.environment model [] Examples.noInheritance in
  let this := Examples.documenter model None in
  displayName (item this (Examples.theWidget ++ [0%nat]))
  = displayName (item this (Examples.theWidget ++ [1%nat]))
  /\ _getFilenameForApiItem env this (Examples.theWidget ++ [0%nat])
     <> _getFilenameForApiItem env this (Examples.theWidget ++ [1%nat]).
Proof.
  intros model env this. split; [reflexivity|].
  apply (C1_same_named_siblings_distinct_paths env this Examples.theWidget 0%nat 1%nat).
  - reflexivity.
  - left. repeat split; try reflexivity; simpl; lia.
Defined.

(** An interface and a function of the same name are two items, the page
    of each is written by [generateFiles], and they have one and the same
    file name. *)
Lemma C1_distinct_items_same_path_counterexample :
  MergedDeclarations.fooInterface <> MergedDeclarations.fooFunction
  /\ In MergedDeclarations.fooInterface MergedDeclarations.pagesWritten
  /\ In MergedDeclarations.fooFunction MergedDeclarations.pagesWritten
  /\ _getFilenameForApiItem MergedDeclarations.env MergedDeclarations.this
       MergedDeclarations.fooInterface
     = _getFilenameForApiItem MergedDeclarations.env MergedDeclarations.this
         MergedDeclarations.fooFunction.
Proof.
  split; [discriminate|].
  split; [vm_compute; tauto|].
  split; [vm_compute; tauto|].
  vm_compute. reflexivity.
Qed.

(** The two file names are the same whatever the helpers compute. *)
Example merged_declarations_for_any_helpers :
  forall env,
    _getFilenameForApiItem env MergedDeclarations.this MergedDeclarations.fooInterface
    = _getFilenameForApiItem env MergedDeclarations.this MergedDeclarations.fooFunction.
Proof. intros env. reflexivity. Qed.

Example merged_declarations_run :
  fst (generateFiles MergedDeclarations.env MergedDeclarations.this 6 Examples.emptyWorld)
  = inr tt
  /\ map filename
       (files (snd (generateFiles MergedDeclarations.env MergedDeclarations.this 6
                      Examples.emptyWorld)))
     = ["out/widgets/_root/Foo/_index.md"; "out/widgets/_root/Foo/_index.md";
        "out/widgets/_root/_index.md"; "out/_index.md"].
Proof. split; vm_compute; reflexivity. Qed.

(** ** Excerpt tokens *)

Lemma replaceNewlineRuns_clean (s : string) :
  forall inRun, containsNewlineChar (replaceNewlineRuns inRun s) = false.
Proof.
  induction s as [|c s IH]; intros inRun; simpl; [reflexivity|].
  destruct (isNewlineChar c) eqn:Hc.
  - destruct inRun; simpl; rewrite ?IH; reflexivity.
  - simpl. now rewrite Hc, IH.
Qed.

Lemma lineFeed_is_newline (s : string) :
  containsNewlineChar s = false -> containsLineFeed s = false.
Proof.
  induction s as [|c s IH]; simpl; [reflexivity|].
  unfold isNewlineChar. intros H.
  apply orb_false_elim in H as [Hc Hs]. apply orb_false_elim in Hc as [Hlf _].
  now rewrite Hlf, IH.
Qed.

Lemma unwrapText_accepted (s : string) : plainTextAccepted (unwrapText s) = true.
Proof.
  unfold plainTextAccepted, unwrapText.
  now rewrite lineFeed_is_newline by apply replaceNewlineRuns_clean.
Qed.

Lemma replaceNewlineRuns_prefix (a rest : string) :
  containsNewlineChar a = false ->
  replaceNewlineRuns false (a +:+ rest) = a +:+ replaceNewlineRuns false rest.
Proof.
  induction a as [|c a IH]; intros H; [reflexivity|].
  simpl in H. apply orb_false_elim in H as [Hc Ha].
  rewrite !append_cons. simpl. rewrite Hc. now rewrite IH.
Qed.

Lemma replaceNewlineRuns_run (run rest : string) :
  allNewlineChars run = true ->
  replaceNewlineRuns true (run +:+ rest) = replaceNewlineRuns true rest.
Proof.
  induction run as [|c run IH]; intros H; [reflexivity|].
  simpl in H. apply andb_prop in H as [Hc Hrun].
  rewrite append_cons. simpl. rewrite Hc. now apply IH.
Qed.

Lemma replaceNewlineRuns_restart (rest : string) :
  startsWithNewlineChar rest = false ->
  replaceNewlineRuns true rest = replaceNewlineRuns false rest.
Proof. destruct rest as [|c rest]; simpl; [reflexivity|]. now intros ->. Qed.

(** What [unwrapText] computes: a text without newline characters is
    kept, and a run of newline characters between two parts of a text
    becomes one space. *)
Lemma unwrapText_spec :
  (forall s, containsNewlineChar s = false -> unwrapText s = s)
  /\ (forall a run rest,
        containsNewlineChar a = false ->
        allNewlineChars run = true -> run <> "" ->
        startsWithNewlineChar rest = false ->
        unwrapText (a +:+ run +:+ rest) = a +:+ " " +:+ unwrapText rest).
Proof.
  unfold unwrapText. split.
  - intros s H. rewrite <- (append_empty_r s) at 1.
    rewrite replaceNewlineRuns_prefix by exact H. simpl. apply append_empty_r.
  - intros a run rest Ha Hrun Hne Hrest.
    rewrite replaceNewlineRuns_prefix by exact Ha. f_equal.
    destruct run as [|c run]; [congruence|].
    simpl in Hrun. apply andb_prop in Hrun as [Hc Hrun].
    rewrite append_cons. simpl. rewrite Hc.
    rewrite replaceNewlineRuns_run by exact Hrun.
    now rewrite replaceNewlineRuns_restart.
Qed.

(** C4.  A reference token that the model does not resolve (its canonical
    reference is absent, or resolves to no item) is appended as a
    [DocPlainText] of its text with every run of newlines turned into one
    space; that text has no newline left, so the constructor of
    [DocPlainText] accepts it.  A link is appended only for a reference
    token whose canonical reference resolves, and it points to the
    resolved item. *)
Theorem C4_unresolved_reference_is_plain_text :
  forall env this (docNodeContainer : DocNodeContainer) (token : ExcerptToken),
    (tokenKind token = ExcerptTokenKind.Reference ->
     (canonicalReference token = None
      \/ exists reference, canonicalReference token = Some reference
                           /\ resolveDeclarationReference env reference = None) ->
     _appendExcerptTokenWithHyperlinks env this docNodeContainer token
     = docNodeContainer ++ [DocPlainText (unwrapText (text token))]
     /\ plainTextAccepted (unwrapText (text token)) = true
     /\ containsNewlineChar (unwrapText (text token)) = false)
    /\ (forall linkText urlDestination,
          _appendExcerptTokenWithHyperlinks env this docNodeContainer token
          = docNodeContainer ++ [DocLinkTag linkText urlDestination] ->
          tokenKind token = ExcerptTokenKind.Reference
          /\ exists reference resolvedApiItem,
               canonicalReference token = Some reference
               /\ resolveDeclarationReference env reference = Some resolvedApiItem
               /\ urlDestination = _getLinkFilenameForApiItem env this resolvedApiItem
               /\ linkText = unwrapText (text token)).
Proof.
  intros env this docNodeContainer token. split.
  - intros Hkind Hunresolved.
    split; [|split; [apply unwrapText_accepted | apply replaceNewlineRuns_clean]].
    unfold _appendExcerptTokenWithHyperlinks, appendNode. rewrite Hkind.
    destruct Hunresolved as [-> | (reference & -> & ->)]; reflexivity.
  - intros linkText urlDestination.
    unfold _appendExcerptTokenWithHyperlinks, appendNode.
    destruct (tokenKind token) eqn:Hkind.
    + intros H%app_inv_head. discriminate H.
    + destruct (canonicalReference token) as [reference|] eqn:Href.
      * destruct (resolveDeclarationReference env reference) as [resolvedApiItem|] eqn:Hres.
        -- intros H%app_inv_head. injection H as <- <-.
           split; [reflexivity|]. now exists reference, resolvedApiItem.
        -- intros H%app_inv_head. discriminate H.
      * intros H%app_inv_head. discriminate H.
Qed.

(** A reference to a type outside the model, written over two lines. *)
Lemma C4_unresolved_reference_witness :
  tokenKind UnresolvedReference.externalToken = ExcerptTokenKind.Reference
  /\ resolveDeclarationReference UnresolvedReference.env "other!External:class" = None
  /\ _appendExcerptTokenWithHyperlinks UnresolvedReference.env UnresolvedReference.this
       [DocPlainText "extends "] UnresolvedReference.externalToken
     = [DocPlainText "extends "; DocPlainText "other. External"].
Proof.
  assert (Hk : tokenKind UnresolvedReference.externalToken = ExcerptTokenKind.Reference)
    by reflexivity.
  assert (Hr : resolveDeclarationReference UnresolvedReference.env "other!External:class"
               = None) by reflexivity.
  split; [exact Hk | split; [exact Hr |]].
  apply (proj1 (C4_unresolved_reference_is_plain_text UnresolvedReference.env
                  UnresolvedReference.this [DocPlainText "extends "]
                  UnresolvedReference.externalToken) Hk).
  right. exists "other!External:class". split; [reflexivity | exact Hr].
Defined.

Example resolved_reference_is_linked :
  _appendExcerptTokenWithHyperlinks UnresolvedReference.env UnresolvedReference.this
    [] UnresolvedReference.widgetToken
  = [DocLinkTag "Widget" "/docs/widgets/_root/Widget/_index.md"].
Proof. vm_compute. reflexivity. Qed.

(** ** The references of a type alias *)

Lemma firstOccurrences_fresh (tokens : list ExcerptToken) :
  forall seen token,
    In token (firstOccurrences seen tokens) -> (text token ∉ seen) /\ In token tokens.
Proof.
  induction tokens as [|t rest IH]; intros seen token; simpl; [tauto|].
  case_bool_decide as Hseen.
  - intros Hin. apply IH in Hin. tauto.
  - intros [->|Hin]; [tauto|]. apply IH in Hin as [Hnew Hin].
    split; [|now right].
    intros Hold. apply Hnew, elem_of_union. now left.
Qed.

Lemma firstOccurrences_NoDup (tokens : list ExcerptToken) :
  forall seen, NoDup (map text (firstOccurrences seen tokens)).
Proof.
  induction tokens as [|t rest IH]; intros seen; simpl; [constructor|].
  case_bool_decide as Hseen; [apply IH|].
  simpl. constructor; [|apply IH].
  rewrite list_elem_of_In, in_map_iff. intros (token & Htext & Hin).
  apply firstOccurrences_fresh in Hin as [Hnew _].
  apply Hnew, elem_of_union. right. now apply elem_of_singleton.
Qed.

Lemma firstOccurrences_complete (tokens : list ExcerptToken) :
  forall seen token,
    In token tokens -> text token ∉ seen ->
    In (text token) (map text (firstOccurrences seen tokens)).
Proof.
  induction tokens as [|t rest IH]; intros seen token; simpl; [tauto|].
  intros Hin Hfresh. case_bool_decide as Hseen.
  - destruct Hin as [->|Hin]; [contradiction|]. now apply IH.
  - simpl. destruct (decide (text t = text token)) as [Heq|Hne]; [now left|].
    destruct Hin as [->|Hin]; [now left|]. right. apply IH; [exact Hin|].
    intros [Hold|Hsame]%elem_of_union; [contradiction|].
    apply elem_of_singleton in Hsame. congruence.
Qed.

Lemma firstOccurrences_sublist (tokens : list ExcerptToken) :
  forall seen, firstOccurrences seen tokens `sublist_of` tokens.
Proof.
  induction tokens as [|t rest IH]; intros seen; simpl; [constructor|].
  case_bool_decide; [apply sublist_cons | apply sublist_skip]; apply IH.
Qed.

(** Each token kept is the first one of its text. *)
Lemma firstOccurrences_first (tokens : list ExcerptToken) :
  forall seen token,
    In token (firstOccurrences seen tokens) ->
    exists before after,
      tokens = before ++ token :: after /\ ~ In (text token) (map text before).
Proof.
  induction tokens as [|t rest IH]; intros seen token; simpl; [tauto|].
  case_bool_decide as Hseen.
  - intros Hin. pose proof (firstOccurrences_fresh _ _ _ Hin) as [Hfresh _].
    apply IH in Hin as (before & after & -> & Hb).
    exists (t :: before), after. split; [reflexivity|].
    simpl. intros [Heq|Hin]; [congruence | contradiction].
  - intros [->|Hin].
    + exists [], rest. split; [reflexivity|]. simpl. tauto.
    + pose proof (firstOccurrences_fresh _ _ _ Hin) as [Hfresh _].
      apply IH in Hin as (before & after & -> & Hb).
      exists (t :: before), after. split; [reflexivity|].
      simpl. intros [Heq|Hin]; [|contradiction].
      apply Hfresh, elem_of_union. right. now apply elem_of_singleton.
Qed.

Lemma firstOccurrences_nil (tokens : list ExcerptToken) :
  firstOccurrences ∅ tokens = [] <-> tokens = [].
Proof.
  destruct tokens as [|t rest]; simpl; [tauto|].
  rewrite bool_decide_eq_false_2 by apply not_elem_of_empty.
  split; discriminate.
Qed.

Section TypeAliasReferences.

Context (env : Environment) (this : HugoDocumenter).

Lemma appendToken_resolved (container : DocNodeContainer) (token : ExcerptToken) :
  isResolvedReference env token = true ->
  _appendExcerptTokenWithHyperlinks env this container token
  = container ++ [referenceLink env this token].
Proof.
  unfold isResolvedReference, _appendExcerptTokenWithHyperlinks, referenceLink, appendNode.
  destruct (tokenKind token); [discriminate|].
  destruct (canonicalReference token) as [reference|]; [|discriminate]. simpl.
  destruct (resolveDeclarationReference env reference); [reflexivity | discriminate].
Qed.

(** The loop over [refs]: what it appends to the paragraph from a state
    of the loop on. *)
Lemma references_loop (refs : list ExcerptToken) :
  forall paragraph needsComma visited,
    Forall (fun token => isResolvedReference env token = true) refs ->
    fst (fst (fold_left (referencesStep env this) refs (paragraph, needsComma, visited)))
    = paragraph
      ++ match map (referenceLink env this) (firstOccurrences visited refs) with
         | [] => []
         | links =>
             if needsComma then DocPlainText ", " :: commaSeparated links
             else commaSeparated links
         end.
Proof.
  induction refs as [|ref refs IH]; intros paragraph needsComma visited Hres.
  - simpl. now rewrite app_nil_r.
  - apply Forall_cons in Hres as [Href Hres]. simpl.
    case_bool_decide as Hseen; [now apply IH|].
    rewrite IH by exact Hres.
    rewrite appendToken_resolved by exact Href. simpl.
    destruct (map (referenceLink env this)
                  (firstOccurrences (visited ∪ {[text ref]}) refs)) as [|link links];
      destruct needsComma; unfold appendNode; rewrite <- ?app_assoc; reflexivity.
Qed.

Lemma writeHeritageTypes_typeAlias (output : DocSection) (apiItem : ApiItem) :
  kind (item this apiItem) = ApiItemKind.TypeAlias ->
  _writeHeritageTypes env this output apiItem
  = match listedReferences env (excerptTokens (item this apiItem)) with
    | [] => output
    | _ =>
        output
        ++ [DocParagraph
              (boldText "References: "
               :: commaSeparated
                    (map (referenceLink env this)
                         (listedReferences env (excerptTokens (item this apiItem)))))]
    end.
Proof.
  intros Hk. unfold _writeHeritageTypes, listedReferences. rewrite Hk. simpl.
  set (refs := List.filter (isResolvedReference env) (excerptTokens (item this apiItem))).
  assert (Hres : Forall (fun token => isResolvedReference env token = true) refs).
  { apply List.Forall_forall. intros token Hin. now apply filter_In in Hin. }
  destruct (fold_left (referencesStep env this) refs ([boldText "References: "], false, ∅))
    as [[referencesParagraph needsComma] visited] eqn:Hfold.
  assert (Hloop : referencesParagraph
                  = fst (fst (fold_left (referencesStep env this) refs
                                ([boldText "References: "], false, ∅))))
    by now rewrite Hfold.
  rewrite Hloop, (references_loop refs _ _ _ Hres). clear Hloop Hfold.
  destruct refs as [|ref refs]; [reflexivity|].
  simpl. rewrite bool_decide_eq_false_2 by apply not_elem_of_empty. reflexivity.
Qed.

End TypeAliasReferences.

(** C6.  On a type alias page the [References:] paragraph lists, as
    links separated by commas, the reference tokens of the excerpt that
    resolve to an item of the model: every text once, at its first
    occurrence and in that order; there is no paragraph when no token
    resolves. *)
Theorem C6_references_listed_once :
  forall env this (output : DocSection) (apiItem : ApiItem),
    kind (item this apiItem) = ApiItemKind.TypeAlias ->
    let tokens := excerptTokens (item this apiItem) in
    let resolved := List.filter (isResolvedReference env) tokens in
    let listed := listedReferences env tokens in
    _writeHeritageTypes env this output apiItem
    = match listed with
      | [] => output
      | _ =>
          output ++ [DocParagraph (boldText "References: "
                                   :: commaSeparated (map (referenceLink env this) listed))]
      end
    /\ (listed = [] <-> resolved = [])
    /\ NoDup (map text listed)
    /\ (forall token,
          In token tokens -> isResolvedReference env token = true ->
          In (text token) (map text listed))
    /\ (forall token,
          In token listed ->
          In token tokens /\ isResolvedReference env token = true
          /\ exists before after,
               resolved = before ++ token :: after
               /\ ~ In (text token) (map text before))
    /\ listed `sublist_of` resolved.
Proof.
  intros env this output apiItem Hk tokens resolved listed.
  split; [|split; [|split; [|split; [|split]]]].
  - now apply (writeHeritageTypes_typeAlias env this output apiItem).
  - apply firstOccurrences_nil.
  - apply firstOccurrences_NoDup.
  - intros token Hin Hres. apply firstOccurrences_complete.
    + apply filter_In. now split.
    + apply not_elem_of_empty.
  - intros token Hin.
    pose proof (firstOccurrences_fresh _ _ _ Hin) as [_ Hresolved].
    apply filter_In in Hresolved as [Htok Hres].
    split; [exact Htok | split; [exact Hres |]].
    now apply (firstOccurrences_first _ ∅).
  - apply firstOccurrences_sublist.
Qed.

(** The alias [Pair] refers to [Widget] twice, to [Gadget] and to a type
    outside the model. *)
Lemma C6_references_witness :
  kind (item References.this References.pair) = ApiItemKind.TypeAlias
  /\ _writeHeritageTypes References.env References.this [] References.pair
     = [DocParagraph
          [boldText "References: ";
           DocLinkTag "Widget" "/docs/widgets/_root/Widget/_index.md";
           DocPlainText ", ";
           DocLinkTag "Gadget" "/docs/widgets/_root/Gadget/_index.md"]].
Proof.
  assert (Hk : kind (item References.this References.pair) = ApiItemKind.TypeAlias)
    by reflexivity.
  split; [exact Hk|].
  rewrite (proj1 (C6_references_listed_once References.env References.this []
                    References.pair Hk)).
  vm_compute. reflexivity.
Defined.

(** ** The configuration singleton *)

Module CustomDocNodesFacts.
Import CustomDocNodes.

Lemma configuration_memoized (p : Process) (existing : nat) :
  _configuration p = Some existing -> configuration p = (inr existing, p).
Proof. intros H. unfold configuration. now rewrite H. Qed.

Lemma registrations_succeed :
  exists c1 c2 c3,
    registerDocNodes customKinds newTSDocConfiguration = inr c1
    /\ registerAllowableChildren CustomDocNodeKind.EmphasisSpan
         ["PlainText"; "SoftBreak"] c1 = inr c2
    /\ registerAllowableChildren "Section"
         [CustomDocNodeKind.Heading; CustomDocNodeKind.NoteBox; CustomDocNodeKind.Table] c2
       = inr c3
    /\ registerAllowableChildren "Paragraph" [CustomDocNodeKind.EmphasisSpan] c3
       = inr customConfiguration.
Proof.
  destruct (registerDocNodes customKinds newTSDocConfiguration) as [e|c1] eqn:E1;
    [vm_compute in E1; discriminate E1|].
  destruct (registerAllowableChildren CustomDocNodeKind.EmphasisSpan
              ["PlainText"; "SoftBreak"] c1) as [e|c2] eqn:E2.
  { vm_compute in E1. injection E1 as <-. vm_compute in E2. discriminate E2. }
  destruct (registerAllowableChildren "Section"
              [CustomDocNodeKind.Heading; CustomDocNodeKind.NoteBox;
               CustomDocNodeKind.Table] c2) as [e|c3] eqn:E3.
  { vm_compute in E1. injection E1 as <-. vm_compute in E2. injection E2 as <-.
    vm_compute in E3. discriminate E3. }
  exists c1, c2, c3.
  split; [reflexivity | split; [exact E2 | split; [exact E3 |]]].
  vm_compute in E1. injection E1 as <-. vm_compute in E2. injection E2 as <-.
  vm_compute in E3. injection E3 as <-. vm_compute. reflexivity.
Qed.

Lemma configuration_first (p : Process) :
  _configuration p = None ->
  configuration p
  = (inr (length (objects p)),
     {| objects := objects p ++ [customConfiguration];
        _configuration := Some (length (objects p));
        calls := calls p ++ initialisationCalls (length (objects p)) |}).
Proof.
  intros H. unfold configuration. rewrite H.
  destruct registrations_succeed as (c1 & c2 & c3 & -> & -> & -> & ->).
  reflexivity.
Qed.

Lemma accesses_memoized (n : nat) :
  forall p existing,
    _configuration p = Some existing ->
    accesses n p = (repeat (inr existing) n, p).
Proof.
  induction n as [|n IH]; intros p existing H; simpl; [reflexivity|].
  rewrite (configuration_memoized p existing H).
  now rewrite (IH p existing H).
Qed.

End CustomDocNodesFacts.

(** C9.  [CustomDocNodes.configuration] is memoized.  An access that finds
    the static field set returns the object it holds and changes nothing:
    it registers nothing.  An access that finds it unset creates one
    configuration, registers the six custom kinds and the wider children
    of emphasis span, section and paragraph on it, and stores it.  So any
    number of accesses in a process returns one and the same object, and
    the process makes one call of [registerDocNodes]. *)
Theorem C9_configuration_is_a_memoized_singleton :
  (forall p existing,
      CustomDocNodes._configuration p = Some existing ->
      CustomDocNodes.configuration p = (inr existing, p))
  /\ (forall p,
      CustomDocNodes._configuration p = None ->
      CustomDocNodes.configuration p
      = (inr (length (CustomDocNodes.objects p)),
         {| CustomDocNodes.objects :=
              CustomDocNodes.objects p ++ [CustomDocNodes.customConfiguration];
            CustomDocNodes._configuration := Some (length (CustomDocNodes.objects p));
            CustomDocNodes.calls :=
              CustomDocNodes.calls p
              ++ CustomDocNodes.initialisationCalls (length (CustomDocNodes.objects p)) |}))
  /\ (forall n,
      CustomDocNodes.accesses (S n) CustomDocNodes.initialProcess
      = (repeat (inr 0%nat) (S n),
         {| CustomDocNodes.objects := [CustomDocNodes.customConfiguration];
            CustomDocNodes._configuration := Some 0%nat;
            CustomDocNodes.calls := CustomDocNodes.initialisationCalls 0 |}))
  /\ CustomDocNodes.countRegisterDocNodes (CustomDocNodes.initialisationCalls 0) = 1%nat
  /\ (forall k, In k CustomDocNodes.customKinds ->
                k ∈ CustomDocNodes.registeredKinds CustomDocNodes.customConfiguration)
  /\ (forall parentKind childKind,
        In (parentKind, childKind)
           [("EmphasisSpan", "PlainText"); ("EmphasisSpan", "SoftBreak");
            ("Section", "Heading"); ("Section", "NoteBox"); ("Section", "Table");
            ("Paragraph", "EmphasisSpan")] ->
        CustomDocNodes.isAllowedChild CustomDocNodes.customConfiguration
          parentKind childKind = true).
Proof.
  split; [exact CustomDocNodesFacts.configuration_memoized|].
  split; [exact CustomDocNodesFacts.configuration_first|].
  split; [|split; [reflexivity|split]].
  - intros n. simpl.
    rewrite (CustomDocNodesFacts.configuration_first CustomDocNodes.initialProcess eq_refl).
    simpl.
    now rewrite CustomDocNodesFacts.accesses_memoized with (existing := 0%nat)
      by reflexivity.
  - intros k Hk. simpl in Hk.
    repeat (destruct Hk as [<-|Hk]; [vm_compute; reflexivity|]). destruct Hk.
  - intros parentKind childKind Hin. simpl in Hin.
    repeat (destruct Hin as [[= <- <-]|Hin]; [vm_compute; reflexivity|]). destruct Hin.
Qed.

(** Three accesses from the start of the process. *)
Lemma C9_configuration_witness :
  CustomDocNodes._configuration
    (snd (CustomDocNodes.configuration CustomDocNodes.initialProcess)) = Some 0%nat
  /\ CustomDocNodes.configuration
       (snd (CustomDocNodes.configuration CustomDocNodes.initialProcess))
     = (inr 0%nat, snd (CustomDocNodes.configuration CustomDocNodes.initialProcess)).
Proof.
  assert (H : CustomDocNodes._configuration
                (snd (CustomDocNodes.configuration CustomDocNodes.initialProcess))
              = Some 0%nat).
  { rewrite (proj1 (proj2 C9_configuration_is_a_memoized_singleton)
               CustomDocNodes.initialProcess eq_refl). reflexivity. }
  split; [exact H|].
  exact (proj1 C9_configuration_is_a_memoized_singleton _ 0%nat H).
Defined.

(** ** Line endings of the files written *)

Section Preservation.

Context {P : World -> Prop}.

Lemma preserves_ret {A} (x : A) : preserves P (ret x).
Proof. intros w H. exact H. Qed.

Lemma preserves_throw {A} (e : Error) : preserves P (@throw A e).
Proof. intros w H. exact H. Qed.

Lemma preserves_bind {A B} (m : M A) (k : A -> M B) :
  preserves P m -> (forall x, preserves P (k x)) -> preserves P (bind m k).
Proof.
  intros Hm Hk w H. unfold bind. specialize (Hm w H).
  destruct (m w) as [[e|x] w']; simpl in *; [exact Hm|].
  now apply Hk.
Qed.

Lemma preserves_forEach {A S} (l : list A) (body : S -> A -> M S) :
  (forall s x, preserves P (body s x)) ->
  forall s, preserves P (forEach l s body).
Proof.
  intros Hbody. induction l as [|x l IH]; intros s; simpl.
  - apply preserves_ret.
  - apply preserves_bind; [apply Hbody | exact IH].
Qed.

End Preservation.

Lemma preserves_console_log (P : World -> Prop) (line : string) :
  (forall w, P w -> P {| console := console w ++ [line]; files := files w |}) ->
  preserves P (console_log line).
Proof. intros H w Hw. now apply H. Qed.

Ltac preserves_step :=
  first [ apply preserves_ret
        | apply preserves_throw
        | apply preserves_bind; [|intros ?]
        | apply preserves_forEach; intros ? ? ].

Section LineEndings.

Context (env : Environment) (this : HugoDocumenter).
Hypothesis noConfig : _documenterConfig this = None.

Lemma log_keeps_files (line : string) : preserves writtenWithCrLf (console_log line).
Proof. apply preserves_console_log. intros w H. exact H. Qed.

Lemma members_keep_CrLf (apiItem : ApiItem) (output : DocSection) :
  preserves writtenWithCrLf (_getMembersAndWriteIncompleteWarning env this apiItem output).
Proof.
  unfold _getMembersAndWriteIncompleteWarning, showInheritedMembers.
  rewrite noConfig. simpl. apply preserves_ret.
Qed.

Lemma collectMemberRows_keeps_CrLf (writeApiItemPage : ApiItem -> M unit) addRow owner l :
  (forall a, preserves writtenWithCrLf (writeApiItemPage a)) ->
  preserves writtenWithCrLf (collectMemberRows writeApiItemPage addRow owner l).
Proof.
  intros Hw. unfold collectMemberRows. apply preserves_forEach. intros tables apiMember.
  destruct (addRow tables apiMember _); repeat preserves_step. apply Hw.
Qed.

Lemma writeKindSpecific_keeps_CrLf (writeApiItemPage : ApiItem -> M unit)
    (output : DocSection) (apiItem : ApiItem) :
  (forall a, preserves writtenWithCrLf (writeApiItemPage a)) ->
  preserves writtenWithCrLf (writeKindSpecific env this writeApiItemPage output apiItem).
Proof.
  intros Hw.
  assert (Hcontainer :
            forall out a,
              preserves writtenWithCrLf
                (_writePackageOrNamespaceTables env this writeApiItemPage out a)).
  { intros out a. unfold _writePackageOrNamespaceTables.
    apply preserves_bind.
    - destruct (ApiItemKind.eqb _ _); repeat preserves_step. apply Hw.
    - intros out'. apply preserves_bind; [|intros ?; apply preserves_ret].
      apply preserves_forEach. intros tables apiMember.
      destruct (addContainerRow _ _ _ _); repeat preserves_step. apply Hw. }
  unfold writeKindSpecific.
  destruct (kind (item this apiItem)); try apply preserves_ret;
    try apply preserves_throw; try apply Hcontainer.
  - unfold _writeClassTables. apply preserves_bind; [apply members_keep_CrLf|].
    intros [apiMembers out]. apply preserves_bind; [|intros ?; apply preserves_ret].
    now apply collectMemberRows_keeps_CrLf.
  - unfold _writeInterfaceTables. apply preserves_bind; [apply members_keep_CrLf|].
    intros [apiMembers out]. apply preserves_bind; [|intros ?; apply preserves_ret].
    now apply collectMemberRows_keeps_CrLf.
  - unfold _writeModelTable. apply preserves_bind; [|intros ?; apply preserves_ret].
    apply preserves_forEach. intros table apiMember.
    destruct (kind (item this apiMember)); repeat preserves_step. apply Hw.
Qed.

Lemma pageFrontMatter_keeps_CrLf (apiItem : ApiItem) :
  preserves writtenWithCrLf (pageFrontMatter env this apiItem).
Proof.
  unfold pageFrontMatter.
  destruct (kind (item this apiItem)); try apply preserves_ret; try apply preserves_throw.
  - destruct (String.eqb _ _); [apply preserves_ret|].
    destruct (parent apiItem); [apply preserves_ret | apply preserves_throw].
  - apply preserves_bind; [apply log_keeps_files | intros ?; apply preserves_ret].
Qed.

Lemma buildPage_keeps_CrLf (writeApiItemPage : ApiItem -> M unit) (apiItem : ApiItem) :
  (forall a, preserves writtenWithCrLf (writeApiItemPage a)) ->
  preserves writtenWithCrLf (buildPage env this writeApiItemPage apiItem).
Proof.
  intros Hw. unfold buildPage.
  apply preserves_bind; [apply pageFrontMatter_keeps_CrLf|].
  intros [frontMatter|]; [|apply preserves_ret].
  apply preserves_bind; [now apply writeKindSpecific_keeps_CrLf|].
  intros output. apply preserves_ret.
Qed.

Lemma writePage_CrLf (apiItem : ApiItem) (frontMatter : FrontMatter) (output : DocSection) :
  preserves writtenWithCrLf (writePage env this apiItem frontMatter output).
Proof.
  intros w H. unfold writePage, FileSystem_writeFile, writtenWithCrLf. simpl.
  apply Forall_app. split; [exact H|].
  constructor; [|constructor]. simpl. now rewrite noConfig.
Qed.

Lemma writeApiItemPage_keeps_CrLf (fuel : nat) :
  forall apiItem, preserves writtenWithCrLf (_writeApiItemPage env this fuel apiItem).
Proof.
  induction fuel as [|fuel IH]; intros apiItem; simpl.
  - apply preserves_throw.
  - apply preserves_bind; [now apply buildPage_keeps_CrLf|].
    intros [[frontMatter output]|]; [apply writePage_CrLf | apply preserves_ret].
Qed.

Lemma generateFiles_CrLf (fuel : nat) (w : World) :
  writtenWithCrLf (snd (generateFiles env this fuel w)).
Proof.
  unfold generateFiles, _deleteOldOutputFiles, bind, console_log,
    FileSystem_ensureEmptyFolder. simpl.
  apply writeApiItemPage_keeps_CrLf. constructor.
Qed.

End LineEndings.

(** C10.  A documenter constructed without a configuration, as
    [HugoAction.onExecute] constructs it, writes every page file with the
    line ending option [CrLf]: this holds of every file written by a page
    writer and of all the files a run of [generateFiles] leaves, whether
    the run ends normally or with an error. *)
Theorem C10_pages_written_with_CrLf :
  forall env (this : HugoDocumenter) (fuel : nat) (w : World),
    _documenterConfig this = None ->
    writtenWithCrLf (snd (generateFiles env this fuel w))
    /\ (forall apiItem,
          writtenWithCrLf w ->
          writtenWithCrLf (snd (_writeApiItemPage env this fuel apiItem w)))
    /\ (forall apiModel outputFolder,
          writtenWithCrLf (snd (HugoAction_onExecute env apiModel outputFolder fuel w))).
Proof.
  intros env this fuel w noConfig. split; [|split].
  - now apply generateFiles_CrLf.
  - intros apiItem H. now apply writeApiItemPage_keeps_CrLf.
  - intros apiModel outputFolder. unfold HugoAction_onExecute.
    now apply generateFiles_CrLf.
Qed.

(** The run over the widgets model writes five pages, each with [CrLf]. *)
Lemma C10_pages_written_witness :
  let model := Examples.widgetsModel "(constructor)" in
  let env := Examples.environment model [] Examples.noInheritance in
  let this := Examples.documenter model None in
  _documenterConfig this = None
  /\ length (files (snd (generateFiles env this 6 Examples.emptyWorld))) = 5%nat
  /\ writtenWithCrLf (snd (generateFiles env this 6 Examples.emptyWorld)).
Proof.
  intros model env this.
  split; [reflexivity | split; [vm_compute; reflexivity |]].
  exact (proj1 (C10_pages_written_with_CrLf env this 6 Examples.emptyWorld eq_refl)).
Defined.

(** ** What the writers append to a page body *)

Lemma appendSection_app (docSection output : DocSection) :
  _appendSection output docSection = output ++ docSection.
Proof.
  unfold _appendSection. revert output.
  induction docSection as [|node rest IH]; intros output; simpl.
  - now rewrite app_nil_r.
  - rewrite IH. unfold appendNode. now rewrite <- app_assoc.
Qed.

Lemma appendTable_app (output : DocSection) heading headerTitles rows :
  appendTable output heading headerTitles rows
  = output ++ appendTable [] heading headerTitles rows.
Proof.
  unfold appendTable, appendNode.
  destruct (0 <? length rows)%nat; [now rewrite <- app_assoc | now rewrite app_nil_r].
Qed.

Lemma appendTable_app2 (output added : DocSection) heading headerTitles rows :
  appendTable (output ++ added) heading headerTitles rows
  = output ++ appendTable added heading headerTitles rows.
Proof.
  rewrite (appendTable_app (output ++ added)), (appendTable_app added).
  now rewrite app_assoc.
Qed.

Lemma forEach_log (f : string -> string) (l : list string) :
  forall w,
    forEach l tt (fun _ message => console_log (f message)) w
    = (inr tt, {| console := console w ++ map f l; files := files w |}).
Proof.
  induction l as [|message l IH]; intros w; simpl.
  - unfold ret. rewrite app_nil_r. now destruct w.
  - unfold bind, console_log. rewrite IH. simpl. now rewrite <- app_assoc.
Qed.

Section Writers.

Context (env : Environment) (this : HugoDocumenter).

Lemma examples_fold (count : nat) (blocks : list DocBlock) :
  forall (output added : DocSection) (exampleNumber : Z),
    fst (fold_left
           (fun (state : DocSection * Z) exampleBlock =>
              let '(output, exampleNumber) := state in
              (_appendSection (appendNode output (DocHeading (exampleHeading count exampleNumber)))
                              (blockContent exampleBlock),
               (exampleNumber + 1)%Z))
           blocks (output ++ added, exampleNumber))
    = output
      ++ fst (fold_left
                (fun (state : DocSection * Z) exampleBlock =>
                   let '(output, exampleNumber) := state in
                   (_appendSection
                      (appendNode output (DocHeading (exampleHeading count exampleNumber)))
                      (blockContent exampleBlock),
                    (exampleNumber + 1)%Z))
                blocks (added, exampleNumber)).
Proof.
  induction blocks as [|block blocks IH]; intros output added exampleNumber; simpl.
  - reflexivity.
  - rewrite !appendSection_app. unfold appendNode.
    rewrite <- !app_assoc. apply IH.
Qed.

Lemma writeRemarksSection_app (output : DocSection) (apiItem : ApiItem) :
  _writeRemarksSection this output apiItem
  = output ++ _writeRemarksSection this [] apiItem.
Proof.
  unfold _writeRemarksSection.
  destruct (documentedComment this apiItem) as [tsdocComment|]; [|now rewrite app_nil_r].
  destruct (remarksBlock tsdocComment) as [block|].
  - rewrite !appendSection_app. unfold appendNode. simpl.
    rewrite <- app_assoc. apply examples_fold.
  - rewrite <- (app_nil_r output) at 1. apply examples_fold.
Qed.

Lemma throws_fold (blocks : list DocBlock) :
  forall output added : DocSection,
    fold_left (fun output throwsBlock => _appendSection output (blockContent throwsBlock))
              blocks (output ++ added)
    = output
      ++ fold_left (fun output throwsBlock => _appendSection output (blockContent throwsBlock))
                   blocks added.
Proof.
  induction blocks as [|block blocks IH]; intros output added; simpl; [reflexivity|].
  rewrite !appendSection_app, <- app_assoc. apply IH.
Qed.

Lemma writeThrowsSection_app (output : DocSection) (apiItem : ApiItem) :
  _writeThrowsSection this output apiItem
  = output ++ _writeThrowsSection this [] apiItem.
Proof.
  unfold _writeThrowsSection.
  destruct (documentedComment this apiItem) as [tsdocComment|]; [|now rewrite app_nil_r].
  destruct (0 <? length _)%nat; [|now rewrite app_nil_r].
  unfold appendNode. simpl. apply throws_fold.
Qed.

Lemma writeParameterTables_app (output : DocSection) (apiItem : ApiItem) :
  _writeParameterTables env this output apiItem
  = output ++ _writeParameterTables env this [] apiItem.
Proof.
  unfold _writeParameterTables. cbv zeta.
  rewrite (appendTable_app output).
  destruct (ApiReturnTypeMixin_isBaseClassOf _); [|reflexivity].
  destruct (documentedComment this apiItem) as [tsdocComment|];
    [destruct (returnsBlock tsdocComment)|];
    rewrite ?appendSection_app; unfold appendNode; now rewrite <- !app_assoc.
Qed.

Lemma writeEnumTables_app (output : DocSection) (apiItem : ApiItem) :
  _writeEnumTables env this output apiItem
  = output ++ _writeEnumTables env this [] apiItem.
Proof. unfold _writeEnumTables. apply appendTable_app. Qed.

Lemma appendContainerTables_app2 (output added : DocSection) (t : ContainerTables) :
  appendContainerTables (output ++ added) t = output ++ appendContainerTables added t.
Proof. unfold appendContainerTables. cbv zeta. now rewrite !appendTable_app2. Qed.

Lemma appendContainerTables_app (output : DocSection) (t : ContainerTables) :
  appendContainerTables output t = output ++ appendContainerTables [] t.
Proof. rewrite <- (app_nil_r output) at 1. apply appendContainerTables_app2. Qed.

Lemma appendClassTables_app2 (output added : DocSection) (t : MemberTables) :
  appendClassTables (output ++ added) t = output ++ appendClassTables added t.
Proof. unfold appendClassTables. cbv zeta. now rewrite !appendTable_app2. Qed.

Lemma appendClassTables_app (output : DocSection) (t : MemberTables) :
  appendClassTables output t = output ++ appendClassTables [] t.
Proof. rewrite <- (app_nil_r output) at 1. apply appendClassTables_app2. Qed.

Lemma appendInterfaceTables_app2 (output added : DocSection) (t : MemberTables) :
  appendInterfaceTables (output ++ added) t = output ++ appendInterfaceTables added t.
Proof. unfold appendInterfaceTables. cbv zeta. now rewrite !appendTable_app2. Qed.

Lemma appendInterfaceTables_app (output : DocSection) (t : MemberTables) :
  appendInterfaceTables output t = output ++ appendInterfaceTables [] t.
Proof. rewrite <- (app_nil_r output) at 1. apply appendInterfaceTables_app2. Qed.

(** [_getMembersAndWriteIncompleteWarning] always returns: the members,
    the output with the advisory paragraph when the inheritance result
    may be incomplete, and one console line for each message. *)
Lemma getMembers_spec (apiItem : ApiItem) (output : DocSection) (w : World) :
  _getMembersAndWriteIncompleteWarning env this apiItem output w
  = if showInheritedMembers this
    then (inr (items (findMembersWithInheritance env apiItem),
               output
               ++ (if maybeIncompleteResult (findMembersWithInheritance env apiItem)
                   then [incompleteWarning] else [])),
          {| console :=
               console w
               ++ map diagnosticLine (messages (findMembersWithInheritance env apiItem));
             files := files w |})
    else (inr (members this apiItem, output), w).
Proof.
  unfold _getMembersAndWriteIncompleteWarning.
  destruct (showInheritedMembers this); simpl; [|reflexivity].
  unfold bind. rewrite forEach_log. unfold ret, appendNode, incompleteWarning.
  destruct (maybeIncompleteResult _); [reflexivity | now rewrite app_nil_r].
Qed.

Lemma writeModelTable_app writeApiItemPage (output : DocSection) apiItem (w : World) :
  _writeModelTable env this writeApiItemPage output apiItem w
  = extending output (_writeModelTable env this writeApiItemPage [] apiItem w).
Proof.
  unfold _writeModelTable, bind.
  destruct (forEach _ _ _ w) as [[e|rows] w1]; simpl; [reflexivity|].
  unfold ret. now rewrite (appendTable_app output).
Qed.

Lemma writeContainerTables_app writeApiItemPage (output : DocSection) apiItem (w : World) :
  _writePackageOrNamespaceTables env this writeApiItemPage output apiItem w
  = extending output (_writePackageOrNamespaceTables env this writeApiItemPage [] apiItem w).
Proof.
  unfold _writePackageOrNamespaceTables. cbv zeta.
  destruct (ApiItemKind.eqb (kind (item this apiItem)) ApiItemKind.Package).
  - unfold bind. destruct (forEach (members this apiItem) _ _ w) as [[e|entrypoints] w1];
      simpl; [reflexivity|].
    unfold ret.
    destruct (forEach _ emptyContainerTables _ w1) as [[e|tables] w2];
      simpl; [reflexivity|].
    destruct (1 <? length entrypoints)%nat; unfold appendNode; simpl.
    + rewrite <- app_assoc. now rewrite appendContainerTables_app2.
    + now rewrite (appendContainerTables_app output).
  - unfold bind, ret.
    destruct (forEach _ emptyContainerTables _ w) as [[e|tables] w2];
      simpl; [reflexivity|].
    now rewrite (appendContainerTables_app output).
Qed.

Lemma writeClassTables_app writeApiItemPage (output : DocSection) apiItem (w : World) :
  _writeClassTables env this writeApiItemPage output apiItem w
  = extending output (_writeClassTables env this writeApiItemPage [] apiItem w).
Proof.
  unfold _writeClassTables, bind. rewrite !getMembers_spec.
  destruct (showInheritedMembers this);
    destruct (collectMemberRows _ _ _ _ _) as [[e|tables] w1]; simpl; try reflexivity;
    unfold ret.
  - now rewrite appendClassTables_app2.
  - now rewrite (appendClassTables_app output).
Qed.

Lemma writeInterfaceTables_app writeApiItemPage (output : DocSection) apiItem (w : World) :
  _writeInterfaceTables env this writeApiItemPage output apiItem w
  = extending output (_writeInterfaceTables env this writeApiItemPage [] apiItem w).
Proof.
  unfold _writeInterfaceTables, bind. rewrite !getMembers_spec.
  destruct (showInheritedMembers this);
    destruct (collectMemberRows _ _ _ _ _) as [[e|tables] w1]; simpl; try reflexivity;
    unfold ret.
  - now rewrite appendInterfaceTables_app2.
  - now rewrite (appendInterfaceTables_app output).
Qed.

(** Every writer of kind-specific content but the one of an entry point
    appends to the output it is given, and what it appends does not
    depend on that output. *)
Lemma writeKindSpecific_app writeApiItemPage (output : DocSection) apiItem (w : World) :
  kind (item this apiItem) <> ApiItemKind.EntryPoint ->
  writeKindSpecific env this writeApiItemPage output apiItem w
  = extending output (writeKindSpecific env this writeApiItemPage [] apiItem w).
Proof.
  intros notEntryPoint. unfold writeKindSpecific.
  destruct (kind (item this apiItem)); try congruence;
    try (unfold ret, throw; simpl; now rewrite ?app_nil_r);
    try apply writeClassTables_app; try apply writeInterfaceTables_app;
    try apply writeContainerTables_app; try apply writeModelTable_app;
    try (unfold ret; simpl; f_equal; f_equal;
         rewrite writeThrowsSection_app, writeParameterTables_app,
           (writeThrowsSection_app (_writeParameterTables _ _ _ _));
         now rewrite <- app_assoc).
  unfold ret. simpl. now rewrite writeEnumTables_app.
Qed.

Lemma documentedComment_undocumented (apiItem : ApiItem) :
  isApiDocumentedItem (kind (item this apiItem)) = false ->
  documentedComment this apiItem = None.
Proof. intros H. unfold documentedComment. now rewrite H. Qed.

(** The page of an item that is neither documented nor declared starts
    empty: this is the case of the model and of an entry point. *)
Lemma pageIntroduction_undocumented (apiItem : ApiItem) :
  isApiDocumentedItem (kind (item this apiItem)) = false ->
  pageIntroduction env this apiItem = [] /\ _writeRemarksSection this [] apiItem = [].
Proof.
  intros H. unfold pageIntroduction, _writeRemarksSection.
  rewrite (documentedComment_undocumented apiItem H).
  unfold isApiDocumentedItem in H. apply orb_false_elim in H as [Hdeclared _].
  unfold ApiReleaseTagMixin_isBaseClassOf. now rewrite Hdeclared.
Qed.

End Writers.

(** ** The place of the remarks *)

Lemma buildPage_inv env this writeApiItemPage (apiItem : ApiItem) (w w' : World)
    (frontMatter : FrontMatter) (body : DocSection) :
  buildPage env this writeApiItemPage apiItem w = (inr (Some (frontMatter, body)), w') ->
  exists w0 written,
    pageFrontMatter env this apiItem w = (inr (Some frontMatter), w0)
    /\ writeKindSpecific env this writeApiItemPage
         (if remarksBeforeTables (kind (item this apiItem))
          then _writeRemarksSection this (pageIntroduction env this apiItem) apiItem
          else pageIntroduction env this apiItem)
         apiItem w0
       = (inr written, w')
    /\ body = if negb (remarksBeforeTables (kind (item this apiItem)))
              then _writeRemarksSection this written apiItem
              else written.
Proof.
  unfold buildPage, bind. intros H.
  destruct (pageFrontMatter env this apiItem w) as [[e|[frontMatter0|]] w0];
    try discriminate H.
  destruct (writeKindSpecific _ _ _ _ _ w0) as [[e|written] w1] eqn:Hw;
    try discriminate H.
  unfold ret in H. injection H as <- <- <-.
  exists w0, written. now rewrite Hw.
Qed.

(** C7.  On the page of a class, an interface, a namespace, a package or
    the model, the remarks and the examples come before the content that
    depends on the kind (the member tables); on the page of any other
    kind they come after it.  The model has no comment, so its remarks
    are empty wherever they are written. *)
Theorem C7_remarks_before_tables_of_containers :
  forall env this writeApiItemPage (apiItem : ApiItem) (w w' : World)
         (frontMatter : FrontMatter) (body : DocSection),
    buildPage env this writeApiItemPage apiItem w
    = (inr (Some (frontMatter, body)), w') ->
    exists w0 content,
      pageFrontMatter env this apiItem w = (inr (Some frontMatter), w0)
      /\ writeKindSpecific env this writeApiItemPage [] apiItem w0 = (inr content, w')
      /\ body
         = if isContainerLike (kind (item this apiItem))
           then pageIntroduction env this apiItem
                ++ _writeRemarksSection this [] apiItem ++ content
           else pageIntroduction env this apiItem
                ++ content ++ _writeRemarksSection this [] apiItem.
Proof.
  intros env this writeApiItemPage apiItem w w' frontMatter body H.
  apply buildPage_inv in H as (w0 & written & Hfm & Hw & ->).
  exists w0.
  destruct (ApiItemKind.eqb (kind (item this apiItem)) ApiItemKind.EntryPoint) eqn:Hep.
  - assert (Hk : kind (item this apiItem) = ApiItemKind.EntryPoint)
      by (destruct (kind (item this apiItem)); try discriminate Hep; reflexivity).
    destruct (pageIntroduction_undocumented env this apiItem) as [Hintro Hremarks];
      [now rewrite Hk|].
    rewrite Hk in *. simpl in *. rewrite Hintro in Hw.
    exists written. split; [exact Hfm | split; [exact Hw |]].
    rewrite Hintro. simpl. rewrite writeRemarksSection_app, Hremarks.
    now rewrite !app_nil_r.
  - assert (Hk : kind (item this apiItem) <> ApiItemKind.EntryPoint)
      by (intros E; rewrite E in Hep; discriminate Hep).
    rewrite writeKindSpecific_app in Hw by exact Hk.
    destruct (writeKindSpecific env this writeApiItemPage [] apiItem w0)
      as [[e|content] w1] eqn:Hc; simpl in Hw; [discriminate Hw|].
    injection Hw as <- <-.
    exists content. split; [exact Hfm | split; [reflexivity |]].
    destruct (kind (item this apiItem)) eqn:K; simpl;
      rewrite ?(writeRemarksSection_app this (_ ++ _)),
        ?(writeRemarksSection_app this (pageIntroduction env this apiItem));
      rewrite <- ?app_assoc; try reflexivity.
    (* the model: its remarks are empty *)
    destruct (pageIntroduction_undocumented env this apiItem) as [_ Hremarks];
      [now rewrite K|].
    rewrite Hremarks. simpl. now rewrite app_nil_r.
Qed.

(** The page of the class [Widget] and the page of its method. *)
Lemma C7_remarks_order_witness :
  let frontMatter := {| title := "Widget class"; menuMainWeight := None |} in
  let body :=
    [DocParagraph [DocPlainText "Summary."];
     DocParagraph [boldText "Signature:"];
     DocFencedCode "export declare class Widget" "typescript";
     DocHeading "Remarks";
     DocParagraph [DocPlainText "About widgets."];
     DocHeading "Methods";
     DocTable ["Method"; "Modifiers"; "Description"]
       [[[DocParagraph
            [DocLinkTag "render" "/docs/widgets/_root/Widget/render/_index.md"]];
         []; [DocParagraph [DocPlainText "Summary."]]]]] in
  buildPage RemarksOrder.env RemarksOrder.this RemarksOrder.noPages RemarksOrder.widget
    Examples.emptyWorld
  = (inr (Some (frontMatter, body)), Examples.emptyWorld)
  /\ exists w0 content,
       pageFrontMatter RemarksOrder.env RemarksOrder.this RemarksOrder.widget
         Examples.emptyWorld = (inr (Some frontMatter), w0)
       /\ writeKindSpecific RemarksOrder.env RemarksOrder.this RemarksOrder.noPages []
            RemarksOrder.widget w0 = (inr content, Examples.emptyWorld)
       /\ body
          = pageIntroduction RemarksOrder.env RemarksOrder.this RemarksOrder.widget
            ++ _writeRemarksSection RemarksOrder.this [] RemarksOrder.widget ++ content.
Proof.
  intros frontMatter body.
  assert (H : buildPage RemarksOrder.env RemarksOrder.this RemarksOrder.noPages
                RemarksOrder.widget Examples.emptyWorld
              = (inr (Some (frontMatter, body)), Examples.emptyWorld))
    by (vm_compute; reflexivity).
  split; [exact H|].
  exact (C7_remarks_before_tables_of_containers RemarksOrder.env RemarksOrder.this
           RemarksOrder.noPages RemarksOrder.widget _ _ _ _ H).
Defined.

Example method_remarks_come_last :
  buildPage RemarksOrder.env RemarksOrder.this RemarksOrder.noPages RemarksOrder.render
    Examples.emptyWorld
  = (inr (Some ({| title := "render method"; menuMainWeight := None |},
                [DocParagraph [DocPlainText "Summary."];
                 DocParagraph [boldText "Signature:"];
                 DocFencedCode "render(): void;" "typescript";
                 DocParagraph [];
                 DocParagraph [boldText "Returns:"];
                 DocParagraph [DocPlainText "(not declared)"];
                 DocHeading "Remarks";
                 DocParagraph [DocPlainText "About rendering."]])),
     Examples.emptyWorld).
Proof. vm_compute. reflexivity. Qed.

(** ** The advisory paragraph of an incomplete inheritance result *)

(** C8, amended.  With inherited members shown and an inheritance result
    that may be incomplete, [_getMembersAndWriteIncompleteWarning] returns
    the members found, appends the italic advisory paragraph to the output
    it is given and writes one console line for each message; it raises
    nothing.  On the page of the class or interface the paragraph is
    therefore the first node of the member tables part: it follows the
    introduction of the page and the remarks and examples. *)
Theorem C8_incomplete_warning_before_member_tables :
  forall env this writeApiItemPage (apiItem : ApiItem),
    kind (item this apiItem) = ApiItemKind.Class
    \/ kind (item this apiItem) = ApiItemKind.Interface ->
    showInheritedMembers this = true ->
    maybeIncompleteResult (findMembersWithInheritance env apiItem) = true ->
    (forall (output : DocSection) (w : World),
        _getMembersAndWriteIncompleteWarning env this apiItem output w
        = (inr (items (findMembersWithInheritance env apiItem),
                output ++ [incompleteWarning]),
           {| console :=
                console w
                ++ map diagnosticLine (messages (findMembersWithInheritance env apiItem));
              files := files w |}))
    /\ (forall (w w' : World) (frontMatter : FrontMatter) (body : DocSection),
          buildPage env this writeApiItemPage apiItem w
          = (inr (Some (frontMatter, body)), w') ->
          exists tables,
            body
            = pageIntroduction env this apiItem
              ++ _writeRemarksSection this [] apiItem
              ++ incompleteWarning
                 :: (if ApiItemKind.eqb (kind (item this apiItem)) ApiItemKind.Class
                     then appendClassTables [] tables
                     else appendInterfaceTables [] tables)).
Proof.
  intros env this writeApiItemPage apiItem Hkind Hshow Hincomplete. split.
  - intros output w. rewrite getMembers_spec, Hshow, Hincomplete. reflexivity.
  - intros w w' frontMatter body H.
    apply buildPage_inv in H as (w0 & written & _ & Hw & ->).
    unfold writeKindSpecific in Hw.
    destruct Hkind as [Hk|Hk]; rewrite Hk in *; simpl in *.
    + unfold _writeClassTables, bind in Hw.
      rewrite getMembers_spec, Hshow, Hincomplete in Hw.
      destruct (collectMemberRows _ _ _ _ _) as [[e|tables] w1]; [discriminate Hw|].
      unfold ret in Hw. injection Hw as <- <-. exists tables.
      rewrite (writeRemarksSection_app this (pageIntroduction env this apiItem)).
      rewrite (appendClassTables_app (_ ++ [incompleteWarning])).
      now rewrite <- !app_assoc.
    + unfold _writeInterfaceTables, bind in Hw.
      rewrite getMembers_spec, Hshow, Hincomplete in Hw.
      destruct (collectMemberRows _ _ _ _ _) as [[e|tables] w1]; [discriminate Hw|].
      unfold ret in Hw. injection Hw as <- <-. exists tables.
      rewrite (writeRemarksSection_app this (pageIntroduction env this apiItem)).
      rewrite (appendInterfaceTables_app (_ ++ [incompleteWarning])).
      now rewrite <- !app_assoc.
Qed.

Lemma C8_incomplete_warning_witness :
  kind (item InheritedMembers.this InheritedMembers.widget) = ApiItemKind.Class
  /\ showInheritedMembers InheritedMembers.this = true
  /\ maybeIncompleteResult
       (findMembersWithInheritance InheritedMembers.env InheritedMembers.widget) = true
  /\ _getMembersAndWriteIncompleteWarning InheritedMembers.env InheritedMembers.this
       InheritedMembers.widget [] Examples.emptyWorld
     = (inr ([[0; 0; 0; 0]%nat], [incompleteWarning]),
        {| console :=
             ["Diagnostic message for findMembersWithInheritance: "
              +:+ "Unable to analyze references of extends clause for Widget"];
           files := [] |}).
Proof.
  assert (Hk : kind (item InheritedMembers.this InheritedMembers.widget)
               = ApiItemKind.Class) by reflexivity.
  assert (Hs : showInheritedMembers InheritedMembers.this = true) by reflexivity.
  assert (Hi : maybeIncompleteResult
                 (findMembersWithInheritance InheritedMembers.env InheritedMembers.widget)
               = true) by reflexivity.
  split; [exact Hk | split; [exact Hs | split; [exact Hi |]]].
  exact (proj1 (C8_incomplete_warning_before_member_tables InheritedMembers.env
                  InheritedMembers.this InheritedMembers.noPages InheritedMembers.widget
                  (or_introl Hk) Hs Hi) [] Examples.emptyWorld).
Defined.

(** The page of [Widget] is built without an error and holds the advisory
    paragraph, but its first node is the signature paragraph: the
    advisory paragraph is the third node. *)
Lemma C8_advisory_not_first_counterexample :
  showInheritedMembers InheritedMembers.this = true
  /\ maybeIncompleteResult
       (findMembersWithInheritance InheritedMembers.env InheritedMembers.widget) = true
  /\ exists frontMatter body w',
       buildPage InheritedMembers.env InheritedMembers.this InheritedMembers.noPages
         InheritedMembers.widget Examples.emptyWorld
       = (inr (Some (frontMatter, body)), w')
       /\ hd_error body = Some (DocParagraph [boldText "Signature:"])
       /\ hd_error body <> Some incompleteWarning
       /\ nth_error body 2 = Some incompleteWarning.
Proof.
  split; [reflexivity | split; [reflexivity |]].
  eexists _, _, _. split; [vm_compute; reflexivity|].
  split; [reflexivity | split; [discriminate | reflexivity]].
Qed.

(** ** Tables without rows *)

Lemma tablesWellFormed_app_bounded (n : nat) :
  forall l1 l2 : DocSection,
    (length l1 <= n)%nat ->
    tablesWellFormed l1 = true -> tablesWellFormed l2 = true ->
    tablesWellFormed (l1 ++ l2) = true.
Proof.
  induction n as [|n IH]; intros l1 l2 Hlen H1 H2.
  - destruct l1; [exact H2 | simpl in Hlen; lia].
  - destruct l1 as [|node l1]; [exact H2|].
    simpl in Hlen.
    destruct node as [?| |?|? ?|? ?|?|? ? ?|heading|?|? tableRows]; simpl in *; try (apply IH; [lia | assumption | assumption]);
      try discriminate H1.
    destruct (isTableHeading heading).
    + destruct l1 as [|[] l1]; try discriminate H1.
      destruct rows; [discriminate H1|]. simpl in *.
      apply IH; [lia | assumption | assumption].
    + apply IH; [lia | assumption | assumption].
Qed.

Lemma tablesWellFormed_app (l1 l2 : DocSection) :
  tablesWellFormed l1 = true -> tablesWellFormed l2 = true ->
  tablesWellFormed (l1 ++ l2) = true.
Proof. apply (tablesWellFormed_app_bounded (length l1)). lia. Qed.

Lemma notOfTable_wellFormed (l : DocSection) :
  forallb notOfTable l = true -> tablesWellFormed l = true.
Proof.
  induction l as [|node l IH]; simpl; [reflexivity|].
  intros H. apply andb_prop in H as [Hnode Hl].
  destruct node as [?| |?|? ?|? ?|?|? ? ?|heading|?|? tableRows]; simpl in *; try (now apply IH); try discriminate Hnode.
  apply negb_true_iff in Hnode. rewrite Hnode. now apply IH.
Qed.

Lemma standard_notOfTable (l : DocSection) :
  forallb standardNode l = true -> forallb notOfTable l = true.
Proof.
  induction l as [|node l IH]; simpl; [reflexivity|].
  intros H. apply andb_prop in H as [Hnode Hl]. rewrite (IH Hl).
  destruct node; try discriminate Hnode; reflexivity.
Qed.

Lemma appendTable_wellFormed (output : DocSection) heading headerTitles rows :
  isTableHeading heading = true ->
  tablesWellFormed output = true ->
  tablesWellFormed (appendTable output heading headerTitles rows) = true.
Proof.
  intros Hh Ho. rewrite appendTable_app. apply tablesWellFormed_app; [exact Ho|].
  unfold appendTable, appendNode. destruct rows as [|row rows]; [reflexivity|].
  simpl. now rewrite Hh.
Qed.

Lemma tablesWellFormed_no_empty_table (n : nat) :
  forall (body : DocSection) headerTitles,
    (length body <= n)%nat ->
    tablesWellFormed body = true -> ~ In (DocTable headerTitles []) body.
Proof.
  induction n as [|n IH]; intros body headerTitles Hlen H Hin.
  - destruct body; [destruct Hin | simpl in Hlen; lia].
  - destruct body as [|node body]; [destruct Hin|].
    simpl in Hlen. destruct Hin as [->|Hin]; [discriminate H|].
    destruct node as [?| |?|? ?|? ?|?|? ? ?|heading|?|? tableRows]; simpl in H; try discriminate H;
      try (apply (IH body headerTitles); [lia | assumption | assumption]).
    destruct (isTableHeading heading).
    + destruct body as [|[] body]; try discriminate H.
      destruct rows; [discriminate H|].
      destruct Hin as [Heq|Hin]; [discriminate Heq|].
      simpl in Hlen. apply (IH body headerTitles); [lia | assumption | assumption].
    + apply (IH body headerTitles); [lia | assumption | assumption].
Qed.

Lemma tablesWellFormed_heading_followed (n : nat) :
  forall (before after : DocSection) t,
    (length before <= n)%nat ->
    tablesWellFormed (before ++ DocHeading t :: after) = true ->
    isTableHeading t = true ->
    exists headerTitles row rows rest,
      after = DocTable headerTitles (row :: rows) :: rest.
Proof.
  induction n as [|n IH]; intros before after t Hlen H Ht.
  - destruct before; [|simpl in Hlen; lia].
    simpl in H. rewrite Ht in H.
    destruct after as [|[] after]; try discriminate H.
    destruct rows; [discriminate H|]. now eexists _, _, _, _.
  - destruct before as [|node before].
    + simpl in H. rewrite Ht in H.
      destruct after as [|[] after]; try discriminate H.
      destruct rows; [discriminate H|]. now eexists _, _, _, _.
    + simpl in Hlen.
      destruct node as [?| |?|? ?|? ?|?|? ? ?|heading|?|? tableRows]; simpl in H; try discriminate H;
        try (apply (IH before after t); [lia | assumption | assumption]).
      destruct (isTableHeading heading).
      * destruct before as [|[] before]; simpl in H; try discriminate H.
        destruct rows; [discriminate H|].
        simpl in Hlen. apply (IH before after t); [lia | assumption | assumption].
      * apply (IH before after t); [lia | assumption | assumption].
Qed.

Lemma forallb_filter {A} (P f : A -> bool) (l : list A) :
  forallb P l = true -> forallb P (List.filter f l) = true.
Proof.
  induction l as [|x l IH]; simpl; [reflexivity|].
  intros H. apply andb_prop in H as [Hx Hl].
  destruct (f x); simpl; [rewrite Hx|]; now apply IH.
Qed.

Lemma exampleHeading_notOfTable (count : nat) (exampleNumber : Z) :
  isTableHeading (exampleHeading count exampleNumber) = false.
Proof.
  unfold exampleHeading. destruct (1 <? count)%nat; [|reflexivity].
  repeat rewrite append_cons. rewrite append_nil_l. reflexivity.
Qed.

Section TablesOfPages.

Context (env : Environment) (this : HugoDocumenter).

Lemma heritageTypes_notOfTable (output : DocSection) (apiItem : ApiItem) :
  forallb notOfTable output = true ->
  forallb notOfTable (_writeHeritageTypes env this output apiItem) = true.
Proof.
  intros H. unfold _writeHeritageTypes, heritageList. cbv zeta.
  assert (Hp : forall (o : DocSection) p,
             forallb notOfTable o = true ->
             forallb notOfTable (appendNode o (DocParagraph p)) = true).
  { intros o p Ho. unfold appendNode. now rewrite forallb_app, Ho. }
  destruct (ApiItemKind.eqb _ ApiItemKind.Class);
    destruct (ApiItemKind.eqb _ ApiItemKind.Interface);
    destruct (ApiItemKind.eqb _ ApiItemKind.TypeAlias);
    repeat first
      [ exact H
      | apply Hp
      | destruct (fold_left (referencesStep env this) _ _) as [[? ?] ?]
      | match goal with
        | |- context [if ?c then _ else _] => destruct c
        | |- context [match extendsType ?d with _ => _ end] => destruct (extendsType d)
        end ].
Qed.

Lemma decorators_notOfTable (blocks : list DocBlock) :
  forall output : DocSection,
    forallb standardBlock blocks = true ->
    forallb notOfTable output = true ->
    forallb notOfTable
      (fold_left (fun output decoratorBlock => appendNodes output (blockContent decoratorBlock))
                 blocks output) = true.
Proof.
  induction blocks as [|block blocks IH]; intros output Hb Ho; simpl; [exact Ho|].
  simpl in Hb. apply andb_prop in Hb as [Hblock Hblocks].
  apply IH; [exact Hblocks|].
  unfold appendNodes. rewrite forallb_app, Ho. simpl.
  now apply standard_notOfTable.
Qed.

Lemma pageIntroduction_notOfTable (apiItem : ApiItem) :
  commentIsStandard this apiItem = true ->
  forallb notOfTable (pageIntroduction env this apiItem) = true.
Proof.
  unfold commentIsStandard, pageIntroduction. cbv zeta. intros Hstd.
  match goal with
  | |- context [if ApiReleaseTagMixin_isBaseClassOf ?k then ?warned else ?plain] =>
      set (output0 := if ApiReleaseTagMixin_isBaseClassOf k then warned else plain)
  end.
  assert (H0 : forallb notOfTable output0 = true).
  { unfold output0. destruct (ApiReleaseTagMixin_isBaseClassOf _); [|reflexivity].
    now destruct (releaseTag (item this apiItem)). }
  clearbody output0.
  destruct (documentedComment this apiItem) as [comment|].
  - unfold standardComment in Hstd.
    apply andb_prop in Hstd as [Hstd Hcustom]. apply andb_prop in Hstd as [Hstd _].
    apply andb_prop in Hstd as [Hsummary _].
    set (output1 := _appendSection _ (summarySection comment)).
    assert (H1 : forallb notOfTable output1 = true).
    { unfold output1. rewrite appendSection_app, forallb_app.
      rewrite (standard_notOfTable _ Hsummary).
      destruct (deprecatedBlock comment); unfold appendNode;
        rewrite ?forallb_app, H0; reflexivity. }
    clearbody output1.
    set (output2 := if isApiDeclaredItem _ then _ else output1).
    assert (H2 : forallb notOfTable output2 = true).
    { unfold output2. destruct (isApiDeclaredItem _); [|exact H1].
      apply heritageTypes_notOfTable.
      destruct (0 <? String.length _)%nat; [|exact H1].
      unfold appendNode. rewrite !forallb_app, H1. reflexivity. }
    clearbody output2.
    destruct (0 <? length _)%nat; [|exact H2].
    apply decorators_notOfTable.
    + now apply forallb_filter.
    + unfold appendNode. rewrite forallb_app, H2. reflexivity.
  - set (output2 := if isApiDeclaredItem _ then _ else output0).
    assert (H2 : forallb notOfTable output2 = true).
    { unfold output2. destruct (isApiDeclaredItem _); [|exact H0].
      apply heritageTypes_notOfTable.
      destruct (0 <? String.length _)%nat; [|exact H0].
      unfold appendNode. rewrite !forallb_app, H0. reflexivity. }
    exact H2.
Qed.

Lemma examples_notOfTable (count : nat) (blocks : list DocBlock) :
  forall (output : DocSection) (exampleNumber : Z),
    forallb standardBlock blocks = true ->
    forallb notOfTable output = true ->
    forallb notOfTable
      (fst (fold_left
              (fun (state : DocSection * Z) exampleBlock =>
                 let '(output, exampleNumber) := state in
                 (_appendSection
                    (appendNode output (DocHeading (exampleHeading count exampleNumber)))
                    (blockContent exampleBlock),
                  (exampleNumber + 1)%Z))
              blocks (output, exampleNumber))) = true.
Proof.
  induction blocks as [|block blocks IH]; intros output exampleNumber Hb Ho; simpl;
    [exact Ho|].
  simpl in Hb. apply andb_prop in Hb as [Hblock Hblocks].
  apply IH; [exact Hblocks|].
  rewrite appendSection_app. unfold appendNode. rewrite !forallb_app, Ho. simpl.
  rewrite exampleHeading_notOfTable. simpl. now apply standard_notOfTable.
Qed.

Lemma remarksSection_notOfTable (apiItem : ApiItem) :
  commentIsStandard this apiItem = true ->
  forallb notOfTable (_writeRemarksSection this [] apiItem) = true.
Proof.
  unfold commentIsStandard, _writeRemarksSection. intros Hstd.
  destruct (documentedComment this apiItem) as [comment|]; [|reflexivity].
  unfold standardComment in Hstd.
  apply andb_prop in Hstd as [Hstd Hcustom]. apply andb_prop in Hstd as [Hstd _].
  apply andb_prop in Hstd as [_ Hremarks].
  apply examples_notOfTable; [now apply forallb_filter|].
  destruct (remarksBlock comment) as [block|]; [|reflexivity].
  rewrite appendSection_app. unfold appendNode. simpl.
  now apply standard_notOfTable.
Qed.

Lemma throws_notOfTable (blocks : list DocBlock) :
  forall output : DocSection,
    forallb standardBlock blocks = true ->
    forallb notOfTable output = true ->
    forallb notOfTable
      (fold_left (fun output throwsBlock => _appendSection output (blockContent throwsBlock))
                 blocks output) = true.
Proof.
  induction blocks as [|block blocks IH]; intros output Hb Ho; simpl; [exact Ho|].
  simpl in Hb. apply andb_prop in Hb as [Hblock Hblocks].
  apply IH; [exact Hblocks|].
  rewrite appendSection_app, forallb_app, Ho. simpl. now apply standard_notOfTable.
Qed.

Lemma throwsSection_notOfTable (apiItem : ApiItem) :
  commentIsStandard this apiItem = true ->
  forallb notOfTable (_writeThrowsSection this [] apiItem) = true.
Proof.
  unfold commentIsStandard, _writeThrowsSection. intros Hstd.
  destruct (documentedComment this apiItem) as [comment|]; [|reflexivity].
  unfold standardComment in Hstd. apply andb_prop in Hstd as [_ Hcustom].
  destruct (0 <? length _)%nat; [|reflexivity].
  apply throws_notOfTable; [now apply forallb_filter | reflexivity].
Qed.

Lemma parameterTables_wellFormed (output : DocSection) (apiItem : ApiItem) :
  commentIsStandard this apiItem = true ->
  tablesWellFormed output = true ->
  tablesWellFormed (_writeParameterTables env this output apiItem) = true.
Proof.
  unfold commentIsStandard, _writeParameterTables. cbv zeta. intros Hstd Ho.
  set (table := appendTable output "Parameters" _ _).
  assert (Ht : tablesWellFormed table = true)
    by (apply appendTable_wellFormed; [reflexivity | exact Ho]).
  clearbody table.
  destruct (ApiReturnTypeMixin_isBaseClassOf _); [|exact Ht].
  destruct (documentedComment this apiItem) as [comment|].
  - unfold standardComment in Hstd.
    apply andb_prop in Hstd as [Hstd _]. apply andb_prop in Hstd as [_ Hreturns].
    destruct (returnsBlock comment) as [block|];
      rewrite ?appendSection_app; unfold appendNode; rewrite <- ?app_assoc;
      apply tablesWellFormed_app; try exact Ht;
      apply notOfTable_wellFormed; simpl; try reflexivity.
    now apply standard_notOfTable.
  - unfold appendNode. rewrite <- !app_assoc.
    apply tablesWellFormed_app; [exact Ht | reflexivity].
Qed.

Lemma containerTables_wellFormed (output : DocSection) (t : ContainerTables) :
  tablesWellFormed output = true ->
  tablesWellFormed (appendContainerTables output t) = true.
Proof.
  intros Ho. unfold appendContainerTables. cbv zeta.
  repeat (apply appendTable_wellFormed; [reflexivity|]). exact Ho.
Qed.

Lemma classTables_wellFormed (output : DocSection) (t : MemberTables) :
  tablesWellFormed output = true ->
  tablesWellFormed (appendClassTables output t) = true.
Proof.
  intros Ho. unfold appendClassTables. cbv zeta.
  repeat (apply appendTable_wellFormed; [reflexivity|]). exact Ho.
Qed.

Lemma interfaceTables_wellFormed (output : DocSection) (t : MemberTables) :
  tablesWellFormed output = true ->
  tablesWellFormed (appendInterfaceTables output t) = true.
Proof.
  intros Ho. unfold appendInterfaceTables. cbv zeta.
  repeat (apply appendTable_wellFormed; [reflexivity|]). exact Ho.
Qed.

Lemma membersOutput_wellFormed (output : DocSection) (incomplete : bool) :
  tablesWellFormed output = true ->
  tablesWellFormed (output ++ (if incomplete then [incompleteWarning] else [])) = true.
Proof.
  intros Ho. apply tablesWellFormed_app; [exact Ho|]. now destruct incomplete.
Qed.

(** What the writer of the kind-specific content returns is well formed
    when the output it extends is. *)
Lemma writeKindSpecific_wellFormed writeApiItemPage (output written : DocSection)
    (apiItem : ApiItem) (w w' : World) :
  commentIsStandard this apiItem = true ->
  tablesWellFormed output = true ->
  (kind (item this apiItem) = ApiItemKind.EntryPoint -> output = []) ->
  writeKindSpecific env this writeApiItemPage output apiItem w = (inr written, w') ->
  tablesWellFormed written = true.
Proof.
  intros Hstd Ho Hentry. unfold writeKindSpecific.
  assert (Hcontainer :
            _writePackageOrNamespaceTables env this writeApiItemPage output apiItem w
            = (inr written, w') -> tablesWellFormed written = true).
  { unfold _writePackageOrNamespaceTables, bind, ret. cbv zeta. intros H.
    destruct (ApiItemKind.eqb _ _).
    - destruct (forEach (members this apiItem) _ _ w) as [[e|entrypoints] w1];
        [discriminate H|].
      destruct (forEach _ emptyContainerTables _ w1) as [[e|tables] w2];
        [discriminate H|].
      injection H as <- <-. apply containerTables_wellFormed.
      destruct entrypoints as [|row1 [|row2 rows]]; simpl; try exact Ho.
      unfold appendNode. rewrite <- app_assoc.
      apply tablesWellFormed_app; [exact Ho | reflexivity].
    - destruct (forEach _ emptyContainerTables _ w) as [[e|tables] w2];
        [discriminate H|].
      injection H as <- <-. now apply containerTables_wellFormed. }
  destruct (kind (item this apiItem)) eqn:K; unfold ret, throw; intros H;
    try discriminate H; try (now apply Hcontainer);
    try (injection H as <- <-; try exact Ho).
  - (* class *)
    unfold _writeClassTables, bind, ret in H. rewrite getMembers_spec in H.
    destruct (showInheritedMembers this);
      destruct (collectMemberRows _ _ _ _ _) as [[e|tables] w1];
      try discriminate H; injection H as <- <-;
      apply classTables_wellFormed; [now apply membersOutput_wellFormed | exact Ho].
  - (* constructor *)
    rewrite writeThrowsSection_app. apply tablesWellFormed_app;
      [now apply parameterTables_wellFormed
      | apply notOfTable_wellFormed; now apply throwsSection_notOfTable].
  - rewrite writeThrowsSection_app. apply tablesWellFormed_app;
      [now apply parameterTables_wellFormed
      | apply notOfTable_wellFormed; now apply throwsSection_notOfTable].
  - (* entry point *)
    rewrite (Hentry eq_refl). reflexivity.
  - (* enum *)
    unfold _writeEnumTables. apply appendTable_wellFormed; [reflexivity | exact Ho].
  - rewrite writeThrowsSection_app. apply tablesWellFormed_app;
      [now apply parameterTables_wellFormed
      | apply notOfTable_wellFormed; now apply throwsSection_notOfTable].
  - (* interface *)
    unfold _writeInterfaceTables, bind, ret in H. rewrite getMembers_spec in H.
    destruct (showInheritedMembers this);
      destruct (collectMemberRows _ _ _ _ _) as [[e|tables] w1];
      try discriminate H; injection H as <- <-;
      apply interfaceTables_wellFormed; [now apply membersOutput_wellFormed | exact Ho].
  - rewrite writeThrowsSection_app. apply tablesWellFormed_app;
      [now apply parameterTables_wellFormed
      | apply notOfTable_wellFormed; now apply throwsSection_notOfTable].
  - rewrite writeThrowsSection_app. apply tablesWellFormed_app;
      [now apply parameterTables_wellFormed
      | apply notOfTable_wellFormed; now apply throwsSection_notOfTable].
  - (* model *)
    unfold _writeModelTable, bind, ret in H.
    destruct (forEach _ _ _ w) as [[e|rows] w1]; [discriminate H|].
    injection H as <- <-. apply appendTable_wellFormed; [reflexivity | exact Ho].
Qed.

Lemma body_wellFormed writeApiItemPage (apiItem : ApiItem) (w w' : World)
    (frontMatter : FrontMatter) (body : DocSection) :
  commentIsStandard this apiItem = true ->
  buildPage env this writeApiItemPage apiItem w = (inr (Some (frontMatter, body)), w') ->
  tablesWellFormed body = true.
Proof.
  intros Hstd H. apply buildPage_inv in H as (w0 & written & _ & Hw & ->).
  pose proof (pageIntroduction_notOfTable apiItem Hstd) as Hintro.
  pose proof (remarksSection_notOfTable apiItem Hstd) as Hremarks.
  assert (Hwritten : tablesWellFormed written = true).
  { apply (writeKindSpecific_wellFormed _ _ _ _ _ _ Hstd) in Hw; [exact Hw | |].
    - destruct (remarksBeforeTables _).
      + rewrite writeRemarksSection_app. apply notOfTable_wellFormed.
        now rewrite forallb_app, Hintro, Hremarks.
      + now apply notOfTable_wellFormed.
    - intros K. rewrite K. simpl.
      apply (pageIntroduction_undocumented env this apiItem). now rewrite K. }
  destruct (negb _); [|exact Hwritten].
  rewrite writeRemarksSection_app.
  apply tablesWellFormed_app; [exact Hwritten | now apply notOfTable_wellFormed].
Qed.

End TablesOfPages.

(** C5.  A table without rows is never part of a page body: [appendTable]
    appends neither the heading nor the table when there is no row, and
    in every body that [buildPage] returns, for an item whose comment is
    made of the nodes of the TSDoc parser, no table is empty and every
    table heading is followed at once by its table, which has a row. *)
Theorem C5_no_table_without_rows :
  forall env this writeApiItemPage (apiItem : ApiItem) (w w' : World)
         (frontMatter : FrontMatter) (body : DocSection),
    commentIsStandard this apiItem = true ->
    buildPage env this writeApiItemPage apiItem w
    = (inr (Some (frontMatter, body)), w') ->
    (forall (output : DocSection) heading headerTitles,
        appendTable output heading headerTitles [] = output)
    /\ tablesWellFormed body = true
    /\ (forall headerTitles, ~ In (DocTable headerTitles []) body)
    /\ (forall before heading after,
          body = before ++ DocHeading heading :: after ->
          isTableHeading heading = true ->
          exists headerTitles row rows rest,
            after = DocTable headerTitles (row :: rows) :: rest).
Proof.
  intros env this writeApiItemPage apiItem w w' frontMatter body Hstd H.
  pose proof (body_wellFormed env this _ _ _ _ _ _ Hstd H) as Hwf.
  split; [reflexivity | split; [exact Hwf | split]].
  - intros headerTitles.
    now apply (tablesWellFormed_no_empty_table (length body)).
  - intros before heading after -> Hheading.
    now apply (tablesWellFormed_heading_followed (length before) before after heading).
Qed.

(** The page of a package whose class and enum are listed, and the page
    of a class without members: the latter has no member table at all. *)
Lemma C5_no_table_without_rows_witness :
  let body :=
    [DocParagraph [boldText "Signature:"];
     DocFencedCode "export declare class Widget" "typescript"] in
  commentIsStandard EmptyTables.this EmptyTables.widget = true
  /\ buildPage EmptyTables.env EmptyTables.this EmptyTables.noPages EmptyTables.widget
       Examples.emptyWorld
     = (inr (Some ({| title := "Widget class"; menuMainWeight := None |}, body)),
        Examples.emptyWorld)
  /\ tablesWellFormed body = true
  /\ forall headerTitles, ~ In (DocTable headerTitles []) body.
Proof.
  intros body.
  assert (Hstd : commentIsStandard EmptyTables.this EmptyTables.widget = true)
    by reflexivity.
  assert (H : buildPage EmptyTables.env EmptyTables.this EmptyTables.noPages
                EmptyTables.widget Examples.emptyWorld
              = (inr (Some ({| title := "Widget class"; menuMainWeight := None |}, body)),
                 Examples.emptyWorld))
    by (vm_compute; reflexivity).
  split; [exact Hstd | split; [exact H |]].
  pose proof (C5_no_table_without_rows EmptyTables.env EmptyTables.this
                EmptyTables.noPages EmptyTables.widget _ _ _ _ Hstd H)
    as (_ & Hwf & Hempty & _).
  split; [exact Hwf | exact Hempty].
Defined.

Example package_page_lists_only_filled_tables :
  exists frontMatter w',
    buildPage EmptyTables.env EmptyTables.this EmptyTables.noPages EmptyTables.package
      Examples.emptyWorld
    = (inr (Some (frontMatter,
                  [DocHeading "Classes";
                   DocTable ["Class"; "Description"]
                     [[[DocParagraph
                          [DocLinkTag "Widget" "/docs/widgets/_root/Widget/_index.md"]];
                       []]];
                   DocHeading "Enumerations";
                   DocTable ["Enumeration"; "Description"]
                     [[[DocParagraph
                          [DocLinkTag "Colour" "/docs/widgets/_root/Colour/_index.md"]];
                       []]]])),
       w').
Proof. eexists _, _. vm_compute. reflexivity. Qed.

(* ================================================================= *)
(** * Further results *)

(** ** File names of packages, entry points and enum members *)

Section MoreFileNames.

Context (env : Environment) (this : HugoDocumenter).

(** Only the step of a package reads the item the name is computed for. *)
Lemma hierarchyStep_not_package (a b h : ApiItem) (baseName : string) :
  kind (item this h) <> ApiItemKind.Package ->
  hierarchyStep env this a baseName h = hierarchyStep env this b baseName h.
Proof.
  intros Hk. unfold hierarchyStep.
  destruct (kind (item this h)); try reflexivity. congruence.
Qed.

Lemma ancestors_length (apiItem h : ApiItem) :
  In h (ancestors apiItem) -> (length h < length apiItem)%nat.
Proof.
  induction apiItem as [|i parentItem _] using rev_ind.
  - intros [].
  - rewrite ancestors_of_member. unfold getHierarchy. rewrite <- in_rev.
    intros Hin%hierarchyUpwards_length. rewrite length_app. simpl. lia.
Qed.

Lemma baseName_of_member (apiItem : ApiItem) (i : nat) :
  baseNameOfParents env this (apiItem ++ [i])
  = hierarchyStep env this (apiItem ++ [i])
      (fold_left (hierarchyStep env this (apiItem ++ [i])) (ancestors apiItem) "")
      apiItem.
Proof.
  unfold baseNameOfParents.
  now rewrite ancestors_of_member, getHierarchy_split, fold_left_app.
Qed.

Lemma baseName_for_other (apiItem other : ApiItem) :
  (length apiItem <= length other)%nat ->
  fold_left (hierarchyStep env this other) (ancestors apiItem) ""
  = baseNameOfParents env this apiItem.
Proof.
  intros Hlen. unfold baseNameOfParents. apply fold_hierarchyStep_other.
  intros h Hin%ancestors_length. split; intros ->; lia.
Qed.

Lemma package_filename (apiPackage : ApiItem) :
  kind (item this apiPackage) = ApiItemKind.Package ->
  _getFilenameForApiItem env this apiPackage
  = (getSafeFilenameForName env (getUnscopedName env (displayName (item this apiPackage)))
     +:+ "/_root") +:+ "/_index.md".
Proof.
  intros Hk. rewrite filename_by_last_step by (rewrite Hk; discriminate).
  unfold hierarchyStep. rewrite Hk.
  now rewrite bool_decide_eq_true_2 by reflexivity.
Qed.

End MoreFileNames.

(** X1.  A package and its entry point with the empty import path have
    one file name, [<safe unscoped package name>/_root/_index.md],
    wherever the package stands in the model: a link to the package is a
    link to the page of its default entry point. *)
Theorem X1_package_shares_the_root_entry_point_page :
  forall env this (apiPackage : ApiItem) (j : nat),
    kind (item this apiPackage) = ApiItemKind.Package ->
    kind (item this (apiPackage ++ [j])) = ApiItemKind.EntryPoint ->
    displayName (item this (apiPackage ++ [j])) = "" ->
    _getFilenameForApiItem env this (apiPackage ++ [j])
    = _getFilenameForApiItem env this apiPackage
    /\ _getFilenameForApiItem env this apiPackage
       = (getSafeFilenameForName env
            (getUnscopedName env (displayName (item this apiPackage)))
          +:+ "/_root") +:+ "/_index.md".
Proof.
  intros env this apiPackage j Hp He Hname.
  split; [|now apply package_filename].
  rewrite (package_filename env this apiPackage Hp).
  rewrite filename_by_last_step by (rewrite He; discriminate).
  rewrite entryPoint_step by exact He. rewrite Hname. simpl.
  rewrite baseName_of_member. unfold hierarchyStep at 1. rewrite Hp.
  rewrite bool_decide_eq_false_2; [reflexivity|].
  intros E. apply (f_equal (@length nat)) in E. rewrite length_app in E. simpl in E. lia.
Qed.

Lemma X1_package_page_witness :
  let model := Examples.widgetsModel "constructor" in
  let env := Examples.environment model [] Examples.noInheritance in
  let this := Examples.documenter model None in
  kind (item this [0%nat]) = ApiItemKind.Package
  /\ _getFilenameForApiItem env this ([0%nat] ++ [0%nat])
     = _getFilenameForApiItem env this [0%nat]
  /\ _getFilenameForApiItem env this [0%nat] = "widgets/_root/_index.md".
Proof.
  intros model env this.
  assert (Hp : kind (item this [0%nat]) = ApiItemKind.Package) by reflexivity.
  split; [exact Hp|].
  destruct (X1_package_shares_the_root_entry_point_page env this [0%nat] 0%nat Hp
              eq_refl eq_refl) as [Hsame Hname].
  split; [exact Hsame | exact Hname].
Defined.

(** X2.  An enum member adds no segment: the file name computed for a
    member of an enum (of any parent that is neither a package nor the
    model) is the file name of that parent, so a link to an enum member
    leads to the page of its enum. *)
Theorem X2_enum_member_has_the_name_of_its_enum :
  forall env this (apiEnum : ApiItem) (i : nat),
    kind (item this (apiEnum ++ [i])) = ApiItemKind.EnumMember ->
    kind (item this apiEnum) <> ApiItemKind.Package ->
    kind (item this apiEnum) <> ApiItemKind.Model ->
    _getFilenameForApiItem env this (apiEnum ++ [i])
    = _getFilenameForApiItem env this apiEnum.
Proof.
  intros env this apiEnum i Hm Hnp Hnm.
  rewrite (filename_by_last_step env this (apiEnum ++ [i])) by (rewrite Hm; discriminate).
  rewrite (filename_by_last_step env this apiEnum) by exact Hnm.
  f_equal. unfold hierarchyStep at 1. rewrite Hm.
  rewrite baseName_of_member.
  rewrite baseName_for_other by (rewrite length_app; lia).
  now apply hierarchyStep_not_package.
Qed.

Lemma X2_enum_member_witness :
  kind (item Colours.this (Colours.colour ++ [0%nat])) = ApiItemKind.EnumMember
  /\ _getFilenameForApiItem Colours.env Colours.this (Colours.colour ++ [0%nat])
     = _getFilenameForApiItem Colours.env Colours.this Colours.colour
  /\ _getFilenameForApiItem Colours.env Colours.this Colours.colour
     = "widgets/_root/Colour/_index.md".
Proof.
  assert (Hm : kind (item Colours.this (Colours.colour ++ [0%nat]))
               = ApiItemKind.EnumMember) by reflexivity.
  split; [exact Hm | split; [|reflexivity]].
  apply (X2_enum_member_has_the_name_of_its_enum Colours.env Colours.this
           Colours.colour 0%nat Hm); discriminate.
Defined.

(** ** Errors, skipped pages and what holds of every file written *)

Lemma writePage_spec env this (apiItem : ApiItem) (frontMatter : FrontMatter)
    (output : DocSection) (w : World) :
  writePage env this apiItem frontMatter output w
  = (inr tt, {| console := console w;
                files := files w ++ [pageFile env this apiItem frontMatter output] |}).
Proof. reflexivity. Qed.

(** The front matter is there exactly for the supported kinds, the entry
    point with the empty import path left aside. *)
Lemma pageFrontMatter_some env this (apiItem : ApiItem) (w w0 : World)
    (frontMatter : FrontMatter) :
  pageFrontMatter env this apiItem w = (inr (Some frontMatter), w0) ->
  supportedKind (kind (item this apiItem)) = true
  /\ isRootEntryPoint this apiItem = false.
Proof.
  unfold pageFrontMatter, isRootEntryPoint, bind, ret, throw, console_log.
  destruct (kind (item this apiItem)); simpl; intros H; try discriminate H;
    try (split; reflexivity).
  destruct (String.eqb (displayName (item this apiItem)) ""); [discriminate H|].
  split; reflexivity.
Qed.

Lemma pageFrontMatter_none env this (apiItem : ApiItem) (w w0 : World) :
  pageFrontMatter env this apiItem w = (inr None, w0) ->
  isRootEntryPoint this apiItem = true /\ w0 = w.
Proof.
  unfold pageFrontMatter, isRootEntryPoint, bind, ret, throw, console_log.
  destruct (kind (item this apiItem)); simpl; intros H; try discriminate H.
  destruct (String.eqb (displayName (item this apiItem)) "").
  - injection H as <-. split; reflexivity.
  - destruct (parent apiItem); discriminate H.
Qed.

(** X3.  For an item of a kind without a page ([CallSignature],
    [EnumMember], [IndexSignature], [None]) [_writeApiItemPage] throws the
    error that names the kind; it has written no file and no console line
    by then. *)
Theorem X3_unsupported_kind_is_an_error :
  forall env this (apiItem : ApiItem) (fuel : nat) (w : World),
    supportedKind (kind (item this apiItem)) = false ->
    _writeApiItemPage env this (S fuel) apiItem w
    = (inl (UnsupportedApiItemKind (ApiItemKind.toString (kind (item this apiItem)))), w).
Proof.
  intros env this apiItem fuel w Hk. simpl.
  unfold buildPage, bind, pageFrontMatter.
  destruct (kind (item this apiItem)); try discriminate Hk; reflexivity.
Qed.

Lemma X3_unsupported_kind_witness :
  supportedKind (kind (item Colours.this Colours.red)) = false
  /\ _writeApiItemPage Colours.env Colours.this 1 Colours.red Examples.emptyWorld
     = (inl (UnsupportedApiItemKind "EnumMember"), Examples.emptyWorld).
Proof.
  assert (Hk : supportedKind (kind (item Colours.this Colours.red)) = false)
    by reflexivity.
  split; [exact Hk|].
  exact (X3_unsupported_kind_is_an_error Colours.env Colours.this Colours.red 0
           Examples.emptyWorld Hk).
Defined.

Section PagePreservation.

Context (env : Environment) (this : HugoDocumenter) (P : World -> Prop).
Hypothesis logKeeps : forall line, preserves P (console_log line).

Lemma getMembers_preserves (apiItem : ApiItem) (output : DocSection) :
  preserves P (_getMembersAndWriteIncompleteWarning env this apiItem output).
Proof.
  unfold _getMembersAndWriteIncompleteWarning.
  destruct (negb (showInheritedMembers this)); [apply preserves_ret|].
  apply preserves_bind; [|intros ?; apply preserves_ret].
  apply preserves_forEach. intros ? message. apply logKeeps.
Qed.

Lemma collectMemberRows_preserves (writeApiItemPage : ApiItem -> M unit) addRow owner l :
  (forall a, preserves P (writeApiItemPage a)) ->
  preserves P (collectMemberRows writeApiItemPage addRow owner l).
Proof.
  intros Hw. unfold collectMemberRows. apply preserves_forEach. intros tables apiMember.
  destruct (addRow tables apiMember _); repeat preserves_step. apply Hw.
Qed.

Lemma writeKindSpecific_preserves (writeApiItemPage : ApiItem -> M unit)
    (output : DocSection) (apiItem : ApiItem) :
  (forall a, preserves P (writeApiItemPage a)) ->
  preserves P (writeKindSpecific env this writeApiItemPage output apiItem).
Proof.
  intros Hw.
  assert (Hcontainer :
            forall out a,
              preserves P (_writePackageOrNamespaceTables env this writeApiItemPage out a)).
  { intros out a. unfold _writePackageOrNamespaceTables.
    apply preserves_bind.
    - destruct (ApiItemKind.eqb _ _); repeat preserves_step. apply Hw.
    - intros out'. apply preserves_bind; [|intros ?; apply preserves_ret].
      apply preserves_forEach. intros tables apiMember.
      destruct (addContainerRow _ _ _ _); repeat preserves_step. apply Hw. }
  unfold writeKindSpecific.
  destruct (kind (item this apiItem)); try apply preserves_ret;
    try apply preserves_throw; try apply Hcontainer.
  - unfold _writeClassTables. apply preserves_bind; [apply getMembers_preserves|].
    intros [apiMembers out]. apply preserves_bind; [|intros ?; apply preserves_ret].
    now apply collectMemberRows_preserves.
  - unfold _writeInterfaceTables. apply preserves_bind; [apply getMembers_preserves|].
    intros [apiMembers out]. apply preserves_bind; [|intros ?; apply preserves_ret].
    now apply collectMemberRows_preserves.
  - unfold _writeModelTable. apply preserves_bind; [|intros ?; apply preserves_ret].
    apply preserves_forEach. intros table apiMember.
    destruct (kind (item this apiMember)); repeat preserves_step. apply Hw.
Qed.

Lemma pageFrontMatter_preserves (apiItem : ApiItem) :
  preserves P (pageFrontMatter env this apiItem).
Proof.
  unfold pageFrontMatter.
  destruct (kind (item this apiItem)); try apply preserves_ret; try apply preserves_throw.
  - destruct (String.eqb _ _); [apply preserves_ret|].
    destruct (parent apiItem); [apply preserves_ret | apply preserves_throw].
  - apply preserves_bind; [apply logKeeps | intros ?; apply preserves_ret].
Qed.

Lemma buildPage_preserves (writeApiItemPage : ApiItem -> M unit) (apiItem : ApiItem) :
  (forall a, preserves P (writeApiItemPage a)) ->
  preserves P (buildPage env this writeApiItemPage apiItem).
Proof.
  intros Hw. unfold buildPage.
  apply preserves_bind; [apply pageFrontMatter_preserves|].
  intros [frontMatter|]; [|apply preserves_ret].
  apply preserves_bind; [now apply writeKindSpecific_preserves|].
  intros output. apply preserves_ret.
Qed.

Lemma writeApiItemPage_preserves (fuel : nat) :
  (forall a frontMatter output, preserves P (writePage env this a frontMatter output)) ->
  forall apiItem, preserves P (_writeApiItemPage env this fuel apiItem).
Proof.
  intros Hwrite. induction fuel as [|fuel IH]; intros apiItem; simpl.
  - apply preserves_throw.
  - apply preserves_bind; [now apply buildPage_preserves|].
    intros [[frontMatter output]|]; [apply Hwrite | apply preserves_ret].
Qed.

End PagePreservation.

Section FilesWritten.

Context (env : Environment) (this : HugoDocumenter) (Q : WrittenFile -> Prop).

(** A property of the page file of every page that is built holds of
    every file a page writer adds. *)
Hypothesis builtPages :
  forall writeApiItemPage apiItem w w' frontMatter output,
    buildPage env this writeApiItemPage apiItem w = (inr (Some (frontMatter, output)), w') ->
    Q (pageFile env this apiItem frontMatter output).

Lemma writeApiItemPage_files (fuel : nat) :
  forall apiItem,
    preserves (fun w => Forall Q (files w)) (_writeApiItemPage env this fuel apiItem).
Proof.
  induction fuel as [|fuel IH]; intros apiItem w Hw; simpl; [exact Hw|].
  pose proof (buildPage_preserves env this (fun w => Forall Q (files w))
                (fun line w H => H) _ apiItem IH w Hw) as Hbuilt.
  unfold bind.
  destruct (buildPage env this (_writeApiItemPage env this fuel) apiItem w)
    as [[e|[[frontMatter output]|]] w1] eqn:E; simpl in *; try exact Hbuilt.
  apply Forall_app. split; [exact Hbuilt|].
  constructor; [|constructor]. now apply (builtPages _ _ _ _ _ _ E).
Qed.

Lemma generateFiles_files (fuel : nat) (w : World) :
  Forall Q (files (snd (generateFiles env this fuel w))).
Proof.
  unfold generateFiles, _deleteOldOutputFiles, bind, console_log,
    FileSystem_ensureEmptyFolder. simpl.
  apply writeApiItemPage_files. constructor.
Qed.

End FilesWritten.


(** X5.  No file is ever written for an item of an unsupported kind or
    for the entry point with the empty import path: every file a run
    leaves belongs to an item of a supported kind that is not the root
    entry point.  The page writer called on the root entry point returns
    at once and leaves the console and the files as they are. *)
Theorem X5_root_entry_point_has_no_page :
  forall env this (fuel : nat) (w : World),
    Forall
      (fun file =>
         supportedKind (kind (item this (writtenItem file))) = true
         /\ isRootEntryPoint this (writtenItem file) = false)
      (files (snd (generateFiles env this fuel w)))
    /\ (forall apiItem,
          isRootEntryPoint this apiItem = true ->
          _writeApiItemPage env this (S fuel) apiItem w = (inr tt, w)).
Proof.
  intros env this fuel w. split.
  - apply generateFiles_files.
    intros writeApiItemPage apiItem w0 w' frontMatter output H.
    apply buildPage_inv in H as (w1 & written & Hfm & _).
    now apply pageFrontMatter_some in Hfm.
  - intros apiItem Hroot. unfold isRootEntryPoint in Hroot.
    apply andb_prop in Hroot as [Hk Hname].
    simpl. unfold buildPage, bind, pageFrontMatter.
    destruct (kind (item this apiItem)); try discriminate Hk.
    now rewrite Hname.
Qed.

Lemma X5_root_entry_point_witness :
  let model := Examples.widgetsModel "constructor" in
  let env := Examples.environment model [] Examples.noInheritance in
  let this := Examples.documenter model None in
  isRootEntryPoint this [0; 0]%nat = true
  /\ _writeApiItemPage env this 1 [0; 0]%nat Examples.emptyWorld
     = (inr tt, Examples.emptyWorld).
Proof.
  intros model env this.
  assert (H : isRootEntryPoint this [0; 0]%nat = true) by reflexivity.
  split; [exact H|].
  exact (proj2 (X5_root_entry_point_has_no_page env this 0 Examples.emptyWorld) _ H).
Defined.

(** ** Runs that end normally *)

Lemma succeeds_ret {A} (x : A) : succeeds (ret x).
Proof. intros w. now exists x, w. Qed.

Lemma succeeds_bind {A B} (m : M A) (k : A -> M B) :
  succeeds m -> (forall x, succeeds (k x)) -> succeeds (bind m k).
Proof.
  intros Hm Hk w. unfold bind.
  destruct (Hm w) as (x & w1 & ->). apply Hk.
Qed.

Lemma succeeds_forEach {A S} (l : list A) (body : S -> A -> M S) :
  (forall s x, In x l -> succeeds (body s x)) ->
  forall s, succeeds (forEach l s body).
Proof.
  induction l as [|x l IH]; intros Hbody s; simpl.
  - apply succeeds_ret.
  - apply succeeds_bind; [apply Hbody; now left|].
    intros s'. apply IH. intros s0 y Hy. apply Hbody. now right.
Qed.

Lemma succeeds_console_log (line : string) : succeeds (console_log line).
Proof. intros w. now eexists _, _. Qed.

Lemma subtree_app (path rest : ApiItem) :
  forall t, subtree t (path ++ rest) = subtree (subtree t path) rest.
Proof. induction path as [|i path IH]; intros t; simpl; [reflexivity | apply IH]. Qed.

Lemma subtree_noItem (path : ApiItem) : subtree noItem path = noItem.
Proof.
  induction path as [|i path IH]; simpl; [reflexivity|].
  now destruct i.
Qed.

Lemma treeHeight_child (t : ApiTree) (i : nat) :
  (i < length (treeChildren t))%nat ->
  (S (treeHeight (nth i (treeChildren t) noItem)) <= treeHeight t)%nat.
Proof.
  destruct t as [d children]. simpl. intros Hi.
  assert (H : Forall (fun k => (k <= list_max (map (fun child => S (treeHeight child))
                                                   children))%nat)
                     (map (fun child => S (treeHeight child)) children))
    by now apply list_max_le.
  rewrite List.Forall_forall in H. apply H.
  apply in_map_iff. exists (nth i children noItem). split; [reflexivity|].
  now apply nth_In.
Qed.

Section Success.

Context (env : Environment) (this : HugoDocumenter).

Lemma members_inv (apiItem apiMember : ApiItem) :
  In apiMember (members this apiItem) ->
  exists i, apiMember = apiItem ++ [i]
            /\ (S (treeHeight (subtree (_apiModel this) apiMember))
                <= treeHeight (subtree (_apiModel this) apiItem))%nat.
Proof.
  unfold members. intros (i & <- & Hi%in_seq)%in_map_iff.
  exists i. split; [reflexivity|].
  rewrite subtree_app. simpl. apply treeHeight_child. lia.
Qed.

Lemma addContainerRow_some tables k abstract row tables' :
  addContainerRow tables k abstract row = Some tables' -> containerMemberKind k = true.
Proof. destruct k; simpl; intros H; (reflexivity || discriminate H). Qed.

Lemma addClassRow_some tables apiMember isInherited tables' :
  addClassRow env this tables apiMember isInherited = Some tables' ->
  classMemberKind (kind (item this apiMember)) = true.
Proof.
  unfold addClassRow.
  destruct (kind (item this apiMember)); simpl; intros H; (reflexivity || discriminate H).
Qed.

Lemma addInterfaceRow_some tables apiMember isInherited tables' :
  addInterfaceRow env this tables apiMember isInherited = Some tables' ->
  interfaceMemberKind (kind (item this apiMember)) = true.
Proof.
  unfold addInterfaceRow.
  destruct (kind (item this apiMember)); simpl; intros H; (reflexivity || discriminate H).
Qed.

Lemma getMembers_succeeds (apiItem : ApiItem) (output : DocSection) :
  succeeds (_getMembersAndWriteIncompleteWarning env this apiItem output).
Proof.
  intros w. rewrite getMembers_spec.
  destruct (showInheritedMembers this); now eexists _, _.
Qed.

(** The kind-specific content is written when the pages it may write
    are. *)
Lemma writeKindSpecific_succeeds (writeApiItemPage : ApiItem -> M unit)
    (output : DocSection) (apiItem : ApiItem) :
  supportedKind (kind (item this apiItem)) = true ->
  (forall apiMember, mayWrite this apiItem apiMember -> succeeds (writeApiItemPage apiMember)) ->
  succeeds (writeKindSpecific env this writeApiItemPage output apiItem).
Proof.
  intros Hk Hw. unfold writeKindSpecific, mayWrite in *.
  destruct (kind (item this apiItem)) eqn:K; try discriminate Hk;
    try apply succeeds_ret.
  - (* class *)
    unfold _writeClassTables.
    apply succeeds_bind; [apply getMembers_succeeds|]. intros [apiMembers out].
    apply succeeds_bind; [|intros ?; apply succeeds_ret].
    unfold collectMemberRows. apply succeeds_forEach. intros tables apiMember _.
    destruct (addClassRow _ _ _ _ _) eqn:E; [|apply succeeds_ret].
    apply succeeds_bind; [|intros ?; apply succeeds_ret].
    apply Hw. now apply addClassRow_some in E.
  - (* interface *)
    unfold _writeInterfaceTables.
    apply succeeds_bind; [apply getMembers_succeeds|]. intros [apiMembers out].
    apply succeeds_bind; [|intros ?; apply succeeds_ret].
    unfold collectMemberRows. apply succeeds_forEach. intros tables apiMember _.
    destruct (addInterfaceRow _ _ _ _ _) eqn:E; [|apply succeeds_ret].
    apply succeeds_bind; [|intros ?; apply succeeds_ret].
    apply Hw. now apply addInterfaceRow_some in E.
  - (* model *)
    unfold _writeModelTable.
    apply succeeds_bind; [|intros ?; apply succeeds_ret].
    apply succeeds_forEach. intros table apiMember Hin.
    destruct (kind (item this apiMember)) eqn:Km; try apply succeeds_ret.
    apply succeeds_bind; [|intros ?; apply succeeds_ret].
    apply Hw. now split.
  - (* namespace *)
    unfold _writePackageOrNamespaceTables. rewrite K. simpl.
    apply succeeds_bind; [apply succeeds_ret|]. intros out.
    apply succeeds_bind; [|intros ?; apply succeeds_ret].
    apply succeeds_forEach. intros tables apiMember Hin.
    destruct (addContainerRow _ _ _ _) eqn:E; [|apply succeeds_ret].
    apply succeeds_bind; [|intros ?; apply succeeds_ret].
    apply Hw. split; [exact Hin | now apply addContainerRow_some in E].
  - (* package *)
    unfold _writePackageOrNamespaceTables. rewrite K. simpl.
    apply succeeds_bind.
    + apply succeeds_bind; [|intros ?; apply succeeds_ret].
      apply succeeds_forEach. intros table entrypoint Hin.
      apply succeeds_bind; [|intros ?; apply succeeds_ret].
      apply Hw. now left.
    + intros out. apply succeeds_bind; [|intros ?; apply succeeds_ret].
      apply succeeds_forEach. intros tables apiMember Hin.
      destruct (addContainerRow _ _ _ _) eqn:E; [|apply succeeds_ret].
      apply succeeds_bind; [|intros ?; apply succeeds_ret].
      apply Hw. right. split; [exact Hin | now apply addContainerRow_some in E].
Qed.

Lemma pageFrontMatter_succeeds (apiItem : ApiItem) :
  supportedKind (kind (item this apiItem)) = true ->
  (kind (item this apiItem) = ApiItemKind.EntryPoint -> apiItem <> []) ->
  succeeds (pageFrontMatter env this apiItem).
Proof.
  intros Hk Hentry. unfold pageFrontMatter.
  destruct (kind (item this apiItem)); try discriminate Hk; try apply succeeds_ret.
  - destruct (String.eqb _ _); [apply succeeds_ret|].
    destruct apiItem as [|i rest]; [now destruct (Hentry eq_refl)|].
    apply succeeds_ret.
  - apply succeeds_bind; [apply succeeds_console_log | intros ?; apply succeeds_ret].
Qed.

Lemma buildPage_succeeds (writeApiItemPage : ApiItem -> M unit) (apiItem : ApiItem) :
  supportedKind (kind (item this apiItem)) = true ->
  (kind (item this apiItem) = ApiItemKind.EntryPoint -> apiItem <> []) ->
  (forall apiMember, mayWrite this apiItem apiMember -> succeeds (writeApiItemPage apiMember)) ->
  succeeds (buildPage env this writeApiItemPage apiItem).
Proof.
  intros Hk Hentry Hw. unfold buildPage.
  apply succeeds_bind; [now apply pageFrontMatter_succeeds|].
  intros [frontMatter|]; [|apply succeeds_ret].
  apply succeeds_bind; [now apply writeKindSpecific_succeeds|].
  intros output. apply succeeds_ret.
Qed.

Hypothesis entryPoints : packagesHoldEntryPoints this.

Lemma writeApiItemPage_succeeds (fuel : nat) :
  forall apiItem,
    supportedKind (kind (item this apiItem)) = true ->
    (kind (item this apiItem) = ApiItemKind.EntryPoint -> apiItem <> []) ->
    (recursiveKind (kind (item this apiItem)) = false /\ (1 <= fuel)%nat)
    \/ (treeHeight (subtree (_apiModel this) apiItem) + 2 <= fuel)%nat ->
    succeeds (_writeApiItemPage env this fuel apiItem).
Proof.
  induction fuel as [|fuel IH]; intros apiItem Hk Hentry Hfuel; [lia|].
  simpl. apply succeeds_bind.
  - apply buildPage_succeeds; [exact Hk | exact Hentry |].
    intros apiMember Hmay. unfold mayWrite in Hmay.
    destruct (kind (item this apiItem)) eqn:K; try (exfalso; exact Hmay);
      (destruct Hfuel as [[Hleaf _]|Hfuel]; [discriminate Hleaf|]).
    + (* class *)
      apply IH.
      * destruct (kind (item this apiMember)); (reflexivity || discriminate Hmay).
      * intros E. rewrite E in Hmay. discriminate Hmay.
      * left. split; [|lia].
        destruct (kind (item this apiMember)); (reflexivity || discriminate Hmay).
    + (* interface *)
      apply IH.
      * destruct (kind (item this apiMember)); (reflexivity || discriminate Hmay).
      * intros E. rewrite E in Hmay. discriminate Hmay.
      * left. split; [|lia].
        destruct (kind (item this apiMember)); (reflexivity || discriminate Hmay).
    + (* model *)
      destruct Hmay as [H H0].
      destruct (members_inv _ _ H) as (i & -> & Hheight).
      apply IH; [now rewrite H0 | rewrite H0; discriminate | right; lia].
    + (* namespace *)
      destruct Hmay as [H H0].
      destruct (members_inv _ _ H) as (i & -> & Hheight).
      apply IH.
      * destruct (kind (item this (apiItem ++ [i]))); (reflexivity || discriminate H0).
      * intros E. rewrite E in H0. discriminate H0.
      * right. lia.
    + (* package *)
      destruct Hmay as [H|H].
      { (* an entry point *)
      pose proof (entryPoints apiItem apiMember K H) as Ke.
      destruct (members_inv _ _ H) as (i & -> & Hheight).
      apply IH; [now rewrite Ke | intros _; now destruct apiItem |].
      left. rewrite Ke. split; [reflexivity | lia]. }
      (* a member of an entry point *)
      destruct H as [Hin Hkind].
      apply in_flat_map in Hin as (entrypoint & Hentrypoint & Hin).
      destruct (members_inv _ _ Hentrypoint) as (i & -> & Hheight1).
      destruct (members_inv _ _ Hin) as (j & -> & Hheight2).
      apply IH.
      * destruct (kind (item this ((apiItem ++ [i]) ++ [j])));
          (reflexivity || discriminate Hkind).
      * intros E. rewrite E in Hkind. discriminate Hkind.
      * right. lia.
  - intros [[frontMatter output]|]; [|apply succeeds_ret].
    intros w. rewrite writePage_spec. now eexists _, _.
Qed.

End Success.

Lemma ApiItemKind_eqb_true (a b : ApiItemKind.t) :
  ApiItemKind.eqb a b = true -> a = b.
Proof. destruct a, b; simpl; intros H; (reflexivity || discriminate H). Qed.

Lemma packagesHoldEntryPointsIn_subtree (path : ApiItem) :
  forall t, packagesHoldEntryPointsIn t = true ->
            packagesHoldEntryPointsIn (subtree t path) = true.
Proof.
  induction path as [|i path IH]; intros t Ht; simpl; [exact Ht|].
  apply IH. destruct t as [d children]. simpl in *.
  apply andb_true_iff in Ht as [_ Hall].
  destruct (Nat.lt_ge_cases i (length children)) as [Hi|Hi].
  - rewrite forallb_forall in Hall. apply Hall. now apply nth_In.
  - now rewrite nth_overflow.
Qed.

(** The check of the tree gives the property of the items. *)
Lemma packagesHoldEntryPointsIn_sound (this : HugoDocumenter) :
  packagesHoldEntryPointsIn (_apiModel this) = true -> packagesHoldEntryPoints this.
Proof.
  intros Hcheck apiPackage apiMember Hkind Hin.
  unfold members in Hin. apply in_map_iff in Hin as (i & <- & Hi%in_seq).
  pose proof (packagesHoldEntryPointsIn_subtree apiPackage _ Hcheck) as Hsub.
  unfold item in *. rewrite subtree_app. simpl.
  destruct (subtree (_apiModel this) apiPackage) as [d children]. simpl in *.
  rewrite Hkind in Hsub. simpl in Hsub.
  apply andb_true_iff in Hsub as [Hall _].
  rewrite forallb_forall in Hall.
  apply ApiItemKind_eqb_true, Hall, nth_In. lia.
Qed.



(** ** The order of the files of a run *)

Lemma extendsFiles_refl (w : World) : extendsFiles w w.
Proof. exists []. now rewrite app_nil_r. Qed.

Lemma extendsFiles_trans (w0 w1 w2 : World) :
  extendsFiles w0 w1 -> extendsFiles w1 w2 -> extendsFiles w0 w2.
Proof.
  intros [a Ha] [b Hb]. exists (a ++ b). now rewrite Hb, Ha, app_assoc.
Qed.

Lemma wrote_later env this (apiItem : ApiItem) (w0 w1 w2 : World) :
  wrote env this apiItem w0 w1 -> extendsFiles w1 w2 -> wrote env this apiItem w0 w2.
Proof.
  intros (before & frontMatter & output & after & H) [added Ha].
  exists before, frontMatter, output, (after ++ added).
  rewrite Ha, H. now rewrite <- !app_assoc, <- app_comm_cons.
Qed.

Lemma wrote_earlier env this (apiItem : ApiItem) (w0 w1 w2 : World) :
  extendsFiles w0 w1 -> wrote env this apiItem w1 w2 -> wrote env this apiItem w0 w2.
Proof.
  intros [added Ha] (before & frontMatter & output & after & H).
  exists (added ++ before), frontMatter, output, after.
  rewrite H, Ha. now rewrite <- !app_assoc.
Qed.

Lemma extendsFiles_console_log (w0 : World) (line : string) :
  preserves (extendsFiles w0) (console_log line).
Proof. intros w H. exact H. Qed.

Lemma run_snd {A} (m : M A) (w w' : World) (r : Error + A) :
  m w = (r, w') -> snd (m w) = w'.
Proof. now intros ->. Qed.

Section FileOrder.

Context (env : Environment) (this : HugoDocumenter).

Lemma writePage_extends (w0 : World) (apiItem : ApiItem) frontMatter output :
  preserves (extendsFiles w0) (writePage env this apiItem frontMatter output).
Proof.
  intros w [added H]. rewrite writePage_spec. simpl.
  exists (added ++ [pageFile env this apiItem frontMatter output]).
  now rewrite H, app_assoc.
Qed.

(** A page writer only adds files. *)
Lemma writeApiItemPage_extends (fuel : nat) (apiItem : ApiItem) (w : World) :
  extendsFiles w (snd (_writeApiItemPage env this fuel apiItem w)).
Proof.
  apply (writeApiItemPage_preserves env this (extendsFiles w)
           (extendsFiles_console_log w) fuel (writePage_extends w) apiItem w).
  apply extendsFiles_refl.
Qed.

Lemma pageFrontMatter_files (apiItem : ApiItem) (w : World) :
  files (snd (pageFrontMatter env this apiItem w)) = files w.
Proof.
  apply (pageFrontMatter_preserves env this (fun w' => files w' = files w)
           (fun line w' H => H) apiItem w).
  reflexivity.
Qed.

Lemma buildPage_extends (writeApiItemPage : ApiItem -> M unit) (apiItem : ApiItem)
    (w : World) :
  (forall a w0 w1, extendsFiles w0 w1 -> extendsFiles w0 (snd (writeApiItemPage a w1))) ->
  extendsFiles w (snd (buildPage env this writeApiItemPage apiItem w)).
Proof.
  intros Hw.
  apply (buildPage_preserves env this (extendsFiles w)
           (extendsFiles_console_log w) writeApiItemPage apiItem
           (fun a w1 H => Hw a w w1 H) w).
  apply extendsFiles_refl.
Qed.

Lemma writeApiItemPage_extends_from (fuel : nat) (apiItem : ApiItem) (w0 w1 : World) :
  extendsFiles w0 w1 ->
  extendsFiles w0 (snd (_writeApiItemPage env this fuel apiItem w1)).
Proof.
  intros H. eapply extendsFiles_trans; [exact H | apply writeApiItemPage_extends].
Qed.

Lemma buildPage_none (writeApiItemPage : ApiItem -> M unit) (apiItem : ApiItem)
    (w w' : World) :
  buildPage env this writeApiItemPage apiItem w = (inr None, w') ->
  isRootEntryPoint this apiItem = true.
Proof.
  unfold buildPage, bind.
  destruct (pageFrontMatter env this apiItem w) as [[e|[frontMatter|]] w0] eqn:Hf;
    [discriminate | | ].
  - destruct (writeKindSpecific _ _ _ _ _ _) as [[e|written] w1]; discriminate.
  - intros _. now apply pageFrontMatter_none in Hf.
Qed.

(** When a page writer returns, the page of the item is the last file. *)
Lemma page_written_last (fuel : nat) (apiItem : ApiItem) (w w' : World) :
  _writeApiItemPage env this fuel apiItem w = (inr tt, w') ->
  isRootEntryPoint this apiItem = false ->
  exists earlier frontMatter output,
    files w' = files w ++ earlier ++ [pageFile env this apiItem frontMatter output].
Proof.
  destruct fuel as [|fuel]; [discriminate|]. simpl. unfold bind.
  pose proof (buildPage_extends (_writeApiItemPage env this fuel) apiItem w
                (writeApiItemPage_extends_from fuel)) as [earlier Hearlier].
  destruct (buildPage env this _ apiItem w) as [[e|[[frontMatter output]|]] w1] eqn:Hb;
    [discriminate | | ].
  - rewrite writePage_spec. intros [= <-] _. simpl in *.
    exists earlier, frontMatter, output. now rewrite Hearlier, app_assoc.
  - intros _ Hroot. apply buildPage_none in Hb. congruence.
Qed.

Lemma page_wrote (fuel : nat) (apiItem : ApiItem) (w w' : World) :
  _writeApiItemPage env this fuel apiItem w = (inr tt, w') ->
  isRootEntryPoint this apiItem = false ->
  wrote env this apiItem w w'.
Proof.
  intros H Hroot. destruct (page_written_last _ _ _ _ H Hroot)
    as (earlier & frontMatter & output & Hfiles).
  now exists earlier, frontMatter, output, [].
Qed.

End FileOrder.



(** ** The pages of the members a page lists *)

Lemma forEach_wrote {S : Type} env this (trigger : ApiItem -> Prop)
    (body : S -> ApiItem -> M S) :
  (forall s x w, extendsFiles w (snd (body s x w))) ->
  (forall s x w s' w', trigger x -> body s x w = (inr s', w') -> wrote env this x w w') ->
  forall l s w s' w',
    forEach l s body w = (inr s', w') ->
    extendsFiles w w'
    /\ forall x, In x l -> trigger x -> wrote env this x w w'.
Proof.
  intros Hext Hwrote. induction l as [|x l IH]; intros s w s' w'; simpl.
  - intros [= _ <-]. split; [apply extendsFiles_refl | intros ? []].
  - unfold bind. pose proof (Hext s x w) as Hx.
    destruct (body s x w) as [[e|s1] w1] eqn:Hb; [discriminate|]. simpl in Hx.
    intros Hrest. destruct (IH _ _ _ _ Hrest) as [Hl Hin].
    split; [now apply extendsFiles_trans with w1|].
    intros y [<-|Hy] Ht.
    + apply wrote_later with w1; [now apply (Hwrote s x w s1 w1) | exact Hl].
    + apply wrote_earlier with w1; [exact Hx | now apply Hin].
Qed.

Section ListedMembers.

Context (env : Environment) (this : HugoDocumenter).
Context (writeApiItemPage : ApiItem -> M unit).

Hypothesis pageExtends :
  forall a w, extendsFiles w (snd (writeApiItemPage a w)).
Hypothesis pageWrote :
  forall a w w', writeApiItemPage a w = (inr tt, w') ->
                 isRootEntryPoint this a = false -> wrote env this a w w'.

Lemma called_extends {S : Type} (s : S) (a : ApiItem) (w : World) :
  extendsFiles w (snd ((let! _ := writeApiItemPage a in ret s) w)).
Proof.
  unfold bind. pose proof (pageExtends a w) as H.
  now destruct (writeApiItemPage a w) as [[e|[]] w1].
Qed.

Lemma called_wrote {S : Type} (s s' : S) (a : ApiItem) (w w' : World) :
  (let! _ := writeApiItemPage a in ret s) w = (inr s', w') ->
  isRootEntryPoint this a = false ->
  wrote env this a w w'.
Proof.
  unfold bind. destruct (writeApiItemPage a w) as [[e|[]] w1] eqn:H; [discriminate|].
  intros [= _ <-]. now apply pageWrote.
Qed.

Lemma collectMemberRows_wrote (listed : ApiItemKind.t -> bool)
    (addRow : MemberTables -> ApiItem -> bool -> option MemberTables)
    (owner : ApiItem) (l : list ApiItem) (w w' : World) (tables : MemberTables) :
  (forall t m inherited, listed (kind (item this m)) = true ->
                         exists t', addRow t m inherited = Some t') ->
  collectMemberRows writeApiItemPage addRow owner l w = (inr tables, w') ->
  extendsFiles w w'
  /\ forall m, In m l -> listed (kind (item this m)) = true /\ isRootEntryPoint this m = false ->
               wrote env this m w w'.
Proof.
  intros Hrow. unfold collectMemberRows.
  apply (forEach_wrote env this
           (fun m => listed (kind (item this m)) = true /\ isRootEntryPoint this m = false)).
  - intros t m w0. destruct (addRow t m _); [apply called_extends | apply extendsFiles_refl].
  - intros t m w0 t' w1 [Hlisted Hpage].
    destruct (Hrow t m (isInheritedFrom m owner) Hlisted) as [t1 ->].
    intros H. now apply called_wrote in H.
Qed.

Lemma addClassRow_listed t m inherited :
  classMemberKind (kind (item this m)) = true ->
  exists t', addClassRow env this t m inherited = Some t'.
Proof.
  unfold addClassRow. destruct (kind (item this m)); try discriminate; eauto.
Qed.

Lemma addInterfaceRow_listed t m inherited :
  interfaceMemberKind (kind (item this m)) = true ->
  exists t', addInterfaceRow env this t m inherited = Some t'.
Proof.
  unfold addInterfaceRow. destruct (kind (item this m)); try discriminate; eauto.
Qed.

Lemma addContainerRow_listed t k abstract row :
  containerMemberKind k = true -> exists t', addContainerRow t k abstract row = Some t'.
Proof. destruct k; try discriminate; simpl; eauto. Qed.

Lemma getMembers_result (apiItem : ApiItem) (output : DocSection) (w w' : World)
    apiMembers output' :
  _getMembersAndWriteIncompleteWarning env this apiItem output w
  = (inr (apiMembers, output'), w') ->
  apiMembers = pageMembers env this apiItem /\ files w' = files w.
Proof.
  intros H.
  pose proof (getMembers_preserves env this (fun w1 => files w1 = files w)
                (fun line w1 H1 => H1) apiItem output w eq_refl) as Hfiles.
  rewrite H in Hfiles. simpl in Hfiles. split; [|exact Hfiles].
  revert H. unfold _getMembersAndWriteIncompleteWarning, pageMembers, bind, ret.
  destruct (showInheritedMembers this); simpl.
  - destruct (forEach _ _ _ w) as [[e|[]] w1]; [discriminate|]. now intros [= <- _ _].
  - now intros [= <- _ _].
Qed.

Lemma containerLoop_wrote (l : list ApiItem) (w w' : World) (tables tables' : ContainerTables) :
  forEach l tables
    (fun tables apiMember =>
       let row := [_createTitleCell env this apiMember;
                   _createDescriptionCell env this apiMember false] in
       match addContainerRow tables (kind (item this apiMember))
                             (isAbstract (item this apiMember)) row with
       | Some tables => let! _ := writeApiItemPage apiMember in ret tables
       | None => ret tables
       end) w = (inr tables', w') ->
  extendsFiles w w'
  /\ forall m, In m l -> containerMemberKind (kind (item this m)) = true /\ isRootEntryPoint this m = false ->
               wrote env this m w w'.
Proof.
  apply (forEach_wrote env this
           (fun m => containerMemberKind (kind (item this m)) = true /\ isRootEntryPoint this m = false)).
  - intros t m w0. cbv zeta.
    destruct (addContainerRow _ _ _ _); [apply called_extends | apply extendsFiles_refl].
  - intros t m w0 t' w1 [Hlisted Hpage]. cbv zeta.
    destruct (addContainerRow_listed t _ (isAbstract (item this m))
                [_createTitleCell env this m; _createDescriptionCell env this m false]
                Hlisted) as [t1 ->].
    intros H. now apply called_wrote in H.
Qed.

(** The kind-specific part writes the page of every member it lists. *)
Lemma writeKindSpecific_wrote (output written : DocSection) (apiItem : ApiItem)
    (w w' : World) :
  writeKindSpecific env this writeApiItemPage output apiItem w = (inr written, w') ->
  extendsFiles w w'
  /\ forall m, In m (listedMembers env this apiItem) -> isRootEntryPoint this m = false -> wrote env this m w w'.
Proof.
  unfold writeKindSpecific, listedMembers.
  destruct (kind (item this apiItem)) eqn:K;
    try (unfold throw; discriminate);
    try (intros [= _ <-]; split; [apply extendsFiles_refl | intros ? []]).
  - (* class *)
    unfold _writeClassTables, bind.
    destruct (_getMembersAndWriteIncompleteWarning _ _ _ _ _)
      as [[e|[apiMembers out]] w1] eqn:Hm; [discriminate|].
    apply getMembers_result in Hm as [-> Hfiles].
    destruct (collectMemberRows _ _ _ _ _) as [[e|tables] w2] eqn:Hc; [discriminate|].
    intros [= _ <-].
    apply (collectMemberRows_wrote classMemberKind) in Hc as [Hext Hall];
      [|apply addClassRow_listed].
    assert (H01 : extendsFiles w w1) by (exists []; now rewrite app_nil_r).
    split; [now apply extendsFiles_trans with w1|].
    intros m [Hin Hk]%filter_In Hpage.
    apply wrote_earlier with w1; [exact H01 | now apply Hall].
  - (* interface *)
    unfold _writeInterfaceTables, bind.
    destruct (_getMembersAndWriteIncompleteWarning _ _ _ _ _)
      as [[e|[apiMembers out]] w1] eqn:Hm; [discriminate|].
    apply getMembers_result in Hm as [-> Hfiles].
    destruct (collectMemberRows _ _ _ _ _) as [[e|tables] w2] eqn:Hc; [discriminate|].
    intros [= _ <-].
    apply (collectMemberRows_wrote interfaceMemberKind) in Hc as [Hext Hall];
      [|apply addInterfaceRow_listed].
    assert (H01 : extendsFiles w w1) by (exists []; now rewrite app_nil_r).
    split; [now apply extendsFiles_trans with w1|].
    intros m [Hin Hk]%filter_In Hpage.
    apply wrote_earlier with w1; [exact H01 | now apply Hall].
  - (* model *)
    unfold _writeModelTable, bind.
    destruct (forEach _ _ _ w) as [[e|table] w1] eqn:Hloop; [discriminate|].
    intros [= _ <-].
    apply (forEach_wrote env this
             (fun m => kind (item this m) = ApiItemKind.Package /\ isRootEntryPoint this m = false)) in Hloop
      as [Hext Hall].
    + split; [exact Hext|]. intros m [Hin Hk]%filter_In Hpage.
      apply Hall; [exact Hin | split; [now apply ApiItemKind_eqb_true | exact Hpage]].
    + intros t m w0. cbv zeta.
      destruct (kind (item this m)); try apply extendsFiles_refl. apply called_extends.
    + intros t m w0 t' w2 [Hk Hpage]. cbv zeta. rewrite Hk.
      intros H. now apply called_wrote in H.
  - (* namespace *)
    unfold _writePackageOrNamespaceTables, bind. rewrite K. simpl.
    destruct (forEach _ _ _ w) as [[e|tables] w1] eqn:Hloop; [discriminate|].
    intros [= _ <-]. apply containerLoop_wrote in Hloop as [Hext Hall].
    split; [exact Hext|]. intros m [Hin Hk]%filter_In Hpage. now apply Hall.
  - (* package *)
    unfold _writePackageOrNamespaceTables, bind. rewrite K. simpl.
    destruct (forEach (members this apiItem) _ _ w) as [[e|entrypoints] w1] eqn:Hentry;
      [discriminate|].
    simpl.
    destruct (forEach _ _ _ w1) as [[e|tables] w2] eqn:Hloop; [discriminate|].
    intros [= _ <-].
    apply (forEach_wrote env this (fun m => isRootEntryPoint this m = false)) in Hentry as [Hext1 Hall1].
    + apply containerLoop_wrote in Hloop as [Hext2 Hall2].
      split; [now apply extendsFiles_trans with w1|].
      intros m [Hin|[Hin Hk]%filter_In]%in_app_or Hpage.
      * apply wrote_later with w1; [now apply Hall1 | exact Hext2].
      * apply wrote_earlier with w1; [exact Hext1 | now apply Hall2].
    + intros t m w0. apply called_extends.
    + intros t m w0 t' w3 Hpage H. now apply called_wrote in H.
Qed.

End ListedMembers.

Lemma listedMembers_not_root env this (apiItem apiMember : ApiItem) :
  In apiMember (listedMembers env this apiItem) -> isRootEntryPoint this apiItem = false.
Proof.
  unfold listedMembers, isRootEntryPoint.
  destruct (kind (item this apiItem)); try (intros []); reflexivity.
Qed.

(** X8 ([_writeApiItemPage] and the table writers): no row without a
    page.  When the page writer of an item returns, every member that
    the page lists in a table (the packages of the model, the entry
    points of a package and the listed members of its entry points, the
    listed members of a namespace, a class or an interface, inherited
    ones included) has had its own page written, and written before the
    page of the item, which comes last.  The one member without a page
    is the root entry point. *)
Theorem X8_listed_members_have_pages_written_before :
  forall env this (fuel : nat) (apiItem apiMember : ApiItem) (w w' : World),
    _writeApiItemPage env this fuel apiItem w = (inr tt, w') ->
    In apiMember (listedMembers env this apiItem) ->
    isRootEntryPoint this apiMember = false ->
    exists before frontMatter output between frontMatter' output',
      files w'
      = files w ++ before
        ++ pageFile env this apiMember frontMatter output :: between
        ++ [pageFile env this apiItem frontMatter' output'].
Proof.
  intros env this fuel apiItem apiMember w w' Hrun Hin Hpage.
  destruct fuel as [|fuel]; [discriminate|]. simpl in Hrun. unfold bind in Hrun.
  destruct (buildPage env this _ apiItem w) as [[e|[[frontMatter' output']|]] w1] eqn:Hb;
    [discriminate | | ].
  - rewrite writePage_spec in Hrun. injection Hrun as <-. simpl.
    apply buildPage_inv in Hb as (w0 & written & Hf & Hk & _).
    pose proof (pageFrontMatter_files env this apiItem w) as Hfiles.
    rewrite Hf in Hfiles. simpl in Hfiles.
    apply (writeKindSpecific_wrote env this) in Hk as [_ Hall].
    + destruct (Hall apiMember Hin Hpage)
        as (before & frontMatter & output & between & Hw1).
      exists before, frontMatter, output, between, frontMatter', output'.
      rewrite Hw1, Hfiles. now rewrite <- !app_assoc.
    + apply writeApiItemPage_extends.
    + intros a w2 w3. apply page_wrote.
  - apply buildPage_none in Hb. apply listedMembers_not_root in Hin. congruence.
Qed.

Lemma X8_listed_members_witness :
  let w' := snd (_writeApiItemPage Colours.env Colours.this 2 [0%nat]
                   Examples.emptyWorld) in
  exists before frontMatter output between frontMatter' output',
    files w'
    = files Examples.emptyWorld ++ before
      ++ pageFile Colours.env Colours.this Colours.colour frontMatter output :: between
      ++ [pageFile Colours.env Colours.this [0%nat] frontMatter' output'].
Proof.
  apply (X8_listed_members_have_pages_written_before Colours.env Colours.this 2
           [0%nat] Colours.colour Examples.emptyWorld).
  - vm_compute. reflexivity.
  - right. left. reflexivity.
  - reflexivity.
Defined.

(** ** The tables of the pages of a run *)

Lemma commentsStandardIn_subtree (path : ApiItem) :
  forall t, commentsStandardIn t = true -> commentsStandardIn (subtree t path) = true.
Proof.
  induction path as [|i path IH]; intros t Ht; simpl; [exact Ht|].
  apply IH. destruct t as [d children]. simpl in *.
  apply andb_true_iff in Ht as [_ Hall].
  destruct (Nat.lt_ge_cases i (length children)) as [Hi|Hi].
  - rewrite forallb_forall in Hall. apply Hall. now apply nth_In.
  - now rewrite nth_overflow.
Qed.

Lemma commentsStandardIn_sound (this : HugoDocumenter) :
  commentsStandardIn (_apiModel this) = true ->
  forall apiItem, commentIsStandard this apiItem = true.
Proof.
  intros Hcheck apiItem.
  pose proof (commentsStandardIn_subtree apiItem _ Hcheck) as Hsub.
  unfold commentIsStandard, documentedComment, item.
  destruct (isApiDocumentedItem _); [|reflexivity].
  destruct (subtree (_apiModel this) apiItem) as [d children]. simpl in *.
  now apply andb_true_iff in Hsub as [Hd _].
Qed.

(** X9 ([generateFiles] with the table writers): in a run over a model
    whose comments are as the parser builds them, the body of every page
    that is written, at whatever depth, has no table without rows, and
    each of its table headings is followed by its table. *)
Theorem X9_no_page_of_a_run_has_an_empty_table :
  forall env this (fuel : nat) (w : World),
    commentsStandardIn (_apiModel this) = true ->
    Forall
      (fun file =>
         tablesWellFormed (writtenBody file) = true
         /\ forall headerTitles, ~ In (DocTable headerTitles []) (writtenBody file))
      (files (snd (generateFiles env this fuel w))).
Proof.
  intros env this fuel w Hstd. apply generateFiles_files.
  intros writeApiItemPage apiItem w0 w1 frontMatter output Hb.
  assert (Hwf : tablesWellFormed output = true).
  { apply (body_wellFormed env this writeApiItemPage apiItem w0 w1 frontMatter output);
      [now apply commentsStandardIn_sound | exact Hb]. }
  split; [exact Hwf|]. intros headerTitles.
  now apply (tablesWellFormed_no_empty_table (length output)).
Qed.

Lemma X9_tables_of_a_run_witness :
  Forall
    (fun file =>
       tablesWellFormed (writtenBody file) = true
       /\ forall headerTitles, ~ In (DocTable headerTitles []) (writtenBody file))
    (files (snd (generateFiles Colours.env Colours.this 6 Examples.emptyWorld))).
Proof.
  apply (X9_no_page_of_a_run_has_an_empty_table Colours.env Colours.this 6
           Examples.emptyWorld).
  reflexivity.
Defined.

(** ** Type paragraphs, merged summaries, examples and exceptions *)

Section Excerpts.

Context (env : Environment) (this : HugoDocumenter).

Lemma appendToken_textOrLink (container : DocNodeContainer) (token : ExcerptToken) :
  exists node,
    _appendExcerptTokenWithHyperlinks env this container token = container ++ [node]
    /\ isTextOrLink node = true.
Proof.
  unfold _appendExcerptTokenWithHyperlinks, appendNode.
  destruct (tokenKind token);
    [eexists; split; [reflexivity | apply unwrapText_accepted]|].
  destruct (canonicalReference token) as [reference|];
    [|eexists; split; [reflexivity | apply unwrapText_accepted]].
  destruct (resolveDeclarationReference env reference);
    eexists; (split; [reflexivity|]); [reflexivity | apply unwrapText_accepted].
Qed.

Lemma appendExcerpt_textOrLink (excerpt : Excerpt) :
  forall container : DocNodeContainer,
    exists added,
      _appendExcerptWithHyperlinks env this container excerpt = container ++ added
      /\ length added = length excerpt
      /\ forallb isTextOrLink added = true.
Proof.
  unfold _appendExcerptWithHyperlinks.
  induction excerpt as [|token excerpt IH]; intros container; simpl.
  - exists []. now rewrite app_nil_r.
  - destruct (appendToken_textOrLink container token) as (node & -> & Hnode).
    destruct (IH (container ++ [node])) as (added & -> & Hlen & Hall).
    exists (node :: added). rewrite <- app_assoc. simpl.
    now rewrite Hlen, Hnode, Hall.
Qed.

End Excerpts.

(** X10 ([_createParagraphForTypeExcerpt], [_appendExcerptWithHyperlinks]):
    the paragraph of a type is never empty.  An excerpt whose text is
    blank gives the one text [(not declared)]; any other excerpt gives
    one node for each of its tokens, in their order.  Every node of the
    paragraph is a link or a plain text without a line feed, which the
    constructor of [DocPlainText] accepts. *)
Theorem X10_a_type_paragraph_is_never_empty :
  forall env this (excerpt : Excerpt),
    exists nodes,
      _createParagraphForTypeExcerpt env this excerpt = DocParagraph nodes
      /\ nodes <> []
      /\ forallb isTextOrLink nodes = true
      /\ (trimsToEmpty (excerptText excerpt) = true ->
          nodes = [DocPlainText "(not declared)"])
      /\ (trimsToEmpty (excerptText excerpt) = false ->
          nodes = _appendExcerptWithHyperlinks env this [] excerpt
          /\ length nodes = length excerpt).
Proof.
  intros env this excerpt. unfold _createParagraphForTypeExcerpt.
  destruct (trimsToEmpty (excerptText excerpt)) eqn:Hblank.
  - exists [DocPlainText "(not declared)"].
    repeat split; (reflexivity || discriminate).
  - destruct (appendExcerpt_textOrLink env this excerpt []) as (added & Hadded & Hlen & Hall).
    exists added. rewrite Hadded. simpl. repeat split; try assumption; try discriminate.
    intros ->. destruct excerpt; [discriminate Hblank | discriminate Hlen].
Qed.

Lemma X10_type_paragraph_witness :
  let excerpt := [Examples.content "Map<"; UnresolvedReference.widgetToken;
                  Examples.content ">"] in
  trimsToEmpty (excerptText excerpt) = false
  /\ _createParagraphForTypeExcerpt UnresolvedReference.env UnresolvedReference.this excerpt
     = DocParagraph
         (_appendExcerptWithHyperlinks UnresolvedReference.env UnresolvedReference.this
            [] excerpt)
  /\ _createParagraphForTypeExcerpt UnresolvedReference.env UnresolvedReference.this
       [Examples.content " "]
     = DocParagraph [DocPlainText "(not declared)"].
Proof.
  intros excerpt.
  destruct (X10_a_type_paragraph_is_never_empty UnresolvedReference.env
              UnresolvedReference.this excerpt) as (nodes & -> & _ & _ & _ & Hdeclared).
  destruct (X10_a_type_paragraph_is_never_empty UnresolvedReference.env
              UnresolvedReference.this [Examples.content " "])
    as (blank & -> & _ & _ & Hblank & _).
  split; [reflexivity|]. split.
  - now destruct (Hdeclared eq_refl) as [-> _].
  - now rewrite (Hblank eq_refl).
Defined.

Lemma appendNodeInParagraph_last (before : DocSection) (nodes : list DocNode)
    (docNode : DocNode) :
  appendNodeInParagraph (before ++ [DocParagraph nodes]) docNode
  = before ++ [DocParagraph (nodes ++ [docNode])].
Proof.
  unfold appendNodeInParagraph. rewrite rev_app_distr. simpl.
  now rewrite rev_involutive.
Qed.

Lemma appendNodesInParagraph_last (docNodes : list DocNode) :
  forall (before : DocSection) (nodes : list DocNode),
    appendNodesInParagraph (before ++ [DocParagraph nodes]) docNodes
    = before ++ [DocParagraph (nodes ++ docNodes)].
Proof.
  unfold appendNodesInParagraph.
  induction docNodes as [|docNode docNodes IH]; intros before nodes; simpl.
  - now rewrite app_nil_r.
  - rewrite appendNodeInParagraph_last, IH. now rewrite <- app_assoc.
Qed.

Lemma appendNodesInParagraph_new (docNode : DocNode) (docNodes : list DocNode) :
  appendNodesInParagraph [] (docNode :: docNodes) = [DocParagraph (docNode :: docNodes)].
Proof.
  unfold appendNodesInParagraph. simpl.
  change (appendNodeInParagraph [] docNode) with ([] ++ [DocParagraph [docNode]]).
  apply (appendNodesInParagraph_last docNodes [] [docNode]).
Qed.

Lemma merge_rest (docSection : DocSection) :
  forall output : DocSection,
    fst (fold_left
           (fun (state : DocSection * bool) node =>
              let '(output, firstNode) := state in
              match firstNode, node with
              | true, DocParagraph childNodes =>
                  (appendNodesInParagraph output childNodes, false)
              | _, _ => (appendNode output node, false)
              end)
           docSection (output, false))
    = output ++ docSection.
Proof.
  induction docSection as [|node docSection IH]; intros output; simpl.
  - now rewrite app_nil_r.
  - rewrite IH. unfold appendNode. now rewrite <- app_assoc.
Qed.



Lemma examples_numbered (count : nat) (blocks : list DocBlock) :
  forall (output : DocSection) (first : nat),
    fst (fold_left
           (fun (state : DocSection * Z) exampleBlock =>
              let '(output, exampleNumber) := state in
              (_appendSection (appendNode output (DocHeading (exampleHeading count exampleNumber)))
                              (blockContent exampleBlock),
               (exampleNumber + 1)%Z))
           blocks (output, Z.of_nat first))
    = output
      ++ flat_map (fun numbered : nat * DocBlock =>
                     DocHeading (exampleHeading count (Z.of_nat (fst numbered)))
                     :: blockContent (snd numbered))
                  (combine (seq first (length blocks)) blocks).
Proof.
  induction blocks as [|block blocks IH]; intros output first; simpl.
  - now rewrite app_nil_r.
  - replace (Z.of_nat first + 1)%Z with (Z.of_nat (S first)) by lia.
    rewrite IH, appendSection_app. unfold appendNode.
    now rewrite <- !app_assoc.
Qed.

Lemma throws_flat (blocks : list DocBlock) :
  forall output : DocSection,
    fold_left (fun output throwsBlock => _appendSection output (blockContent throwsBlock))
              blocks output
    = output ++ flat_map blockContent blocks.
Proof.
  induction blocks as [|block blocks IH]; intros output; simpl.
  - now rewrite app_nil_r.
  - rewrite IH, appendSection_app. now rewrite <- app_assoc.
Qed.

(** X12 ([_writeRemarksSection]): the remarks and the examples of an
    item.  The remarks block, when the comment has one, comes under the
    heading [Remarks]; each [@example] block follows under a heading of
    its own, in the order of the comment.  A single example has the
    heading [Example]; of several, the k-th has the heading [Example k],
    counted from 1.  Blocks with other tags take no number. *)
Theorem X12_examples_are_numbered_when_several :
  forall this (output : DocSection) (apiItem : ApiItem) (comment : DocComment),
    documentedComment this apiItem = Some comment ->
    let examples := blocksTagged StandardTags.example comment in
    _writeRemarksSection this output apiItem
    = output
      ++ match remarksBlock comment with
         | Some block => DocHeading "Remarks" :: blockContent block
         | None => []
         end
      ++ flat_map
           (fun numbered : nat * DocBlock =>
              DocHeading
                (if (1 <? length examples)%nat
                 then "Example " +:+ numberToString (Z.of_nat (fst numbered))
                 else "Example")
              :: blockContent (snd numbered))
           (combine (seq 1 (length examples)) examples).
Proof.
  intros this output apiItem comment Hcomment examples.
  unfold _writeRemarksSection. rewrite Hcomment.
  fold examples. rewrite (examples_numbered (length examples) examples _ 1).
  unfold exampleHeading.
  destruct (remarksBlock comment) as [block|]; [|reflexivity].
  rewrite appendSection_app. unfold appendNode. now rewrite <- !app_assoc.
Qed.

Lemma X12_examples_witness :
  _writeRemarksSection Documented.this [] Documented.parse
  = [DocHeading "Remarks"; Documented.paragraph "The name is matched exactly.";
     DocHeading "Example 1"; Documented.paragraph "parse(red)";
     DocHeading "Example 2"; Documented.paragraph "parse(green)"].
Proof.
  rewrite (X12_examples_are_numbered_when_several Documented.this [] Documented.parse
             Documented.comment).
  - reflexivity.
  - reflexivity.
Defined.

(** X13 ([_writeThrowsSection]): the exceptions of an item.  The heading
    [Exceptions] is written once when the comment has a [@throws] block,
    and the contents of all such blocks follow it in the order of the
    comment, with nothing between them; without such a block, or without
    a comment, nothing is written. *)
Theorem X13_exceptions_under_one_heading :
  forall this (output : DocSection) (apiItem : ApiItem),
    (forall comment,
        documentedComment this apiItem = Some comment ->
        _writeThrowsSection this output apiItem
        = match blocksTagged StandardTags.throws comment with
          | [] => output
          | throwsBlocks =>
              output ++ DocHeading "Exceptions" :: flat_map blockContent throwsBlocks
          end)
    /\ (documentedComment this apiItem = None ->
        _writeThrowsSection this output apiItem = output).
Proof.
  intros this output apiItem. unfold _writeThrowsSection. split.
  - intros comment ->.
    destruct (blocksTagged StandardTags.throws comment) as [|block blocks] eqn:Hblocks;
      [reflexivity|].
    cbn [length Nat.ltb Nat.leb]. rewrite throws_flat. unfold appendNode.
    now rewrite <- app_assoc.
  - now intros ->.
Qed.

Lemma X13_exceptions_witness :
  _writeThrowsSection Documented.this [] Documented.parse
  = [DocHeading "Exceptions"; Documented.paragraph "RangeError for an unknown name"].
Proof.
  destruct (X13_exceptions_under_one_heading Documented.this [] Documented.parse)
    as [Hcomment _].
  rewrite (Hcomment Documented.comment); reflexivity.
Defined.

(** ** The page of an item does not depend on the run *)

Lemma forEach_result {A S : Type} (step : S -> A -> S) (body : S -> A -> M S) :
  (forall s x w s' w', body s x w = (inr s', w') -> s' = step s x) ->
  forall l s w s' w',
    forEach l s body w = (inr s', w') -> s' = fold_left step l s.
Proof.
  intros Hbody. induction l as [|x l IH]; intros s w s' w'; simpl.
  - now intros [= <- _].
  - unfold bind. destruct (body s x w) as [[e|s1] w1] eqn:Hb; [discriminate|].
    intros H. apply Hbody in Hb as ->. now apply IH in H.
Qed.

Lemma called_result {S : Type} (writeApiItemPage : ApiItem -> M unit) (a : ApiItem)
    (s s' : S) (w w' : World) :
  (let! _ := writeApiItemPage a in ret s) w = (inr s', w') -> s' = s.
Proof.
  unfold bind. destruct (writeApiItemPage a w) as [[e|[]] w1]; [discriminate|].
  now intros [= <- _].
Qed.

Lemma fold_left_rows {A B : Type} (listed : A -> bool) (row : A -> B) (l : list A) :
  forall rows,
    fold_left (fun rows x => if listed x then rows ++ [row x] else rows) l rows
    = rows ++ map row (List.filter listed l).
Proof.
  induction l as [|x l IH]; intros rows; simpl.
  - now rewrite app_nil_r.
  - rewrite IH. destruct (listed x); [|reflexivity].
    simpl. now rewrite <- app_assoc.
Qed.

Section PageResult.

Context (env : Environment) (this : HugoDocumenter).

Lemma collectMemberRows_result (writeApiItemPage : ApiItem -> M unit) addRow
    (owner : ApiItem) (l : list ApiItem) (w w' : World) (tables : MemberTables) :
  collectMemberRows writeApiItemPage addRow owner l w = (inr tables, w') ->
  tables = memberTablesOf addRow owner l.
Proof.
  unfold collectMemberRows, memberTablesOf. apply forEach_result.
  intros t m w0 t' w1. destruct (addRow t m _).
  - apply called_result.
  - now intros [= <- _].
Qed.

Lemma containerLoop_result (writeApiItemPage : ApiItem -> M unit) (l : list ApiItem)
    (w w' : World) (tables : ContainerTables) :
  forEach l emptyContainerTables
    (fun tables apiMember =>
       let row := [_createTitleCell env this apiMember;
                   _createDescriptionCell env this apiMember false] in
       match addContainerRow tables (kind (item this apiMember))
                             (isAbstract (item this apiMember)) row with
       | Some tables => let! _ := writeApiItemPage apiMember in ret tables
       | None => ret tables
       end) w = (inr tables, w') ->
  tables = containerTablesOf env this l.
Proof.
  unfold containerTablesOf. apply forEach_result.
  intros t m w0 t' w1. cbv zeta. destruct (addContainerRow _ _ _ _).
  - apply called_result.
  - now intros [= <- _].
Qed.

Lemma getMembers_output (apiItem : ApiItem) (output : DocSection) (w w' : World)
    apiMembers output' :
  _getMembersAndWriteIncompleteWarning env this apiItem output w
  = (inr (apiMembers, output'), w') ->
  apiMembers = pageMembers env this apiItem
  /\ output' = membersOutput env this apiItem output.
Proof.
  rewrite getMembers_spec. unfold pageMembers, membersOutput.
  destruct (showInheritedMembers this); simpl.
  - intros [= <- <- _]. split; [reflexivity|].
    destruct (maybeIncompleteResult _); [reflexivity | now rewrite app_nil_r].
  - now intros [= <- <- _].
Qed.

(** What the kind-specific part returns is a function of the item. *)
Lemma writeKindSpecific_result (writeApiItemPage : ApiItem -> M unit)
    (output written : DocSection) (apiItem : ApiItem) (w w' : World) :
  writeKindSpecific env this writeApiItemPage output apiItem w = (inr written, w') ->
  written = kindSpecificOutput env this output apiItem.
Proof.
  unfold writeKindSpecific, kindSpecificOutput.
  destruct (kind (item this apiItem)) eqn:K;
    try (unfold throw; discriminate); try (now intros [= <- _]).
  - (* class *)
    unfold _writeClassTables, bind.
    destruct (_getMembersAndWriteIncompleteWarning _ _ _ _ _)
      as [[e|[apiMembers out]] w1] eqn:Hm; [discriminate|].
    apply getMembers_output in Hm as [-> ->].
    destruct (collectMemberRows _ _ _ _ _) as [[e|tables] w2] eqn:Hc; [discriminate|].
    apply collectMemberRows_result in Hc as ->. now intros [= <- _].
  - (* interface *)
    unfold _writeInterfaceTables, bind.
    destruct (_getMembersAndWriteIncompleteWarning _ _ _ _ _)
      as [[e|[apiMembers out]] w1] eqn:Hm; [discriminate|].
    apply getMembers_output in Hm as [-> ->].
    destruct (collectMemberRows _ _ _ _ _) as [[e|tables] w2] eqn:Hc; [discriminate|].
    apply collectMemberRows_result in Hc as ->. now intros [= <- _].
  - (* model *)
    unfold _writeModelTable, bind.
    destruct (forEach _ _ _ w) as [[e|table] w1] eqn:Hloop; [discriminate|].
    intros [= <- _]. f_equal.
    apply (forEach_result
             (fun rows apiMember =>
                if ApiItemKind.eqb (kind (item this apiMember)) ApiItemKind.Package
                then rows ++ [[_createTitleCell env this apiMember;
                               _createDescriptionCell env this apiMember false]]
                else rows)) in Hloop.
    + rewrite Hloop. apply (fold_left_rows _ _ _ []).
    + intros t m w0 t' w2. cbv zeta.
      destruct (kind (item this m)); simpl; try (now intros [= <- _]).
      apply called_result.
  - (* namespace *)
    unfold _writePackageOrNamespaceTables, bind. rewrite K. simpl.
    destruct (forEach _ _ _ w) as [[e|tables] w1] eqn:Hloop; [discriminate|].
    apply containerLoop_result in Hloop as ->. now intros [= <- _].
  - (* package *)
    unfold _writePackageOrNamespaceTables, bind. rewrite K. simpl.
    destruct (forEach (members this apiItem) _ _ w) as [[e|entrypoints] w1] eqn:Hentry;
      [discriminate|].
    simpl.
    destruct (forEach _ _ _ w1) as [[e|tables] w2] eqn:Hloop; [discriminate|].
    apply containerLoop_result in Hloop as ->.
    apply (forEach_result
             (fun rows entrypoint => rows ++ [entrypointRow env this apiItem entrypoint]))
      in Hentry.
    + assert (Hrows : entrypoints
                      = map (entrypointRow env this apiItem) (members this apiItem)).
      { rewrite Hentry.
        rewrite (fold_left_rows (fun _ => true) (entrypointRow env this apiItem) _ []).
        simpl. f_equal. clear. induction (members this apiItem) as [|x l IH];
          simpl; [reflexivity | now rewrite IH]. }
      rewrite Hrows, length_map. intros [= <- _]. unfold appendNode.
      destruct (1 <? length (members this apiItem))%nat; [|reflexivity].
      now rewrite <- app_assoc.
    + intros t m w0 t' w3. apply called_result.
Qed.

Lemma pageFrontMatter_result (apiItem : ApiItem) (w1 w1' w2 w2' : World) r1 r2 :
  pageFrontMatter env this apiItem w1 = (inr r1, w1') ->
  pageFrontMatter env this apiItem w2 = (inr r2, w2') ->
  r1 = r2.
Proof.
  unfold pageFrontMatter, bind, ret, throw, console_log.
  destruct (kind (item this apiItem)); simpl;
    try (intros [= <- _] [= <- _]; reflexivity); try discriminate.
  destruct (String.eqb _ _); [now intros [= <- _] [= <- _]|].
  destruct (parent apiItem); [now intros [= <- _] [= <- _] | discriminate].
Qed.

(** Two pages built for one item are the same, whatever page writers
    they call for the members and whatever the worlds they start in. *)
Lemma buildPage_result (writeApiItemPage1 writeApiItemPage2 : ApiItem -> M unit)
    (apiItem : ApiItem) (w1 w1' w2 w2' : World) page1 page2 :
  buildPage env this writeApiItemPage1 apiItem w1 = (inr (Some page1), w1') ->
  buildPage env this writeApiItemPage2 apiItem w2 = (inr (Some page2), w2') ->
  page1 = page2.
Proof.
  destruct page1 as [frontMatter1 body1], page2 as [frontMatter2 body2].
  intros (w01 & written1 & Hf1 & Hk1 & ->)%buildPage_inv
         (w02 & written2 & Hf2 & Hk2 & ->)%buildPage_inv.
  pose proof (pageFrontMatter_result _ _ _ _ _ _ _ Hf1 Hf2) as [= ->].
  apply writeKindSpecific_result in Hk1 as ->.
  apply writeKindSpecific_result in Hk2 as ->.
  reflexivity.
Qed.

End PageResult.



(** ** The entry point table and the description cell *)

(** X15 ([_writePackageOrNamespaceTables]): the table of entry points.
    On the page of a package the table [Entrypoints] is written only
    when the package has at least two entry points; it then has one row
    for each entry point, in their order, and comes before the tables of
    the members.  With one entry point, or none, the page goes on with
    the member tables at once. *)
Theorem X15_entry_point_table_needs_two_entry_points :
  forall env this writeApiItemPage (output written : DocSection) (apiPackage : ApiItem)
         (w w' : World),
    kind (item this apiPackage) = ApiItemKind.Package ->
    writeKindSpecific env this writeApiItemPage output apiPackage w = (inr written, w') ->
    let entrypoints := members this apiPackage in
    written
    = output
      ++ (if (1 <? length entrypoints)%nat
          then [DocHeading "Entrypoints";
                DocTable ["Path"] (map (entrypointRow env this apiPackage) entrypoints)]
          else [])
      ++ appendContainerTables []
           (containerTablesOf env this (flat_map (members this) entrypoints)).
Proof.
  intros env this writeApiItemPage output written apiPackage w w' Hkind Hrun entrypoints.
  apply writeKindSpecific_result in Hrun as ->.
  unfold kindSpecificOutput. rewrite Hkind. fold entrypoints.
  rewrite appendContainerTables_app.
  destruct (1 <? length entrypoints)%nat.
  - now rewrite <- app_assoc.
  - reflexivity.
Qed.

Lemma X15_entry_point_table_witness :
  let env := Examples.environment MoreExamples.entryPointsModel [] Examples.noInheritance in
  let this := Examples.documenter MoreExamples.entryPointsModel None in
  fst (writeKindSpecific env this (fun _ => ret tt) [] [0%nat] Examples.emptyWorld)
  = inr [DocHeading "Entrypoints";
         DocTable ["Path"] (map (entrypointRow env this [0%nat]) [[0; 0]; [0; 1]]%nat)].
Proof.
  intros env this.
  destruct (writeKindSpecific env this (fun _ => ret tt) [] [0%nat] Examples.emptyWorld)
    as [[e|written] w'] eqn:Hrun; [vm_compute in Hrun; discriminate Hrun|].
  rewrite (X15_entry_point_table_needs_two_entry_points env this (fun _ => ret tt)
             [] written [0%nat] Examples.emptyWorld w' eq_refl Hrun).
  reflexivity.
Defined.

Lemma appendNodesInParagraph_paragraphOf (nodes docNodes : list DocNode) :
  appendNodesInParagraph (paragraphOf nodes) docNodes = paragraphOf (nodes ++ docNodes).
Proof.
  destruct nodes as [|node nodes]; simpl.
  - destruct docNodes as [|docNode docNodes]; [reflexivity|].
    apply appendNodesInParagraph_new.
  - apply (appendNodesInParagraph_last docNodes [] (node :: nodes)).
Qed.

Lemma appendAndMergeSection_paragraph (output rest : DocSection) (childNodes : list DocNode) :
  _appendAndMergeSection output (DocParagraph childNodes :: rest)
  = appendNodesInParagraph output childNodes ++ rest.
Proof. unfold _appendAndMergeSection. simpl. apply merge_rest. Qed.

Lemma appendAndMergeSection_other (output rest : DocSection) (node : DocNode) :
  (forall nodes, node <> DocParagraph nodes) ->
  _appendAndMergeSection output (node :: rest) = output ++ node :: rest.
Proof.
  intros Hnode. unfold _appendAndMergeSection. simpl.
  destruct node; try (rewrite merge_rest; unfold appendNode; now rewrite <- app_assoc).
  now destruct (Hnode nodes).
Qed.

(** X16 ([_createDescriptionCell]): the description of a member in a
    table.  The marks of the member, [(ALPHA)] or [(BETA)] for an item
    with such a release tag and [(Optional)] for an optional one, and
    the first paragraph of the summary of its comment make one
    paragraph; the rest of the summary follows as it is.  A summary that
    starts with another node follows the paragraph of the marks, and a
    member without marks and without a summary has an empty cell.  The
    note on the class an inherited member comes from ends the cell. *)
Theorem X16_marks_and_summary_share_a_paragraph :
  forall env this (apiItem : ApiItem) (isInherited : bool),
    _createDescriptionCell env this apiItem isInherited
    = match documentedComment this apiItem with
      | Some comment =>
          match summarySection comment with
          | DocParagraph nodes :: rest =>
              paragraphOf (descriptionMarks this apiItem ++ nodes) ++ rest
          | summary => paragraphOf (descriptionMarks this apiItem) ++ summary
          end
      | None => paragraphOf (descriptionMarks this apiItem)
      end
      ++ inheritedNote env this apiItem isInherited.
Proof.
  intros env this apiItem isInherited.
  unfold _createDescriptionCell. cbv zeta.
  match goal with
  | |- context [if isOptional _ then appendNodesInParagraph ?s ?m else ?s] =>
      assert (Hmarks : (if isOptional (item this apiItem)
                        then appendNodesInParagraph s m else s)
                       = paragraphOf (descriptionMarks this apiItem))
  end.
  { unfold descriptionMarks.
    destruct (ApiReleaseTagMixin_isBaseClassOf _);
      [destruct (releaseTag (item this apiItem))|];
      destruct (isOptional (item this apiItem)); reflexivity. }
  rewrite Hmarks. clear Hmarks.
  set (marks := descriptionMarks this apiItem).
  assert (Hnote : forall section : DocSection,
             (if isInherited
              then match parent apiItem with
                   | Some apiParent =>
                       appendNode section
                         (DocParagraph
                            [DocPlainText "(Inherited from ";
                             DocLinkTag (displayName (item this apiParent))
                                        (_getLinkFilenameForApiItem env this apiParent);
                             DocPlainText ")"])
                   | None => section
                   end
              else section)
             = section ++ inheritedNote env this apiItem isInherited).
  { intros section. unfold inheritedNote, appendNode.
    destruct isInherited; [destruct (parent apiItem)|]; now rewrite ?app_nil_r. }
  rewrite Hnote. f_equal.
  destruct (documentedComment this apiItem) as [comment|]; [|reflexivity].
  destruct (summarySection comment) as [|node rest].
  - now rewrite app_nil_r.
  - destruct node;
      try (apply appendAndMergeSection_other; intros ?; discriminate).
    rewrite appendAndMergeSection_paragraph.
    now rewrite appendNodesInParagraph_paragraphOf.
Qed.

(** ** The shape of the tables *)

Lemma rowsFit_app (columns : nat) (rows more : list DocTableRow) :
  rowsFit columns (rows ++ more) = rowsFit columns rows && rowsFit columns more.
Proof. apply forallb_app. Qed.

Lemma tablesRectangular_app (l1 l2 : DocSection) :
  tablesRectangular (l1 ++ l2) = tablesRectangular l1 && tablesRectangular l2.
Proof. apply forallb_app. Qed.

Lemma notOfTable_rectangular (l : DocSection) :
  forallb notOfTable l = true -> tablesRectangular l = true.
Proof.
  induction l as [|node l IH]; simpl; [reflexivity|].
  intros [Hnode Hl]%andb_prop. rewrite (IH Hl), andb_true_r.
  now destruct node.
Qed.

Lemma appendTable_rectangular (output : DocSection) (heading : string)
    (headerTitles : list string) (rows : list DocTableRow) :
  rowsFit (length headerTitles) rows = true ->
  tablesRectangular output = true ->
  tablesRectangular (appendTable output heading headerTitles rows) = true.
Proof.
  intros Hrows Ho. unfold appendTable, appendNode.
  destruct (0 <? length rows)%nat; [|exact Ho].
  rewrite !tablesRectangular_app, Ho. simpl. now rewrite Hrows.
Qed.

Lemma appendNodeInParagraph_rectangular (section : DocSection) (docNode : DocNode) :
  tablesRectangular section = true ->
  tablesRectangular (appendNodeInParagraph section docNode) = true.
Proof.
  intros Hs. unfold appendNodeInParagraph.
  destruct (rev section) as [|last before] eqn:Hrev;
    [now rewrite tablesRectangular_app, Hs|].
  assert (Hsection : section = rev before ++ [last]).
  { rewrite <- (rev_involutive section), Hrev. reflexivity. }
  destruct last; try (now rewrite tablesRectangular_app, Hs).
  rewrite Hsection, tablesRectangular_app in Hs.
  apply andb_prop in Hs as [Hbefore _].
  now rewrite tablesRectangular_app, Hbefore.
Qed.

Lemma fold_left_invariant {A S : Type} (P : S -> Prop) (step : S -> A -> S) (l : list A) :
  (forall s x, P s -> P (step s x)) -> forall s, P s -> P (fold_left step l s).
Proof.
  intros Hstep. induction l as [|x l IH]; intros s Hs; simpl; [exact Hs|].
  apply IH, Hstep, Hs.
Qed.

Lemma rowsFit_map {A : Type} (columns : nat) (row : A -> DocTableRow) (l : list A) :
  (forall x, length (row x) = columns) -> rowsFit columns (map row l) = true.
Proof.
  intros Hrow. unfold rowsFit. rewrite forallb_forall.
  intros r (x & <- & _)%in_map_iff. rewrite Hrow. apply Nat.eqb_refl.
Qed.

Section TableShape.

Context (env : Environment) (this : HugoDocumenter).

Lemma classTables_fit (owner : ApiItem) (l : list ApiItem) :
  memberTablesFit 3 3 (memberTablesOf (addClassRow env this) owner l).
Proof.
  unfold memberTablesOf. apply fold_left_invariant; [|now repeat split].
  intros t m (He & Hc & Hp & Hm). unfold addClassRow.
  destruct (kind (item this m)); try (now repeat split).
  - repeat split; simpl; try assumption. now rewrite rowsFit_app, Hc.
  - repeat split; simpl; try assumption. now rewrite rowsFit_app, Hm.
  - destruct (isEventProperty (item this m)); repeat split; simpl; try assumption.
    + now rewrite rowsFit_app, He.
    + now rewrite rowsFit_app, Hp.
Qed.

Lemma interfaceTables_fit (owner : ApiItem) (l : list ApiItem) :
  memberTablesFit 0 2 (memberTablesOf (addInterfaceRow env this) owner l).
Proof.
  unfold memberTablesOf. apply fold_left_invariant; [|now repeat split].
  intros t m (He & Hc & Hp & Hm). unfold addInterfaceRow.
  destruct (kind (item this m)); try (now repeat split).
  - repeat split; simpl; try assumption. now rewrite rowsFit_app, Hm.
  - repeat split; simpl; try assumption. now rewrite rowsFit_app, Hm.
  - destruct (isEventProperty (item this m)); repeat split; simpl; try assumption.
    + now rewrite rowsFit_app, He.
    + now rewrite rowsFit_app, Hp.
Qed.

Lemma addContainerRow_fit (t t' : ContainerTables) (k : ApiItemKind.t) (abstract : bool)
    (row : DocTableRow) :
  length row = 2%nat ->
  containerTablesFit t ->
  addContainerRow t k abstract row = Some t' ->
  containerTablesFit t'.
Proof.
  intros Hrow (H1 & H2 & H3 & H4 & H5 & H6 & H7 & H8).
  assert (Hone : rowsFit 2 [row] = true) by (simpl; now rewrite Hrow).
  destruct k; simpl; try discriminate; try destruct abstract;
    intros [= <-]; repeat split; simpl; try assumption;
    rewrite rowsFit_app, Hone, andb_true_r; assumption.
Qed.

Lemma containerTables_fit (l : list ApiItem) :
  containerTablesFit (containerTablesOf env this l).
Proof.
  unfold containerTablesOf. apply fold_left_invariant; [|now repeat split].
  intros t m Ht.
  destruct (addContainerRow t _ _ _) as [t'|] eqn:Hadd; [|exact Ht].
  eapply addContainerRow_fit in Hadd; [exact Hadd | reflexivity | exact Ht].
Qed.

Lemma appendContainerTables_rectangular (output : DocSection) (t : ContainerTables) :
  containerTablesFit t ->
  tablesRectangular output = true ->
  tablesRectangular (appendContainerTables output t) = true.
Proof.
  intros (H1 & H2 & H3 & H4 & H5 & H6 & H7 & H8) Ho. unfold appendContainerTables.
  cbv zeta. repeat (apply appendTable_rectangular; [assumption|]). exact Ho.
Qed.

Lemma appendClassTables_rectangular (output : DocSection) (t : MemberTables) :
  memberTablesFit 3 3 t ->
  tablesRectangular output = true ->
  tablesRectangular (appendClassTables output t) = true.
Proof.
  intros (He & Hc & Hp & Hm) Ho. unfold appendClassTables. cbv zeta.
  repeat (apply appendTable_rectangular; [assumption|]). exact Ho.
Qed.

Lemma appendInterfaceTables_rectangular (output : DocSection) (t : MemberTables) :
  memberTablesFit 0 2 t ->
  tablesRectangular output = true ->
  tablesRectangular (appendInterfaceTables output t) = true.
Proof.
  intros (He & Hc & Hp & Hm) Ho. unfold appendInterfaceTables. cbv zeta.
  repeat (apply appendTable_rectangular; [assumption|]). exact Ho.
Qed.

Lemma membersOutput_rectangular (apiItem : ApiItem) (output : DocSection) :
  tablesRectangular output = true ->
  tablesRectangular (membersOutput env this apiItem output) = true.
Proof.
  intros Ho. unfold membersOutput. destruct (_ && _); [|exact Ho].
  now rewrite tablesRectangular_app, Ho.
Qed.

Lemma enumTables_rectangular (output : DocSection) (apiEnum : ApiItem) :
  tablesRectangular output = true ->
  tablesRectangular (_writeEnumTables env this output apiEnum) = true.
Proof.
  intros Ho. unfold _writeEnumTables. cbv zeta.
  apply appendTable_rectangular; [|exact Ho].
  apply (fold_left_invariant (fun rows => rowsFit 3 rows = true)); [|reflexivity].
  intros rows m Hrows. now rewrite rowsFit_app, Hrows.
Qed.

Lemma parameterTables_rectangular (output : DocSection) (apiItem : ApiItem) :
  commentIsStandard this apiItem = true ->
  tablesRectangular output = true ->
  tablesRectangular (_writeParameterTables env this output apiItem) = true.
Proof.
  unfold commentIsStandard, _writeParameterTables. cbv zeta. intros Hstd Ho.
  set (table := appendTable output "Parameters" _ _).
  assert (Ht : tablesRectangular table = true).
  { apply appendTable_rectangular; [|exact Ho].
    apply (fold_left_invariant (fun rows => rowsFit 3 rows = true)); [|reflexivity].
    intros rows p Hrows. now rewrite rowsFit_app, Hrows. }
  clearbody table.
  destruct (ApiReturnTypeMixin_isBaseClassOf _); [|exact Ht].
  unfold appendNode.
  destruct (documentedComment this apiItem) as [comment|].
  - unfold standardComment in Hstd.
    apply andb_prop in Hstd as [Hstd _]. apply andb_prop in Hstd as [_ Hreturns].
    destruct (returnsBlock comment) as [block|];
      rewrite ?appendSection_app, !tablesRectangular_app, Ht; simpl; [|reflexivity].
    apply notOfTable_rectangular. now apply standard_notOfTable.
  - now rewrite !tablesRectangular_app, Ht.
Qed.

Lemma kindSpecificOutput_rectangular (output : DocSection) (apiItem : ApiItem) :
  commentIsStandard this apiItem = true ->
  tablesRectangular output = true ->
  tablesRectangular (kindSpecificOutput env this output apiItem) = true.
Proof.
  intros Hstd Ho.
  assert (Hfunction :
            tablesRectangular
              (_writeThrowsSection this (_writeParameterTables env this output apiItem)
                 apiItem) = true).
  { rewrite writeThrowsSection_app, tablesRectangular_app.
    rewrite (parameterTables_rectangular _ _ Hstd Ho).
    apply notOfTable_rectangular. now apply throwsSection_notOfTable. }
  unfold kindSpecificOutput.
  destruct (kind (item this apiItem)); try exact Ho; try exact Hfunction;
    try (now apply enumTables_rectangular);
    try (now apply appendNodeInParagraph_rectangular);
    try (apply appendClassTables_rectangular;
         [apply classTables_fit | now apply membersOutput_rectangular]);
    try (apply appendInterfaceTables_rectangular;
         [apply interfaceTables_fit | now apply membersOutput_rectangular]);
    try (apply appendContainerTables_rectangular; [apply containerTables_fit|]);
    try exact Ho.
  - apply appendTable_rectangular; [|exact Ho]. now apply rowsFit_map.
  - destruct (1 <? _)%nat; [|exact Ho].
    rewrite tablesRectangular_app, Ho. simpl.
    now rewrite (rowsFit_map 1 (entrypointRow env this apiItem)).
Qed.

Lemma body_rectangular writeApiItemPage (apiItem : ApiItem) (w w' : World)
    (frontMatter : FrontMatter) (body : DocSection) :
  commentIsStandard this apiItem = true ->
  buildPage env this writeApiItemPage apiItem w = (inr (Some (frontMatter, body)), w') ->
  tablesRectangular body = true.
Proof.
  intros Hstd H. apply buildPage_inv in H as (w0 & written & _ & Hw & ->).
  apply writeKindSpecific_result in Hw as ->.
  pose proof (notOfTable_rectangular _ (pageIntroduction_notOfTable env this apiItem Hstd))
    as Hintro.
  pose proof (notOfTable_rectangular _ (remarksSection_notOfTable this apiItem Hstd))
    as Hremarks.
  destruct (remarksBeforeTables _); simpl.
  - apply kindSpecificOutput_rectangular; [exact Hstd|].
    now rewrite writeRemarksSection_app, tablesRectangular_app, Hintro, Hremarks.
  - rewrite writeRemarksSection_app, tablesRectangular_app, Hremarks, andb_true_r.
    now apply kindSpecificOutput_rectangular.
Qed.

End TableShape.

(** X17 (the table writers of [HugoDocumenter]): every row fits its
    table.  In a run over a model whose comments are as the parser
    builds them, every table on every page written has, in each of its
    rows, exactly as many cells as it has header titles: one for the
    entry points, two for packages and the members of a package or
    namespace, three for constructors, methods, enumeration members and
    parameters, two for the methods of an interface, four for
    properties and events. *)
Theorem X17_every_row_fits_its_table :
  forall env this (fuel : nat) (w : World),
    commentsStandardIn (_apiModel this) = true ->
    Forall
      (fun file =>
         forall headerTitles rows row,
           In (DocTable headerTitles rows) (writtenBody file) ->
           In row rows ->
           length row = length headerTitles)
      (files (snd (generateFiles env this fuel w))).
Proof.
  intros env this fuel w Hstd. apply generateFiles_files.
  intros writeApiItemPage apiItem w0 w1 frontMatter output Hb.
  assert (Hrect : tablesRectangular output = true).
  { apply (body_rectangular env this writeApiItemPage apiItem w0 w1 frontMatter output);
      [now apply commentsStandardIn_sound | exact Hb]. }
  intros headerTitles rows row Htable Hrow.
  unfold tablesRectangular in Hrect. rewrite forallb_forall in Hrect.
  specialize (Hrect _ Htable). simpl in Hrect.
  unfold rowsFit in Hrect. rewrite forallb_forall in Hrect.
  now apply Nat.eqb_eq, Hrect.
Qed.

Lemma X17_rows_witness :
  Forall
    (fun file =>
       forall headerTitles rows row,
         In (DocTable headerTitles rows) (writtenBody file) ->
         In row rows ->
         length row = length headerTitles)
    (files (snd (generateFiles Colours.env Colours.this 6 Examples.emptyWorld))).
Proof.
  apply (X17_every_row_fits_its_table Colours.env Colours.this 6 Examples.emptyWorld).
  reflexivity.
Defined.

(** ** Children that the configuration allows *)

Arguments legalChild : simpl never.

Lemma legalChild_unfold (c : CustomDocNodes.TSDocConfiguration) (parentKind : string)
    (node : DocNode) :
  legalChild c parentKind node
  = CustomDocNodes.isAllowedChild c parentKind (docNodeKind node)
    && match node with
       | DocParagraph nodes => forallb (legalChild c "Paragraph") nodes
       | DocEmphasisSpan _ _ nodes =>
           forallb (legalChild c CustomDocNodeKind.EmphasisSpan) nodes
       | DocNoteBox content => forallb (legalChild c "Section") content
       | DocTable _ rows => forallb (forallb (forallb (legalChild c "Section"))) rows
       | _ => true
       end.
Proof. destruct node; reflexivity. Qed.

Ltac allowed_by_computation :=
  rewrite legalChild_unfold;
  match goal with
  | |- CustomDocNodes.isAllowedChild ?c ?p ?k && _ = _ =>
      replace (CustomDocNodes.isAllowedChild c p k) with true
        by (vm_compute; reflexivity)
  end;
  reflexivity.

Lemma legal_paragraph (nodes : list DocNode) :
  legalChild CustomDocNodes.customConfiguration "Section" (DocParagraph nodes)
  = legalParagraph nodes.
Proof. allowed_by_computation. Qed.

Lemma legal_heading (title : string) :
  legalChild CustomDocNodes.customConfiguration "Section" (DocHeading title) = true.
Proof. allowed_by_computation. Qed.

Lemma legal_fencedCode (code language : string) :
  legalChild CustomDocNodes.customConfiguration "Section" (DocFencedCode code language)
  = true.
Proof. allowed_by_computation. Qed.

Lemma legal_noteBox (content : list DocNode) :
  legalChild CustomDocNodes.customConfiguration "Section" (DocNoteBox content)
  = legalSection content.
Proof. allowed_by_computation. Qed.

Lemma legal_table (headerTitles : list string) (rows : list DocTableRow) :
  legalChild CustomDocNodes.customConfiguration "Section" (DocTable headerTitles rows)
  = forallb legalRow rows.
Proof. allowed_by_computation. Qed.

Lemma legal_plainText (text : string) :
  legalChild CustomDocNodes.customConfiguration "Paragraph" (DocPlainText text) = true.
Proof. allowed_by_computation. Qed.

Lemma legal_codeSpan (code : string) :
  legalChild CustomDocNodes.customConfiguration "Paragraph" (DocCodeSpan code) = true.
Proof. allowed_by_computation. Qed.

Lemma legal_linkTag (linkText urlDestination : string) :
  legalChild CustomDocNodes.customConfiguration "Paragraph"
    (DocLinkTag linkText urlDestination) = true.
Proof. allowed_by_computation. Qed.

Lemma legal_span_text (text : string) :
  legalChild CustomDocNodes.customConfiguration CustomDocNodeKind.EmphasisSpan
    (DocPlainText text) = true.
Proof. allowed_by_computation. Qed.

Lemma legal_emphasisSpan (bold italic : bool) (text : string) :
  legalChild CustomDocNodes.customConfiguration "Paragraph"
    (DocEmphasisSpan bold italic [DocPlainText text]) = true.
Proof.
  rewrite legalChild_unfold. cbn [forallb]. rewrite legal_span_text.
  vm_compute. reflexivity.
Qed.

Ltac legal :=
  unfold legalSection, legalParagraph, legalRow, appendNode, appendNodes,
    boldText, italicText in *;
  repeat first
    [ rewrite forallb_app
    | rewrite legal_paragraph | rewrite legal_heading | rewrite legal_fencedCode
    | rewrite legal_noteBox | rewrite legal_table | rewrite legal_plainText
    | rewrite legal_codeSpan | rewrite legal_linkTag | rewrite legal_emphasisSpan
    | progress cbn [forallb andb]
    | progress unfold legalSection, legalParagraph, legalRow ].

Lemma forallb_snoc {A : Type} (f : A -> bool) (l : list A) (x : A) :
  forallb f l = true -> f x = true -> forallb f (l ++ [x]) = true.
Proof. intros Hl Hx. rewrite forallb_app, Hl. simpl. now rewrite Hx. Qed.

Lemma appendSection_legal (docSection output : DocSection) :
  legalSection output = true -> legalSection docSection = true ->
  legalSection (_appendSection output docSection) = true.
Proof. intros Ho Hs. rewrite appendSection_app. legal. now rewrite Ho, Hs. Qed.

Lemma appendNodeInParagraph_legal (section : DocSection) (docNode : DocNode) :
  legalSection section = true ->
  legalChild CustomDocNodes.customConfiguration "Paragraph" docNode = true ->
  legalSection (appendNodeInParagraph section docNode) = true.
Proof.
  intros Hs Hn. unfold appendNodeInParagraph.
  assert (Hnew : legalSection (section ++ [DocParagraph [docNode]]) = true)
    by (legal; now rewrite Hs, Hn).
  destruct (rev section) as [|last before] eqn:Hrev; [exact Hnew|].
  assert (Hsection : section = rev before ++ [last]).
  { rewrite <- (rev_involutive section), Hrev. reflexivity. }
  destruct last as [?| |?|? ?|? ?|nodes|? ? ?|?|?|? ?]; try exact Hnew.
  rewrite Hsection in Hs. unfold legalSection in Hs.
  rewrite forallb_app in Hs. cbn [forallb] in Hs. rewrite legal_paragraph in Hs.
  apply andb_prop in Hs as [Hbefore Hlast]. rewrite andb_true_r in Hlast.
  unfold legalParagraph in Hlast. legal. now rewrite Hbefore, Hlast, Hn.
Qed.

Lemma appendNodesInParagraph_legal (docNodes : list DocNode) :
  forall section : DocSection,
    legalSection section = true ->
    legalParagraph docNodes = true ->
    legalSection (appendNodesInParagraph section docNodes) = true.
Proof.
  unfold appendNodesInParagraph.
  induction docNodes as [|docNode docNodes IH]; intros section Hs Hn; simpl; [exact Hs|].
  unfold legalParagraph in Hn. cbn [forallb] in Hn. apply andb_prop in Hn as [Hn Hrest].
  apply IH; [now apply appendNodeInParagraph_legal | exact Hrest].
Qed.

Lemma appendAndMergeSection_legal (output docSection : DocSection) :
  legalSection output = true -> legalSection docSection = true ->
  legalSection (_appendAndMergeSection output docSection) = true.
Proof.
  intros Ho Hs. destruct docSection as [|node rest]; [exact Ho|].
  assert (Hother : legalSection (output ++ node :: rest) = true)
    by (unfold legalSection in *; now rewrite forallb_app, Ho, Hs).
  destruct node as [?| |?|? ?|? ?|nodes|? ? ?|?|?|? ?];
    try (rewrite appendAndMergeSection_other; [exact Hother | intros ?; discriminate]).
  rewrite appendAndMergeSection_paragraph.
  unfold legalSection in Hs. cbn [forallb] in Hs. rewrite legal_paragraph in Hs.
  apply andb_prop in Hs as [Hnodes Hrest].
  pose proof (appendNodesInParagraph_legal nodes output Ho Hnodes) as Hmerged.
  legal. now rewrite Hmerged, Hrest.
Qed.

Lemma textOrLink_legal (nodes : list DocNode) :
  forallb isTextOrLink nodes = true -> legalParagraph nodes = true.
Proof.
  induction nodes as [|node nodes IH]; [reflexivity|].
  cbn [forallb]. intros [Hnode Hnodes]%andb_prop.
  unfold legalParagraph in *. cbn [forallb]. rewrite (IH Hnodes), andb_true_r.
  destruct node; try discriminate Hnode; [apply legal_plainText | apply legal_linkTag].
Qed.

Section Legality.

Context (env : Environment) (this : HugoDocumenter).

Hypothesis itemsLegal : forall apiItem, itemLegal (item this apiItem) = true.

Lemma comment_legal (apiItem : ApiItem) (comment : DocComment) :
  documentedComment this apiItem = Some comment -> commentLegal comment = true.
Proof.
  unfold documentedComment. destruct (isApiDocumentedItem _); [|discriminate].
  intros H. pose proof (itemsLegal apiItem) as Hitem. unfold itemLegal in Hitem.
  rewrite H in Hitem. now apply andb_prop in Hitem as [Hc _].
Qed.

Lemma commentLegal_parts (comment : DocComment) :
  commentLegal comment = true ->
  legalSection (summarySection comment) = true
  /\ legalBlock (remarksBlock comment) = true
  /\ legalBlock (deprecatedBlock comment) = true
  /\ legalBlock (returnsBlock comment) = true
  /\ forall tag block, In block (blocksTagged tag comment) ->
                       legalSection (blockContent block) = true.
Proof.
  unfold commentLegal. intros H.
  apply andb_prop in H as [H Hcustom]. apply andb_prop in H as [H Hreturns].
  apply andb_prop in H as [H Hdeprecated]. apply andb_prop in H as [Hsummary Hremarks].
  repeat split; try assumption.
  intros tag block [Hin _]%filter_In. rewrite forallb_forall in Hcustom.
  now apply Hcustom.
Qed.

Lemma appendToken_legal (container : DocNodeContainer) (token : ExcerptToken) :
  legalParagraph container = true ->
  legalParagraph (_appendExcerptTokenWithHyperlinks env this container token) = true.
Proof.
  intros Hc. destruct (appendToken_textOrLink env this container token) as (node & -> & Hn).
  pose proof (textOrLink_legal [node]) as Hnode. cbn [forallb] in Hnode.
  rewrite Hn in Hnode. specialize (Hnode eq_refl).
  unfold legalParagraph in *. now rewrite forallb_app, Hc, Hnode.
Qed.

Lemma appendExcerpt_legal (excerpt : Excerpt) (container : DocNodeContainer) :
  legalParagraph container = true ->
  legalParagraph (_appendExcerptWithHyperlinks env this container excerpt) = true.
Proof.
  intros Hc.
  destruct (appendExcerpt_textOrLink env this excerpt container) as (added & -> & _ & Hall).
  apply textOrLink_legal in Hall. unfold legalParagraph in *.
  now rewrite forallb_app, Hc, Hall.
Qed.

Lemma typeParagraph_legal (excerpt : Excerpt) :
  legalChild CustomDocNodes.customConfiguration "Section"
    (_createParagraphForTypeExcerpt env this excerpt) = true.
Proof.
  unfold _createParagraphForTypeExcerpt. rewrite legal_paragraph.
  destruct (trimsToEmpty _); [legal; reflexivity|].
  now apply appendExcerpt_legal.
Qed.

Lemma heritageFold_legal (types : list Excerpt) :
  forall (paragraph : DocNodeContainer) (needsComma : bool),
    legalParagraph paragraph = true ->
    legalParagraph
      (fst (fold_left
              (fun (state : DocNodeContainer * bool) heritageType =>
                 let '(paragraph, needsComma) := state in
                 let paragraph :=
                   if needsComma then appendNode paragraph (DocPlainText ", ")
                   else paragraph in
                 (_appendExcerptWithHyperlinks env this paragraph heritageType, true))
              types (paragraph, needsComma))) = true.
Proof.
  induction types as [|heritageType types IH]; intros paragraph needsComma Hp; simpl;
    [exact Hp|].
  apply IH. apply appendExcerpt_legal.
  destruct needsComma; [|exact Hp]. legal. now rewrite Hp.
Qed.

Lemma heritageList_legal (label : string) (types : list Excerpt) :
  legalChild CustomDocNodes.customConfiguration "Section"
    (heritageList env this label types) = true.
Proof.
  unfold heritageList. rewrite legal_paragraph.
  apply heritageFold_legal. legal. reflexivity.
Qed.

Lemma references_legal (refs : list ExcerptToken) :
  forall (paragraph : DocNodeContainer) (needsComma : bool) (visited : gset string),
    legalParagraph paragraph = true ->
    legalParagraph (fst (fst (fold_left (referencesStep env this) refs
                                (paragraph, needsComma, visited)))) = true.
Proof.
  induction refs as [|ref refs IH]; intros paragraph needsComma visited Hp; simpl;
    [exact Hp|].
  destruct (bool_decide _); [now apply IH|].
  apply IH. apply appendToken_legal.
  destruct needsComma; [|exact Hp]. legal. now rewrite Hp.
Qed.

Lemma appendNode_legal (output : DocSection) (node : DocNode) :
  legalSection output = true ->
  legalChild CustomDocNodes.customConfiguration "Section" node = true ->
  legalSection (appendNode output node) = true.
Proof.
  intros Ho Hn. unfold appendNode, legalSection in *.
  rewrite forallb_app, Ho. cbn [forallb]. now rewrite Hn.
Qed.

Lemma boldText_legal (label : string) : legalParagraph [boldText label] = true.
Proof. legal. reflexivity. Qed.

Lemma writeHeritageTypes_legal (output : DocSection) (apiItem : ApiItem) :
  legalSection output = true ->
  legalSection (_writeHeritageTypes env this output apiItem) = true.
Proof.
  intros Ho. unfold _writeHeritageTypes. cbv zeta.
  pose proof (references_legal
                (List.filter (isResolvedReference env) (excerptTokens (item this apiItem)))
                [boldText "References: "] false ∅ (boldText_legal _)) as Hrefs.
  destruct (fold_left (referencesStep env this) _ _) as [[paragraph ?] ?].
  simpl in Hrefs.
  destruct (ApiItemKind.eqb _ ApiItemKind.Class);
    destruct (ApiItemKind.eqb _ ApiItemKind.Interface);
    destruct (ApiItemKind.eqb _ ApiItemKind.TypeAlias);
    repeat first
      [ exact Ho
      | apply appendNode_legal
      | apply heritageList_legal
      | rewrite legal_paragraph;
        first [exact Hrefs | apply appendExcerpt_legal; apply boldText_legal]
      | match goal with
        | |- context [if ?c then _ else _] => destruct c
        | |- context [match extendsType ?d with _ => _ end] => destruct (extendsType d)
        end ].
Qed.

Lemma decorators_legal (blocks : list DocBlock) :
  forall output : DocSection,
    (forall block, In block blocks -> legalSection (blockContent block) = true) ->
    legalSection output = true ->
    legalSection
      (fold_left (fun output decoratorBlock => appendNodes output (blockContent decoratorBlock))
                 blocks output) = true.
Proof.
  induction blocks as [|block blocks IH]; intros output Hblocks Ho; simpl; [exact Ho|].
  apply IH; [intros b Hb; apply Hblocks; now right|].
  pose proof (Hblocks block (or_introl eq_refl)) as Hb.
  legal. now rewrite Ho, Hb.
Qed.

Lemma pageIntroduction_legal (apiItem : ApiItem) :
  legalSection (pageIntroduction env this apiItem) = true.
Proof.
  unfold pageIntroduction. cbv zeta.
  match goal with
  | |- context [if ApiReleaseTagMixin_isBaseClassOf ?k then ?warned else ?plain] =>
      set (output0 := if ApiReleaseTagMixin_isBaseClassOf k then warned else plain)
  end.
  assert (H0 : legalSection output0 = true).
  { unfold output0, _writeAlphaWarning, _writeBetaWarning.
    destruct (ApiReleaseTagMixin_isBaseClassOf _); [|reflexivity].
    destruct (releaseTag (item this apiItem)); legal; reflexivity. }
  clearbody output0.
  destruct (documentedComment this apiItem) as [comment|] eqn:Hcomment.
  - destruct (commentLegal_parts comment (comment_legal apiItem comment Hcomment))
      as (Hsummary & _ & Hdeprecated & _ & Hcustom).
    set (output1 := _appendSection _ (summarySection comment)).
    assert (H1 : legalSection output1 = true).
    { unfold output1. apply appendSection_legal; [|exact Hsummary].
      destruct (deprecatedBlock comment) as [block|]; [|exact H0].
      simpl in Hdeprecated. legal. now rewrite H0, Hdeprecated. }
    clearbody output1.
    set (output2 := if isApiDeclaredItem _ then _ else output1).
    assert (H2 : legalSection output2 = true).
    { unfold output2. destruct (isApiDeclaredItem _); [|exact H1].
      apply writeHeritageTypes_legal.
      destruct (0 <? _)%nat; [|exact H1]. legal. now rewrite H1. }
    clearbody output2.
    destruct (0 <? _)%nat; [|exact H2].
    apply decorators_legal; [apply Hcustom|]. legal. now rewrite H2.
  - set (output2 := if isApiDeclaredItem _ then _ else output0).
    assert (H2 : legalSection output2 = true).
    { unfold output2. destruct (isApiDeclaredItem _); [|exact H0].
      apply writeHeritageTypes_legal.
      destruct (0 <? _)%nat; [|exact H0]. legal. now rewrite H0. }
    clearbody output2. exact H2.
Qed.

Lemma examples_legal (count : nat) (blocks : list DocBlock) :
  forall (output : DocSection) (exampleNumber : Z),
    (forall block, In block blocks -> legalSection (blockContent block) = true) ->
    legalSection output = true ->
    legalSection
      (fst (fold_left
              (fun (state : DocSection * Z) exampleBlock =>
                 let '(output, exampleNumber) := state in
                 (_appendSection
                    (appendNode output (DocHeading (exampleHeading count exampleNumber)))
                    (blockContent exampleBlock),
                  (exampleNumber + 1)%Z))
              blocks (output, exampleNumber))) = true.
Proof.
  induction blocks as [|block blocks IH]; intros output exampleNumber Hblocks Ho; simpl;
    [exact Ho|].
  apply IH; [intros b Hb; apply Hblocks; now right|].
  apply appendSection_legal; [|apply Hblocks; now left].
  legal. now rewrite Ho.
Qed.

Lemma remarksSection_legal (output : DocSection) (apiItem : ApiItem) :
  legalSection output = true ->
  legalSection (_writeRemarksSection this output apiItem) = true.
Proof.
  intros Ho. unfold _writeRemarksSection.
  destruct (documentedComment this apiItem) as [comment|] eqn:Hcomment; [|exact Ho].
  destruct (commentLegal_parts comment (comment_legal apiItem comment Hcomment))
    as (_ & Hremarks & _ & _ & Hcustom).
  apply examples_legal; [apply Hcustom|].
  destruct (remarksBlock comment) as [block|]; [|exact Ho].
  apply appendSection_legal; [|exact Hremarks]. legal. now rewrite Ho.
Qed.

Lemma throwsSection_legal (output : DocSection) (apiItem : ApiItem) :
  legalSection output = true ->
  legalSection (_writeThrowsSection this output apiItem) = true.
Proof.
  intros Ho. unfold _writeThrowsSection.
  destruct (documentedComment this apiItem) as [comment|] eqn:Hcomment; [|exact Ho].
  destruct (commentLegal_parts comment (comment_legal apiItem comment Hcomment))
    as (_ & _ & _ & _ & Hcustom).
  specialize (Hcustom StandardTags.throws).
  destruct (0 <? _)%nat; [|exact Ho].
  rewrite throws_flat.
  assert (Hflat : forall blocks,
             (forall block, In block blocks -> legalSection (blockContent block) = true) ->
             legalSection (flat_map blockContent blocks) = true).
  { induction blocks as [|block blocks IH]; intros Hb; simpl; [reflexivity|].
    pose proof (Hb block (or_introl eq_refl)) as Hblock.
    pose proof (IH (fun b H => Hb b (or_intror H))) as Hrest.
    legal. now rewrite Hblock, Hrest. }
  specialize (Hflat _ Hcustom). legal. now rewrite Ho, Hflat.
Qed.

(** *** Cells *)

Lemma titleCell_legal (apiItem : ApiItem) :
  legalSection (_createTitleCell env this apiItem) = true.
Proof. unfold _createTitleCell. legal. reflexivity. Qed.

Lemma descriptionCell_legal (apiItem : ApiItem) (isInherited : bool) :
  legalSection (_createDescriptionCell env this apiItem isInherited) = true.
Proof.
  unfold _createDescriptionCell. cbv zeta.
  match goal with
  | |- context [if isOptional _ then appendNodesInParagraph ?s ?m else ?s] =>
      set (section0 := s);
      assert (H0 : legalSection section0 = true)
  end.
  { unfold section0. destruct (ApiReleaseTagMixin_isBaseClassOf _); [|reflexivity].
    destruct (releaseTag (item this apiItem)); try reflexivity;
      (apply appendNodesInParagraph_legal; [reflexivity | legal; reflexivity]). }
  clearbody section0.
  set (section1 := if isOptional _ then _ else section0).
  assert (H1 : legalSection section1 = true).
  { unfold section1. destruct (isOptional _); [|exact H0].
    apply appendNodesInParagraph_legal; [exact H0 | legal; reflexivity]. }
  clearbody section1.
  set (section2 := match documentedComment this apiItem with
                   | Some _ => _ | None => section1 end).
  assert (H2 : legalSection section2 = true).
  { unfold section2.
    destruct (documentedComment this apiItem) as [comment|] eqn:Hcomment; [|exact H1].
    destruct (commentLegal_parts comment (comment_legal apiItem comment Hcomment))
      as (Hsummary & _).
    now apply appendAndMergeSection_legal. }
  clearbody section2.
  destruct isInherited; [|exact H2].
  destruct (parent apiItem); [|exact H2].
  legal. now rewrite H2.
Qed.

Lemma modifiersCell_legal (apiItem : ApiItem) :
  legalSection (_createModifiersCell this apiItem) = true.
Proof.
  unfold _createModifiersCell. cbv zeta.
  destruct (isProtected _), (isStatic _), (isAbstract _), (isReadonly _);
    legal; reflexivity.
Qed.

Lemma propertyTypeCell_legal (apiItem : ApiItem) :
  legalSection (_createPropertyTypeCell env this apiItem) = true.
Proof.
  unfold _createPropertyTypeCell. cbv zeta.
  destruct (isApiPropertyItem _); [|reflexivity].
  unfold appendNode, legalSection. cbn [app forallb].
  now rewrite typeParagraph_legal.
Qed.

Lemma initializerCell_legal (apiItem : ApiItem) :
  legalSection (_createInitializerCell this apiItem) = true.
Proof.
  unfold _createInitializerCell.
  destruct (initializerExcerpt _); [|reflexivity].
  apply appendNodeInParagraph_legal; [reflexivity | apply legal_codeSpan].
Qed.

Lemma row_legal (cells : list DocTableCell) :
  Forall (fun cell => legalSection cell = true) cells -> legalRow cells = true.
Proof.
  intros H. unfold legalRow. rewrite forallb_forall. now rewrite List.Forall_forall in H.
Qed.

Ltac legal_cells :=
  repeat (apply List.Forall_cons;
          [first [ apply titleCell_legal | apply modifiersCell_legal
                 | apply propertyTypeCell_legal | apply descriptionCell_legal
                 | apply initializerCell_legal ]|]);
  apply List.Forall_nil.

Lemma propertyRow_legal (apiMember : ApiItem) (isInherited : bool) :
  legalRow (propertyRow env this apiMember isInherited) = true.
Proof.
  apply row_legal. unfold propertyRow. legal_cells.
Qed.

Lemma threeCells_legal (apiMember : ApiItem) (isInherited : bool) :
  legalRow [_createTitleCell env this apiMember; _createModifiersCell this apiMember;
            _createDescriptionCell env this apiMember isInherited] = true.
Proof.
  apply row_legal. legal_cells.
Qed.

Lemma twoCells_legal (apiMember : ApiItem) (isInherited : bool) :
  legalRow [_createTitleCell env this apiMember;
            _createDescriptionCell env this apiMember isInherited] = true.
Proof.
  apply row_legal. legal_cells.
Qed.

(** *** Tables *)

Lemma appendTable_legal (output : DocSection) (heading : string)
    (headerTitles : list string) (rows : list DocTableRow) :
  forallb legalRow rows = true ->
  legalSection output = true ->
  legalSection (appendTable output heading headerTitles rows) = true.
Proof.
  intros Hrows Ho. unfold appendTable. destruct (0 <? _)%nat; [|exact Ho].
  unfold appendNode, legalSection in *. rewrite !forallb_app, Ho. cbn [forallb].
  now rewrite legal_heading, legal_table, Hrows.
Qed.

Lemma classTables_legal (owner : ApiItem) (l : list ApiItem) :
  memberTablesAll legalRow (memberTablesOf (addClassRow env this) owner l).
Proof.
  unfold memberTablesOf. apply fold_left_invariant; [|now repeat split].
  intros t m (He & Hc & Hp & Hm). unfold addClassRow.
  destruct (kind (item this m)); try (now repeat split).
  - repeat split; cbn [constructorsTable eventsTable propertiesTable methodsTable];
      try assumption.
    apply forallb_snoc; [exact Hc | apply threeCells_legal].
  - repeat split; cbn [constructorsTable eventsTable propertiesTable methodsTable];
      try assumption.
    apply forallb_snoc; [exact Hm | apply threeCells_legal].
  - destruct (isEventProperty (item this m)); repeat split;
      cbn [constructorsTable eventsTable propertiesTable methodsTable]; try assumption.
    + apply forallb_snoc; [exact He | apply propertyRow_legal].
    + apply forallb_snoc; [exact Hp | apply propertyRow_legal].
Qed.

Lemma interfaceTables_legal (owner : ApiItem) (l : list ApiItem) :
  memberTablesAll legalRow (memberTablesOf (addInterfaceRow env this) owner l).
Proof.
  unfold memberTablesOf. apply fold_left_invariant; [|now repeat split].
  intros t m (He & Hc & Hp & Hm). unfold addInterfaceRow.
  destruct (kind (item this m)); try (now repeat split).
  - repeat split; cbn [constructorsTable eventsTable propertiesTable methodsTable];
      try assumption.
    apply forallb_snoc; [exact Hm | apply twoCells_legal].
  - repeat split; cbn [constructorsTable eventsTable propertiesTable methodsTable];
      try assumption.
    apply forallb_snoc; [exact Hm | apply twoCells_legal].
  - destruct (isEventProperty (item this m)); repeat split;
      cbn [constructorsTable eventsTable propertiesTable methodsTable]; try assumption.
    + apply forallb_snoc; [exact He | apply propertyRow_legal].
    + apply forallb_snoc; [exact Hp | apply propertyRow_legal].
Qed.

Lemma addContainerRow_all (r : DocTableRow -> bool) (t t' : ContainerTables)
    (k : ApiItemKind.t) (abstract : bool) (row : DocTableRow) :
  r row = true ->
  containerTablesAll r t ->
  addContainerRow t k abstract row = Some t' ->
  containerTablesAll r t'.
Proof.
  intros Hrow (H1 & H2 & H3 & H4 & H5 & H6 & H7 & H8).
  assert (Hone : forallb r [row] = true) by (simpl; now rewrite Hrow).
  destruct k; simpl; try discriminate; try destruct abstract;
    intros [= <-]; repeat split; simpl; try assumption;
    rewrite forallb_app, Hone, andb_true_r; assumption.
Qed.

Lemma containerTables_legal (l : list ApiItem) :
  containerTablesAll legalRow (containerTablesOf env this l).
Proof.
  unfold containerTablesOf. apply fold_left_invariant; [|now repeat split].
  intros t m Ht.
  destruct (addContainerRow t _ _ _) as [t'|] eqn:Hadd; [|exact Ht].
  eapply addContainerRow_all in Hadd; [exact Hadd | apply twoCells_legal | exact Ht].
Qed.

Lemma appendContainerTables_legal (output : DocSection) (t : ContainerTables) :
  containerTablesAll legalRow t ->
  legalSection output = true ->
  legalSection (appendContainerTables output t) = true.
Proof.
  intros (H1 & H2 & H3 & H4 & H5 & H6 & H7 & H8) Ho. unfold appendContainerTables.
  cbv zeta. repeat (apply appendTable_legal; [assumption|]). exact Ho.
Qed.

Lemma appendClassTables_legal (output : DocSection) (t : MemberTables) :
  memberTablesAll legalRow t ->
  legalSection output = true ->
  legalSection (appendClassTables output t) = true.
Proof.
  intros (He & Hc & Hp & Hm) Ho. unfold appendClassTables. cbv zeta.
  repeat (apply appendTable_legal; [assumption|]). exact Ho.
Qed.

Lemma appendInterfaceTables_legal (output : DocSection) (t : MemberTables) :
  memberTablesAll legalRow t ->
  legalSection output = true ->
  legalSection (appendInterfaceTables output t) = true.
Proof.
  intros (He & Hc & Hp & Hm) Ho. unfold appendInterfaceTables. cbv zeta.
  repeat (apply appendTable_legal; [assumption|]). exact Ho.
Qed.

Lemma membersOutput_legal (apiItem : ApiItem) (output : DocSection) :
  legalSection output = true ->
  legalSection (membersOutput env this apiItem output) = true.
Proof.
  intros Ho. unfold membersOutput, incompleteWarning. destruct (_ && _); [|exact Ho].
  legal. now rewrite Ho.
Qed.

Lemma enumTables_legal (output : DocSection) (apiEnum : ApiItem) :
  legalSection output = true ->
  legalSection (_writeEnumTables env this output apiEnum) = true.
Proof.
  intros Ho. unfold _writeEnumTables. cbv zeta.
  apply appendTable_legal; [|exact Ho].
  apply (fold_left_invariant (fun rows => forallb legalRow rows = true)); [|reflexivity].
  intros rows m Hrows. cbv beta in *. apply forallb_snoc; [exact Hrows|].
  apply row_legal.
  apply List.Forall_cons; [legal; reflexivity|]. legal_cells.
Qed.

Lemma parameter_legal (apiItem : ApiItem) (apiParameter : ApiParameter) :
  In apiParameter (parameters (item this apiItem)) ->
  legalBlock (tsdocParamBlock apiParameter) = true.
Proof.
  intros Hin. pose proof (itemsLegal apiItem) as Hitem. unfold itemLegal in Hitem.
  apply andb_prop in Hitem as [_ Hparams]. rewrite forallb_forall in Hparams.
  now apply Hparams.
Qed.

Lemma parameterRows_legal (apiParameters : list ApiParameter) :
  (forall apiParameter, In apiParameter apiParameters ->
                        legalBlock (tsdocParamBlock apiParameter) = true) ->
  forall rows,
    forallb legalRow rows = true ->
    forallb legalRow
      (fold_left
         (fun parametersTable apiParameter =>
            let parameterDescription : DocSection := [] in
            let parameterDescription :=
              if parameterIsOptional apiParameter
              then appendNodesInParagraph parameterDescription
                     [italicText "(Optional)"; DocPlainText " "]
              else parameterDescription in
            let parameterDescription :=
              match tsdocParamBlock apiParameter with
              | Some block => _appendAndMergeSection parameterDescription (blockContent block)
              | None => parameterDescription
              end in
            parametersTable
            ++ [[[DocParagraph [DocPlainText (parameterName apiParameter)]];
                 [_createParagraphForTypeExcerpt env this (parameterTypeExcerpt apiParameter)];
                 parameterDescription]])
         apiParameters rows) = true.
Proof.
  induction apiParameters as [|p l IH]; intros Hblocks rows Hrows; simpl; [exact Hrows|].
  apply IH; [intros q Hq; apply Hblocks; now right|].
  apply forallb_snoc; [exact Hrows|]. apply row_legal.
  pose proof (Hblocks p (or_introl eq_refl)) as Hblock.
  assert (Hoptional : legalSection
                        (if parameterIsOptional p
                         then appendNodesInParagraph []
                                [italicText "(Optional)"; DocPlainText " "]
                         else []) = true).
  { destruct (parameterIsOptional p); [|reflexivity].
    apply appendNodesInParagraph_legal; [reflexivity | legal; reflexivity]. }
  apply List.Forall_cons; [legal; reflexivity|].
  apply List.Forall_cons;
    [unfold legalSection; cbn [forallb]; now rewrite typeParagraph_legal|].
  apply List.Forall_cons; [|apply List.Forall_nil].
  destruct (tsdocParamBlock p) as [block|]; [|exact Hoptional].
  now apply appendAndMergeSection_legal.
Qed.

Lemma parameterTables_legal (output : DocSection) (apiItem : ApiItem) :
  legalSection output = true ->
  legalSection (_writeParameterTables env this output apiItem) = true.
Proof.
  intros Ho. unfold _writeParameterTables. cbv zeta.
  set (table := appendTable output "Parameters" _ _).
  assert (Ht : legalSection table = true).
  { apply appendTable_legal; [|exact Ho].
    apply parameterRows_legal; [apply parameter_legal | reflexivity]. }
  clearbody table.
  destruct (ApiReturnTypeMixin_isBaseClassOf _); [|exact Ht].
  set (returns := appendNode _ (_createParagraphForTypeExcerpt env this _)).
  assert (Hr : legalSection returns = true).
  { unfold returns, appendNode, legalSection in *. rewrite !forallb_app, Ht.
    cbn [forallb]. rewrite typeParagraph_legal, !legal_paragraph.
    unfold legalParagraph, boldText. cbn [forallb]. now rewrite legal_emphasisSpan. }
  clearbody returns.
  destruct (documentedComment this apiItem) as [comment|] eqn:Hcomment; [|exact Hr].
  destruct (commentLegal_parts comment (comment_legal apiItem comment Hcomment))
    as (_ & _ & _ & Hreturns & _).
  destruct (returnsBlock comment) as [block|]; [|exact Hr].
  now apply appendSection_legal.
Qed.

Lemma kindSpecificOutput_legal (output : DocSection) (apiItem : ApiItem) :
  legalSection output = true ->
  legalSection (kindSpecificOutput env this output apiItem) = true.
Proof.
  intros Ho.
  assert (Hfunction :
            legalSection
              (_writeThrowsSection this (_writeParameterTables env this output apiItem)
                 apiItem) = true)
    by now apply throwsSection_legal, parameterTables_legal.
  unfold kindSpecificOutput.
  destruct (kind (item this apiItem)); try exact Ho; try exact Hfunction;
    try (now apply enumTables_legal);
    try (apply appendNodeInParagraph_legal; [exact Ho | apply legal_plainText]);
    try (apply appendClassTables_legal;
         [apply classTables_legal | now apply membersOutput_legal]);
    try (apply appendInterfaceTables_legal;
         [apply interfaceTables_legal | now apply membersOutput_legal]);
    try (apply appendContainerTables_legal; [apply containerTables_legal|]);
    try exact Ho.
  - apply appendTable_legal; [|exact Ho].
    rewrite forallb_forall. intros row (m & <- & _)%in_map_iff. apply twoCells_legal.
  - destruct (1 <? _)%nat; [|exact Ho].
    unfold legalSection in *. rewrite forallb_app, Ho. cbn [forallb].
    rewrite legal_heading, legal_table. cbn [andb]. rewrite andb_true_r.
    rewrite forallb_forall. intros row (m & <- & _)%in_map_iff.
    unfold entrypointRow. legal. reflexivity.
Qed.

Lemma body_legal writeApiItemPage (apiItem : ApiItem) (w w' : World)
    (frontMatter : FrontMatter) (body : DocSection) :
  buildPage env this writeApiItemPage apiItem w = (inr (Some (frontMatter, body)), w') ->
  legalSection body = true.
Proof.
  intros H. apply buildPage_inv in H as (w0 & written & _ & Hw & ->).
  apply writeKindSpecific_result in Hw as ->.
  pose proof (pageIntroduction_legal apiItem) as Hintro.
  destruct (remarksBeforeTables _); simpl.
  - now apply kindSpecificOutput_legal, remarksSection_legal.
  - now apply remarksSection_legal, kindSpecificOutput_legal.
Qed.

End Legality.

Lemma commentsLegalIn_subtree (path : ApiItem) :
  forall t, commentsLegalIn t = true -> commentsLegalIn (subtree t path) = true.
Proof.
  induction path as [|i path IH]; intros t Ht; simpl; [exact Ht|].
  apply IH. destruct t as [d children]. simpl in *.
  apply andb_true_iff in Ht as [_ Hall].
  destruct (Nat.lt_ge_cases i (length children)) as [Hi|Hi].
  - rewrite forallb_forall in Hall. apply Hall. now apply nth_In.
  - now rewrite nth_overflow.
Qed.

Lemma commentsLegalIn_sound (this : HugoDocumenter) :
  commentsLegalIn (_apiModel this) = true ->
  forall apiItem, itemLegal (item this apiItem) = true.
Proof.
  intros Hcheck apiItem.
  pose proof (commentsLegalIn_subtree apiItem _ Hcheck) as Hsub.
  unfold item. destruct (subtree (_apiModel this) apiItem) as [d children].
  simpl in *. now apply andb_true_iff in Hsub as [Hd _].
Qed.

(** X18 ([HugoDocumenter] with [CustomDocNodes.configuration]): the
    documenter appends allowable children only.  Under the configuration
    that [CustomDocNodes.configuration] registers (on the children that
    a new [TSDocConfiguration] allows for a section and a paragraph), in
    a run over a model whose comment sections hold allowable children,
    every node of the body of every page written is an allowable child
    of its container, at every depth: the nodes of the body, of a note
    box and of every table cell are allowable in a section, the children
    of every paragraph in a paragraph, the children of every emphasis
    span in an emphasis span. *)
Theorem X18_every_node_is_an_allowable_child :
  forall env this (fuel : nat) (w : World),
    commentsLegalIn (_apiModel this) = true ->
    Forall
      (fun file =>
         forallb (legalChild CustomDocNodes.customConfiguration "Section")
                 (writtenBody file) = true)
      (files (snd (generateFiles env this fuel w))).
Proof.
  intros env this fuel w Hlegal. apply generateFiles_files.
  intros writeApiItemPage apiItem w0 w1 frontMatter output Hb.
  apply (body_legal env this (commentsLegalIn_sound this Hlegal)
           writeApiItemPage apiItem w0 w1 frontMatter output Hb).
Qed.

Lemma X18_allowable_children_witness :
  commentsLegalIn (_apiModel Documented.this) = true
  /\ Forall
       (fun file =>
          forallb (legalChild CustomDocNodes.customConfiguration "Section")
                  (writtenBody file) = true)
       (files (snd (generateFiles Documented.env Documented.this 6 Examples.emptyWorld))).
Proof.
  assert (H : commentsLegalIn (_apiModel Documented.this) = true)
    by (vm_compute; reflexivity).
  split; [exact H|].
  apply (X18_every_node_is_an_allowable_child Documented.env Documented.this 6
           Examples.emptyWorld H).
Defined.

(** ** The folder of a member *)

(** X19 ([_getFilenameForApiItem]): the page of a member lies in the
    folder of the page of its parent.  For a member whose kind has a
    path segment of its own (any kind but model, package, entry point
    and enum member) and whose parent is neither a package nor the
    model, the file of the parent is [<folder>/_index.md] and the file of
    the member is [<folder>/<qualified name>/_index.md], where the
    qualified name is the safe display name of the member with its
    overload suffix and variable prefix. *)
Theorem X19_member_page_lies_in_the_folder_of_its_parent :
  forall env this (parentItem : ApiItem) (i : nat),
    appendsQualifiedName (kind (item this (parentItem ++ [i]))) = true ->
    kind (item this parentItem) <> ApiItemKind.Package ->
    kind (item this parentItem) <> ApiItemKind.Model ->
    exists folder,
      _getFilenameForApiItem env this parentItem = folder +:+ "/_index.md"
      /\ _getFilenameForApiItem env this (parentItem ++ [i])
         = folder +:+ "/" +:+ qualifiedNameOf env this (parentItem ++ [i])
           +:+ "/_index.md".
Proof.
  intros env this parentItem i Hk Hnp Hnm.
  exists (hierarchyStep env this parentItem (baseNameOfParents env this parentItem)
            parentItem).
  split; [now apply filename_by_last_step|].
  rewrite (filename_of_qualified env this (parentItem ++ [i]) Hk).
  rewrite baseName_of_member.
  rewrite baseName_for_other by (rewrite length_app; lia).
  now rewrite (hierarchyStep_not_package env this (parentItem ++ [i]) parentItem
                 parentItem _ Hnp).
Qed.

Lemma X19_member_folder_witness :
  _getFilenameForApiItem Inheritance.env Inheritance.this Inheritance.base
  = "widgets/_root/Base" +:+ "/_index.md"
  /\ _getFilenameForApiItem Inheritance.env Inheritance.this Inheritance.run
     = "widgets/_root/Base/run/_index.md"
  /\ exists folder,
       _getFilenameForApiItem Inheritance.env Inheritance.this Inheritance.base
       = folder +:+ "/_index.md"
       /\ _getFilenameForApiItem Inheritance.env Inheritance.this
            (Inheritance.base ++ [0%nat])
          = folder +:+ "/"
            +:+ qualifiedNameOf Inheritance.env Inheritance.this
                  (Inheritance.base ++ [0%nat])
            +:+ "/_index.md".
Proof.
  split; [reflexivity | split; [reflexivity|]].
  apply (X19_member_page_lies_in_the_folder_of_its_parent Inheritance.env
           Inheritance.this Inheritance.base 0%nat); [reflexivity | | ]; discriminate.
Defined.
